(* ===== verification/_CoqProject ===== *)
-Q . S2P
Prelude.v
NumPy.v
Haversine.v
Dataset.v
Loader.v
Profile.v
Sections.v
Render.v
App.v
