(* ===== verification/Prelude.v ===== *)
(** * Beach nourishment design tool: a verification development

    The repository (FurkanBaran/beach) is a Streamlit application in two
    Python files.
    - [src/app.py] is the page router: a landing page whose form moves to
      the project page when a project name is given, a "Home" button, the
      wave/sediment/structure/cost inputs, the call of
      [profile.render_profile_section()] and a stubbed calculation.
    - [src/profile_module.py] holds the cross-section component:
      [load_bathymetry] (cached NetCDF read); [extract_depth_profile]
      (samples of the straight line between two points, haversine
      distances, the depth variable and axes found by name, one
      nearest-neighbour lookup per sample, gap filling with [np.interp] or
      -5.0, negation when the mean depth is positive); the module-level
      creation of the session state (lines 81-93); and
      [render_profile_section], which Streamlit runs on every interaction
      and which mutates the three sections A, B, C (points, bathymetry
      curve, design curve, completed flag) through map clicks, manual
      coordinates, "Apply Coordinates", "Reset Points", the design table,
      "Compare & Save" and the navigation buttons.

    ** Files, in dependency order
    - [Prelude] (this file): floats as exact rationals [Q]; Python's
      comparisons as the boolean tests [Qltb] / [Qle_bool] with [BoolSpec]
      lemmas and [Proper] instances; float lists up to [Qeq] ([=l=], an
      [Equivalence]); [map_option], a vectorised call that raises when one
      element raises; the tactics [case_q] and [case_matches]; the hint
      databases [beach] and [beach_len].
    - [NumPy] (Module [NumPy]): [linspace], [np_interp] (with its segment
      scan [interp_seg] and numpy's ValueError as [None]) and [nanmean].
    - [Haversine]: [GeoPoint], [radians], [hav_a], [haversine] and
      [profile_distances] (lines 33-41) over the class [MathLib] of the
      libm functions, with the laws [MathLibLaws]; Module [QLib] is an
      executable instance that satisfies the laws.
    - [Dataset] (Module [Dataset]): [str.lower], [in], the depth-variable
      and axis search of lines 44-54 ([select_axes]) and the lookup of
      lines 58-62 ([lookup_depth]); xarray's [sel] is the variable's
      function [dv_sel], and [grid_var] builds a nearest-neighbour raster
      for concrete runs.
    - [Loader] (Module [Loader]): [load_bathymetry] (lines 9-24) over a
      record of file-system operations [FileSystem], and [@st.cache_data]
      as the process-wide cache [cached_load].
    - [Profile] (Module [Profile]): [fill_missing] (64-71),
      [sign_convention] (73-74), [raw_depths], [depths_along] (the [try]
      body) and [extract_depth_profile] (26-78); [valid_with_index] reads
      the indices and values of the valid samples (line 69) in one pass.
    - [Sections] (Module [Sections]): the section record and store, and
      the pure section operations: [click_point], [apply_points],
      [reset_section], [store_profile], [default_design], [design_regen],
      [design_edits], [mark_completed].
    - [Render] (Module [Render]): one run of [render_profile_section] as
      a state monad [Pass] on [Session] with outcomes [Done], [Reran]
      ([st.rerun()]) and [Raised]; one step per block of the code
      ([nav_step], [all_view], [click_step], [manual_coords], [apply_step],
      [reset_step], [bathy_step], [regen_step], [edit_rows],
      [compare_step], [prev_next_step]) composed as the code composes them
      ([edit_view], [render]); the widgets are an oracle record [UI]; the
      sessions a user can reach are the Inductive [reachable];
      Streamlit's rerun loop (buttons released after the run they
      triggered) is [run_until_done].
    - [App] (Module [App]): [app.py] run by one browser session against a
      shared Python process, which holds whether the module was imported
      ([import_module]: the module body runs at the first import of the
      process only) and the loader's cache; several sessions on one
      process ([sys_step]).

    ** What the theorems show
    - The render pass is safe (C1): on every reachable session no run
      raises.  This rests on the invariant [session_wf] (Section
      [WellFormed] of [Render]), preserved by every step through the
      weakest-precondition calculus [wp] of Section [Runs]; its corollaries
      are C8, C19, C20, C21, and the "All Results" view is read only (C23).
      The store-level steps of the design editor refine the pure section
      operations of [Sections] ([regen_step_refines], [edit_rows_refines]),
      which carries the design theorems C36-C38 over to the render pass.
    - Runs in sequence (Section [Traces]): Streamlit's rerun loop ends
      within three runs (C4, termination), "Compare & Save" completes a
      ready section (C9, liveness), "< Previous" and "Next >" move through
      A, B, C (C13), the second map click is ignored near the first point
      and added elsewhere (C14), the navigation buttons switch the view
      from any session (C15), "Reset Points" is undone by the next run
      (C3, a bug) and "Apply Coordinates" keeps a stale profile (C22).
      They use a calculus [no_rerun] of the steps that cannot restart the
      script.
    - The extractor: its shape and error paths (C5, C32), the distances
      (C10 across the antimeridian, C28 first, C29 total, C30 degenerate),
      gap filling (C6, C7, C34 inside the line, C18 at its ends, C25, C26),
      the sign heuristic (C12, C27, C31, and C11: the -5.0 fill value
      votes) and the case-insensitive search for the depth variable and
      its axes (C33); the design defaults and editor (C36-C38).
    - The loader: a broken copy in the working directory shadows the
      module's (C35).
    - The application: a second browser session crashes (C2, a bug), a
      single session never raises (C17), the project page loads the raster
      before it reads the session (C24), and once loaded the file system
      no longer matters, so a failed first load is final (C16); the landing
      form (C39) and the "Home" round trip (C40).

    ** Numbers, bounds and fuel
    A Python float is modelled by the rational it denotes; IEEE rounding is
    not modelled, so the theorems are about the exact reading of the code.
    NaN is [None] in an [option Q] where the code produces or tests one.
    The extractor is called with 50 samples ([default_num_points]); the
    design table has 2 to 20 rows ([ui_ok], the widget's bounds).  No
    definition of the code needs fuel: every loop of the code is a [map],
    a [fold] or a structural recursion on a list or on the row count.
    The only fuel is that of Streamlit's rerun loop [run_until_done]:
    three runs always suffice (C4): a click run, the rerun with the
    buttons released, and one more when that rerun appended the click the
    map still reports (a reset section); [click_point_again] shows the
    third run appends nothing.  [QLib] rounds
    arguments and results to a 2^-64 grid, evaluates the degree-13 Taylor
    polynomial of [sin] in Horner form, takes three Newton steps for
    [sqrt] from the integer square root on the grid (already within
    2^-64), and a Pade approximant for [arctan]; it is used only to run
    examples and witnesses (one degree of latitude on the equator comes
    out as 111194.92 m, as with numpy).

    ** Not modelled
    The NetCDF decoding of [xr.open_dataset] and xarray's [sel] (library
    code: the model takes their results as given), NaN produced by
    arithmetic (the only NaN of the code that the model carries is that of
    a failed lookup; [np.sqrt] of a negative number, possible when rounding
    puts the haversine term above 1, is outside the exact model, and the
    laws of [MathLib] say nothing of [sqrt] there), the state Streamlit
    keeps for keyed widgets (a widget's value is the oracle's answer for
    the value it is shown with), the plots, the map drawing and the metric widgets (display only), the
    unused inputs of the project page, and Streamlit itself beyond the
    rerun-and-restart semantics of [st.rerun()], the widget values and the
    per-process import of modules. *)

From Stdlib Require Import ZArith QArith Qabs Qreduction Lqa List Lia Setoid Morphisms Bool.
Import ListNotations.

Declare Scope beach_scope.
Delimit Scope beach_scope with beach.
Open Scope Q_scope.

(** ** Float comparisons *)

(** Python's [x < y] on floats. *)
Definition Qltb (x y : Q) : bool := negb (Qle_bool y x).

(** A float built from a Python [int]. *)
Definition Qnat (n : nat) : Q := inject_Z (Z.of_nat n).

Lemma Qltb_spec (x y : Q) : BoolSpec (x < y) (y <= x) (Qltb x y).
Proof.
  unfold Qltb. destruct (Qle_bool y x) eqn:E; simpl.
  - apply Qle_bool_iff in E. now constructor.
  - constructor. apply Qnot_le_lt. intros H. apply Qle_bool_iff in H. congruence.
Qed.

Lemma Qle_bool_spec (x y : Q) : BoolSpec (x <= y) (y < x) (Qle_bool x y).
Proof.
  destruct (Qle_bool x y) eqn:E.
  - apply Qle_bool_iff in E. now constructor.
  - constructor. apply Qnot_le_lt. intros H. apply Qle_bool_iff in H. congruence.
Qed.

Lemma Qeq_bool_spec (x y : Q) : BoolSpec (x == y) (~ x == y) (Qeq_bool x y).
Proof.
  destruct (Qeq_bool x y) eqn:E; constructor.
  - now apply Qeq_bool_iff.
  - intros H. apply Qeq_bool_iff in H. congruence.
Qed.

#[export] Instance Qltb_comp : Proper (Qeq ==> Qeq ==> eq) Qltb.
Proof. intros x x' Hx y y' Hy. unfold Qltb. now rewrite Hx, Hy. Qed.

#[export] Instance Qeq_bool_comp : Proper (Qeq ==> Qeq ==> eq) Qeq_bool.
Proof.
  intros x x' Hx y y' Hy.
  destruct (Qeq_bool_spec x y), (Qeq_bool_spec x' y'); auto;
    exfalso; apply H0 || apply H; [rewrite <- Hx, <- Hy | rewrite Hx, Hy]; assumption.
Qed.

Lemma Qnat_nonneg (n : nat) : 0 <= Qnat n.
Proof. unfold Qnat, Qle; simpl. lia. Qed.

Lemma Qnat_S (n : nat) : Qnat (S n) == Qnat n + 1.
Proof. unfold Qnat. rewrite Nat2Z.inj_succ, <- Z.add_1_r, inject_Z_plus. reflexivity. Qed.

Lemma Qnat_add (m n : nat) : Qnat (m + n) == Qnat m + Qnat n.
Proof. unfold Qnat. rewrite Nat2Z.inj_add, inject_Z_plus. reflexivity. Qed.

Lemma Qnat_lt (m n : nat) : (m < n)%nat -> Qnat m < Qnat n.
Proof. intros H. unfold Qnat. rewrite <- Zlt_Qlt. lia. Qed.

Lemma Qnat_le (m n : nat) : (m <= n)%nat -> Qnat m <= Qnat n.
Proof. intros H. unfold Qnat. rewrite <- Zle_Qle. lia. Qed.

Lemma Qnat_pos (n : nat) : (0 < n)%nat -> 0 < Qnat n.
Proof. intros H. apply (Qnat_lt 0 n H). Qed.

(** Splits every float comparison that occurs in the goal. *)
Ltac case_q :=
  repeat match goal with
    | |- context [Qltb ?x ?y] => destruct (Qltb_spec x y)
    | |- context [Qle_bool ?x ?y] => destruct (Qle_bool_spec x y)
    | |- context [Qeq_bool ?x ?y] => destruct (Qeq_bool_spec x y)
    end.

(** Case analysis on every [match] of the goal, innermost scrutinee first. *)
Ltac case_matches :=
  repeat match goal with
    | |- context [match ?x with _ => _ end] => destruct x eqn:?
    end.

(** ** Lists of floats *)

(** Two float arrays are equal when they agree pointwise. *)
Definition Qlist_eq : list Q -> list Q -> Prop := Forall2 Qeq.
Infix "=l=" := Qlist_eq (at level 70) : beach_scope.
Open Scope beach_scope.

#[export] Instance Qlist_eq_equiv : Equivalence Qlist_eq.
Proof.
  split.
  - intros l. induction l; constructor; auto. reflexivity.
  - intros l1 l2 H. induction H; constructor; auto. now symmetry.
  - intros l1. induction l1 as [|x l1 IH]; intros l2 l3 H1 H2;
      inversion H1; subst; inversion H2; subst; constructor.
    + now transitivity y.
    + eapply IH; eauto.
Qed.

#[export] Instance length_Qlist_eq : Proper (Qlist_eq ==> eq) (@length Q).
Proof. intros l1 l2 H. exact (Forall2_length H). Qed.

(** The decision procedure used by the witnesses. *)
Fixpoint Qlist_eqb (l1 l2 : list Q) : bool :=
  match l1, l2 with
  | [], [] => true
  | x :: l1', y :: l2' => Qeq_bool x y && Qlist_eqb l1' l2'
  | _, _ => false
  end.

Lemma Qlist_eqb_iff (l1 l2 : list Q) : Qlist_eqb l1 l2 = true <-> l1 =l= l2.
Proof.
  revert l2; induction l1 as [|x l1 IH]; intros [|y l2]; simpl.
  - split; constructor.
  - split; intros H; [discriminate | inversion H].
  - split; intros H; [discriminate | inversion H].
  - rewrite andb_true_iff, Qeq_bool_iff, IH. split.
    + intros [H1 H2]. now constructor.
    + intros H. now inversion H.
Qed.

Lemma Qlist_eq_nth (l1 l2 : list Q) :
  length l1 = length l2 ->
  (forall i, (i < length l1)%nat -> nth i l1 0 == nth i l2 0) ->
  l1 =l= l2.
Proof.
  revert l2; induction l1 as [|x l1 IH]; intros [|y l2] Hl H; simpl in *;
    try discriminate; constructor.
  - apply (H 0%nat). lia.
  - apply IH; [lia|]. intros i Hi. apply (H (S i)). lia.
Qed.

Lemma Qlist_eq_nth_inv (l1 l2 : list Q) i :
  l1 =l= l2 -> nth i l1 0 == nth i l2 0.
Proof.
  intros H. revert i; induction H; intros [|i]; simpl; auto; reflexivity.
Qed.

Lemma Qlist_eq_app (l1 l2 l1' l2' : list Q) :
  l1 =l= l1' -> l2 =l= l2' -> l1 ++ l2 =l= l1' ++ l2'.
Proof. intros H1 H2. now apply Forall2_app. Qed.

(** ** Generic list facts shared by the components *)

Lemma nth_map_seq {A} (f : nat -> A) (n i : nat) (d : A) :
  (i < n)%nat -> nth i (map f (seq 0 n)) d = f i.
Proof.
  intros H. rewrite nth_indep with (d' := f 0%nat) by (rewrite length_map, length_seq; lia).
  rewrite map_nth, seq_nth by lia. reflexivity.
Qed.

Lemma nth_map_lt {A B} (f : A -> B) (l : list A) (d : A) (db : B) n :
  (n < length l)%nat -> nth n (map f l) db = f (nth n l d).
Proof.
  revert n; induction l as [|x l IH]; intros [|n] H; simpl in *; try lia; auto.
  apply IH. lia.
Qed.

Lemma nth_last_app {A} (l : list A) (n : nat) (x d : A) :
  length l = n -> nth n (l ++ [x]) d = x.
Proof. intros <-. rewrite app_nth2, Nat.sub_diag by lia. reflexivity. Qed.

Lemma last_app_single {A} (l : list A) (x d : A) : last (l ++ [x]) d = x.
Proof. induction l as [|y l IH]; [reflexivity|]. simpl. rewrite IH. now destruct l. Qed.

Lemma last_nth {A} (l : list A) (d : A) : last l d = nth (length l - 1) l d.
Proof.
  induction l as [|x l IH]; [reflexivity|].
  destruct l as [|y l]; [reflexivity|]. simpl in *. rewrite IH. now rewrite Nat.sub_0_r.
Qed.

(** A vectorised call that raises as a whole when one element raises. *)
Fixpoint map_option {A B} (f : A -> option B) (l : list A) : option (list B) :=
  match l with
  | [] => Some []
  | x :: l' =>
      match f x, map_option f l' with
      | Some y, Some ys => Some (y :: ys)
      | _, _ => None
      end
  end.

Lemma map_option_Some {A B} (f : A -> option B) (l : list A) :
  (forall x, In x l -> f x <> None) ->
  exists ys, map_option f l = Some ys /\ length ys = length l /\
             forall i d dy, (i < length l)%nat -> f (nth i l d) = Some (nth i ys dy).
Proof.
  induction l as [|x l IH]; intros H.
  - exists []. repeat split. intros i d dy Hi. simpl in Hi. lia.
  - destruct (f x) as [y|] eqn:Ex; [|exfalso; apply (H x); [left|]; auto].
    destruct IH as [ys [E1 [E2 E3]]]; [intros z Hz; apply H; now right|].
    exists (y :: ys). simpl. rewrite Ex, E1. repeat split; [simpl; lia|].
    intros [|i] d dy Hi; simpl; [exact Ex|]. apply E3. simpl in Hi. lia.
Qed.

Create HintDb beach.
Create Rewrite HintDb beach_len.
#[export] Hint Rewrite length_map length_seq length_app repeat_length length_combine
  Nat.sub_0_r : beach_len.
#[export] Hint Resolve Qnat_nonneg Qle_refl Qlt_le_weak : beach.
