(* ===== verification/NumPy.v ===== *)
(** * The numpy routines called by [extract_depth_profile] and the
      design-curve editor of [render_profile_section]

    [linspace] is [np.linspace(start, stop, num)] (endpoint included, the
    last sample set to [stop] exactly, as numpy does); [np_interp] is
    [np.interp(x, xp, fp)] for one query point (clamped at both ends, the
    sample value returned exactly at a node, the slope formula of numpy
    elsewhere, and numpy's ValueError on empty or mismatched sample arrays
    as [None]); [nanmean] is [np.nanmean] of an array without NaN ([None]
    for the NaN numpy returns on an empty array). *)

From Stdlib Require Import ZArith QArith Qabs Qreduction Lqa List Lia Setoid Morphisms Bool.
From Stdlib Require Import Sorted.
From S2P Require Import Prelude.
Import ListNotations.
Open Scope Q_scope.
Open Scope beach_scope.

Module NumPy.

(** ** [np.linspace] *)

(** [y = arange(0, num) * step + start; y[-1] = stop], with
    [step = (stop - start) / (num - 1)]; for [num = 1] numpy returns
    [[start]]. *)
Definition linspace (start stop : Q) (num : nat) : list Q :=
  match num with
  | O => []
  | S O => [start]
  | S div =>
      let step := (stop - start) / Qnat div in
      map (fun i => Qnat i * step + start) (seq 0 div) ++ [stop]
  end.

(** ** [np.interp] *)

(** The scan over the segments [[x0, x1)], [[x1, x2)], ...: the first
    segment whose right end exceeds [x] interpolates, and past the last
    node the last sample is returned.  On a non-decreasing [xp] this is
    the segment numpy's binary search finds. *)
Fixpoint interp_seg (x x0 f0 : Q) (xp fp : list Q) : Q :=
  match xp, fp with
  | x1 :: xp', f1 :: fp' =>
      if Qltb x x1 then
        if Qeq_bool x0 x then f0
        else (f1 - f0) / (x1 - x0) * (x - x0) + f0
      else interp_seg x x1 f1 xp' fp'
  | _, _ => f0
  end.

Definition np_interp (x : Q) (xp fp : list Q) : option Q :=
  match xp, fp with
  | x0 :: xp', f0 :: fp' =>
      if Nat.eqb (length xp) (length fp) then
        Some (if Qltb x x0 then f0 else interp_seg x x0 f0 xp' fp')
      else None
  | _, _ => None
  end.

(** ** [np.nanmean] on an array with no NaN left *)
Definition nanmean (l : list Q) : option Q :=
  match l with
  | [] => None
  | _ => Some (fold_right Qplus 0 l / Qnat (length l))
  end.

(** ** Lemmas on [linspace] *)

Lemma linspace_length start stop num : length (linspace start stop num) = num.
Proof.
  destruct num as [|[|div]]; simpl; auto.
  autorewrite with beach_len. simpl. lia.
Qed.

Lemma linspace_nth_lt start stop div i :
  (i < S div)%nat ->
  nth i (linspace start stop (S (S div))) 0
  = Qnat i * ((stop - start) / Qnat (S div)) + start.
Proof.
  intros Hi. unfold linspace.
  rewrite app_nth1 by (autorewrite with beach_len; lia).
  now rewrite nth_map_seq.
Qed.

Lemma linspace_nth_last start stop div :
  nth (S div) (linspace start stop (S (S div))) 0 = stop.
Proof.
  unfold linspace. apply nth_last_app. now autorewrite with beach_len.
Qed.

(** The closed form of every sample. *)
Lemma linspace_nth start stop n i :
  (2 <= n)%nat -> (i < n)%nat ->
  nth i (linspace start stop n) 0 == start + Qnat i * (stop - start) / Qnat (n - 1).
Proof.
  intros Hn Hi. destruct n as [|[|div]]; [lia|lia|].
  replace (S (S div) - 1)%nat with (S div) by lia.
  assert (Hpos : 0 < Qnat (S div)) by (apply Qnat_pos; lia).
  destruct (Nat.eq_dec i (S div)) as [->|Hne].
  - rewrite linspace_nth_last. field. lra.
  - rewrite linspace_nth_lt by lia. field. lra.
Qed.

Lemma linspace_first start stop n :
  (1 <= n)%nat -> nth 0 (linspace start stop n) 0 == start.
Proof.
  intros Hn. destruct n as [|[|div]]; [lia|reflexivity|].
  rewrite linspace_nth_lt by lia. unfold Qnat at 1; simpl. ring.
Qed.

(** ** Lemmas on [np_interp] *)

(** numpy raises ValueError exactly when [xp] is empty or the two arrays
    differ in length. *)
Lemma np_interp_None x xp fp :
  np_interp x xp fp = None <-> xp = [] \/ length xp <> length fp.
Proof.
  unfold np_interp. destruct xp as [|x0 xp], fp as [|f0 fp]; simpl;
    try (split; [intros _; (left; reflexivity) || (right; discriminate) | auto]).
  destruct (Nat.eqb_spec (length xp) (length fp)); split; intros H;
    try discriminate; try lia; destruct H; congruence || lia.
Qed.

(** The interpolation returns a value when both arrays are non-empty and
    of the same length. *)
Lemma np_interp_Some x xp fp :
  xp <> [] -> length xp = length fp -> exists v, np_interp x xp fp = Some v.
Proof.
  intros Hne Hl. unfold np_interp.
  destruct xp as [|x0 xp], fp as [|f0 fp]; try congruence; [simpl in Hl; lia|].
  rewrite Hl, Nat.eqb_refl. eauto.
Qed.

Lemma sorted_head_lt x0 (xp : list Q) k :
  StronglySorted Qlt (x0 :: xp) -> (k < length xp)%nat -> x0 < nth k xp 0.
Proof.
  intros Hs Hk. apply StronglySorted_inv in Hs as [_ Hall].
  rewrite Forall_forall in Hall. apply Hall, nth_In, Hk.
Qed.

Lemma sorted_head_le x0 (xp : list Q) k :
  StronglySorted Qlt (x0 :: xp) -> (k <= length xp)%nat -> x0 <= nth k (x0 :: xp) 0.
Proof.
  intros Hs Hk. destruct k; [apply Qle_refl|].
  simpl. apply Qlt_le_weak, (sorted_head_lt x0 xp k Hs). lia.
Qed.

(** At a node the sample value is returned exactly. *)
Lemma interp_seg_node x x0 f0 (xp fp : list Q) k :
  StronglySorted Qlt (x0 :: xp) -> length xp = length fp -> (k <= length xp)%nat ->
  x == nth k (x0 :: xp) 0 ->
  interp_seg x x0 f0 xp fp = nth k (f0 :: fp) 0.
Proof.
  revert x0 f0 fp k; induction xp as [|x1 xp IH]; intros x0 f0 fp k Hs Hl Hk Hx.
  - destruct k; [|simpl in Hk; lia]. destruct fp; reflexivity.
  - destruct fp as [|f1 fp]; [discriminate|]. simpl in Hl.
    destruct k as [|k].
    + pose proof (sorted_head_lt x0 (x1 :: xp) 0 Hs ltac:(simpl; lia)) as H01. simpl in *.
      destruct (Qltb_spec x x1); [|lra]. destruct (Qeq_bool_spec x0 x); [reflexivity|lra].
    + change (nth (S k) (x0 :: x1 :: xp) 0) with (nth k (x1 :: xp) 0) in Hx.
      change (nth (S k) (f0 :: f1 :: fp) 0) with (nth k (f1 :: fp) 0).
      cbn [interp_seg].
      assert (Hs' : StronglySorted Qlt (x1 :: xp)) by now inversion Hs.
      assert (x1 <= nth k (x1 :: xp) 0)
        by (apply sorted_head_le; [exact Hs' | simpl in Hk; lia]).
      destruct (Qltb_spec x x1); [lra|].
      apply IH; auto. simpl in Hk. lia.
Qed.

Theorem np_interp_node x (xp fp : list Q) k :
  StronglySorted Qlt xp -> length xp = length fp -> (k < length xp)%nat ->
  x == nth k xp 0 -> np_interp x xp fp = Some (nth k fp 0).
Proof.
  intros Hs Hl Hk Hx.
  destruct xp as [|x0 xp], fp as [|f0 fp]; try (simpl in *; lia).
  unfold np_interp. rewrite Hl, Nat.eqb_refl. f_equal.
  assert (x0 <= nth k (x0 :: xp) 0) by (apply sorted_head_le; [exact Hs | simpl in Hk; lia]).
  destruct (Qltb_spec x x0); [lra|].
  apply interp_seg_node; [exact Hs | simpl in Hl; lia | simpl in Hk; lia | exact Hx].
Qed.

(** Strictly inside a segment, the linear interpolation of its two ends. *)
Lemma interp_seg_between x x0 f0 (xp fp : list Q) k :
  StronglySorted Qlt (x0 :: xp) -> length xp = length fp -> (k < length xp)%nat ->
  nth k (x0 :: xp) 0 < x -> x < nth k xp 0 ->
  interp_seg x x0 f0 xp fp
  = (nth k fp 0 - nth k (f0 :: fp) 0) / (nth k xp 0 - nth k (x0 :: xp) 0)
      * (x - nth k (x0 :: xp) 0) + nth k (f0 :: fp) 0.
Proof.
  revert x0 f0 fp k; induction xp as [|x1 xp IH]; intros x0 f0 fp k Hs Hl Hk Hlo Hhi;
    [simpl in Hk; lia|].
  destruct fp as [|f1 fp]; [discriminate|]. simpl in Hl.
  destruct k as [|k].
  - simpl in *. destruct (Qltb_spec x x1) as [_|]; [|lra].
    destruct (Qeq_bool_spec x0 x); [lra|reflexivity].
  - change (nth (S k) (x0 :: x1 :: xp) 0) with (nth k (x1 :: xp) 0) in *.
    change (nth (S k) (f0 :: f1 :: fp) 0) with (nth k (f1 :: fp) 0).
    change (nth (S k) (x1 :: xp) 0) with (nth k xp 0) in *.
    change (nth (S k) (f1 :: fp) 0) with (nth k fp 0).
    cbn [interp_seg].
    assert (Hs' : StronglySorted Qlt (x1 :: xp)) by now inversion Hs.
    assert (x1 <= nth k (x1 :: xp) 0) by (apply sorted_head_le; [exact Hs' | simpl in Hk; lia]).
    destruct (Qltb_spec x x1); [lra|]. apply IH; auto. simpl in Hk; lia.
Qed.

(** Between two consecutive nodes of a strictly increasing [xp],
    [np.interp] is the straight line through the two nodes. *)
Lemma np_interp_between x (xp fp : list Q) k :
  StronglySorted Qlt xp -> length xp = length fp -> (S k < length xp)%nat ->
  nth k xp 0 < x -> x < nth (S k) xp 0 ->
  np_interp x xp fp
  = Some ((nth (S k) fp 0 - nth k fp 0) / (nth (S k) xp 0 - nth k xp 0)
            * (x - nth k xp 0) + nth k fp 0).
Proof.
  intros Hs Hl Hk Hlo Hhi.
  destruct xp as [|x0 xp], fp as [|f0 fp]; try (simpl in *; lia).
  unfold np_interp. rewrite Hl, Nat.eqb_refl. f_equal.
  assert (x0 <= nth k (x0 :: xp) 0) by (apply sorted_head_le; [exact Hs | simpl in Hk; lia]).
  destruct (Qltb_spec x x0); [lra|].
  change (nth (S k) (x0 :: xp) 0) with (nth k xp 0) in *.
  change (nth (S k) (f0 :: fp) 0) with (nth k fp 0).
  apply interp_seg_between; [exact Hs | simpl in Hl; lia | simpl in Hk; lia | exact Hlo | exact Hhi].
Qed.

(** Left of the first node, the first sample value ([left] defaults to
    [fp[0]]). *)
Lemma np_interp_left x (xp fp : list Q) :
  xp <> [] -> length xp = length fp -> x < nth 0 xp 0 -> np_interp x xp fp = Some (nth 0 fp 0).
Proof.
  intros Hne Hl Hx. destruct xp as [|x0 xp], fp as [|f0 fp]; try (simpl in *; congruence).
  unfold np_interp. rewrite Hl, Nat.eqb_refl. simpl in Hx. destruct (Qltb_spec x x0); [reflexivity|lra].
Qed.

Lemma interp_seg_right x x0 f0 (xp fp : list Q) :
  Forall (fun y => y <= x) xp -> length xp = length fp ->
  interp_seg x x0 f0 xp fp = last (f0 :: fp) 0.
Proof.
  revert x0 f0 fp; induction xp as [|x1 xp IH]; intros x0 f0 fp Hall Hl.
  - destruct fp; [reflexivity|discriminate].
  - destruct fp as [|f1 fp]; [discriminate|]. inversion Hall; subst. cbn [interp_seg].
    destruct (Qltb_spec x x1); [lra|]. rewrite IH by (auto; simpl in Hl; lia).
    reflexivity.
Qed.

(** Right of (or at) the last node, the last sample value ([right]
    defaults to [fp[-1]]). *)
Lemma np_interp_right x (xp fp : list Q) :
  xp <> [] -> length xp = length fp -> Forall (fun y => y <= x) xp ->
  np_interp x xp fp = Some (last fp 0).
Proof.
  intros Hne Hl Hall. destruct xp as [|x0 xp], fp as [|f0 fp]; try (simpl in *; congruence).
  inversion Hall; subst. unfold np_interp. rewrite Hl, Nat.eqb_refl.
  destruct (Qltb_spec x x0); [lra|]. f_equal. apply interp_seg_right; auto.
Qed.

(** ** Witnesses *)

Lemma linspace_nth_witness :
  nth 3 (linspace 0 100 5) 0 == 0 + Qnat 3 * (100 - 0) / Qnat (5 - 1).
Proof. apply linspace_nth; lia. Defined.

End NumPy.
