(* ===== verification/Haversine.v ===== *)
(** * Haversine distances of [extract_depth_profile]

    [src/profile_module.py], lines 33-41, computes, for every sample point
    [(lat, lon)] of the line, the great-circle distance from [point1]:
    radians with [np.radians], the haversine term [a], the central angle
    [c = 2 * arctan2(sqrt a, sqrt (1 - a))] and [R * c] with
    [R = 6371000].  The transcendental functions are numpy's (libm's):
    they are the interface [MathLib], and the theorems are proved against
    its laws [MathLibLaws], true of IEEE libm ([sin 0 = 0], [sqrt 0 = 0],
    [sqrt 1 = 1], [sqrt x >= 0] for [x >= 0], [arctan2 0 x = 0] for
    [x > 0], [arctan2 y x >= 0] for [y >= 0], and each function
    determined by the value of its arguments).  [np.sqrt] of a negative
    number is NaN, which a rational cannot be: the laws say nothing of
    [m_sqrt] there, so no theorem depends on its value there.  [QLib] is
    an executable instance (truncated series and Newton steps on a
    2^-64 grid) that discharges the laws and runs the model on concrete
    inputs. *)

From Stdlib Require Import ZArith QArith Qabs Qround Qreduction Lqa List Lia Setoid Morphisms.
From S2P Require Import Prelude NumPy.
Import ListNotations.
Open Scope Q_scope.
Open Scope beach_scope.

(** A point as the code holds it: the dict [{'lat': .., 'lon': ..}]. *)
Record GeoPoint := { lat : Q; lon : Q }.

(** The double nearest to pi, which [np.radians] multiplies by. *)
Definition np_pi : Q := 884279719003555 # 281474976710656.

(** [np.radians(x) = x * (pi / 180)]. *)
Definition radians (x : Q) : Q := x * (np_pi / 180).

(** [R = 6371000]. *)
Definition earth_R : Q := 6371000.

(** ** The libm interface *)

Class MathLib := {
  m_sin : Q -> Q;
  m_cos : Q -> Q;
  m_sqrt : Q -> Q;
  m_arctan2 : Q -> Q -> Q
}.

Class MathLibLaws (L : MathLib) : Prop := {
  sin_proper :: Proper (Qeq ==> Qeq) m_sin;
  cos_proper :: Proper (Qeq ==> Qeq) m_cos;
  sqrt_proper :: Proper (Qeq ==> Qeq) m_sqrt;
  arctan2_proper :: Proper (Qeq ==> Qeq ==> Qeq) m_arctan2;
  sin_0 : m_sin 0 == 0;
  sqrt_0 : m_sqrt 0 == 0;
  sqrt_1 : m_sqrt 1 == 1;
  sqrt_nonneg : forall x, 0 <= x -> 0 <= m_sqrt x;
  arctan2_0_l : forall x, 0 < x -> m_arctan2 0 x == 0;
  arctan2_nonneg : forall y x, 0 <= y -> 0 <= m_arctan2 y x
}.

Section Haversine.
Context `{L : MathLib}.

(** The haversine term [a] of line 39, for the sample [(lat2, lon2)]
    against [point1 = (lat1, lon1)]. *)
Definition hav_a (lat1 lon1 lat2 lon2 : Q) : Q :=
  let lat1_rad := radians lat1 in
  let lat2_rad := radians lat2 in
  let delta_lat := radians (lat2 - lat1) in
  let delta_lon := radians (lon2 - lon1) in
  m_sin (delta_lat / 2) ^ 2
  + m_cos lat1_rad * m_cos lat2_rad * m_sin (delta_lon / 2) ^ 2.

(** Lines 39-41: [c = 2 * arctan2(sqrt a, sqrt(1 - a))], [R * c]. *)
Definition haversine (p1 : GeoPoint) (lat2 lon2 : Q) : Q :=
  let a := hav_a (lat p1) (lon p1) lat2 lon2 in
  let c := 2 * m_arctan2 (m_sqrt a) (m_sqrt (1 - a)) in
  earth_R * c.

(** The vectorised computation over the sample arrays [lats], [lons]. *)
Definition profile_distances (p1 : GeoPoint) (lats lons : list Q) : list Q :=
  map (fun '(la, lo) => haversine p1 la lo) (combine lats lons).

Context `{LL : !MathLibLaws L}.

#[export] Instance hav_a_proper : Proper (Qeq ==> Qeq ==> Qeq ==> Qeq ==> Qeq) hav_a.
Proof.
  intros a a' Ha b b' Hb c c' Hc d d' Hd. unfold hav_a, radians. cbv zeta.
  now rewrite Ha, Hb, Hc, Hd.
Qed.

Lemma haversine_proper p1 p1' la la' lo lo' :
  lat p1 == lat p1' -> lon p1 == lon p1' -> la == la' -> lo == lo' ->
  haversine p1 la lo == haversine p1' la' lo'.
Proof.
  intros H1 H2 H3 H4. unfold haversine. cbv zeta. now rewrite H1, H2, H3, H4.
Qed.

(** The distance from a point to (a copy of) itself is zero. *)
Lemma hav_a_self lat1 lon1 la lo :
  la == lat1 -> lo == lon1 -> hav_a lat1 lon1 la lo == 0.
Proof.
  intros H1 H2. rewrite H1, H2. unfold hav_a. cbv zeta.
  setoid_replace (radians (lat1 - lat1) / 2) with 0 by (unfold radians; field).
  setoid_replace (radians (lon1 - lon1) / 2) with 0 by (unfold radians; field).
  rewrite sin_0. ring.
Qed.

Lemma haversine_self p1 la lo :
  la == lat p1 -> lo == lon p1 -> haversine p1 la lo == 0.
Proof.
  intros H1 H2. unfold haversine. cbv zeta. rewrite (hav_a_self _ _ _ _ H1 H2).
  setoid_replace (1 - 0) with 1 by ring.
  rewrite sqrt_0, sqrt_1, arctan2_0_l by lra. unfold earth_R. ring.
Qed.

Lemma profile_distances_length p1 lats lons :
  length (profile_distances p1 lats lons) = Nat.min (length lats) (length lons).
Proof. unfold profile_distances. now autorewrite with beach_len. Qed.

Lemma profile_distances_nth p1 lats lons k :
  length lats = length lons -> (k < length lats)%nat ->
  nth k (profile_distances p1 lats lons) 0 = haversine p1 (nth k lats 0) (nth k lons 0).
Proof.
  intros Hl Hk. unfold profile_distances.
  rewrite (nth_indep _ 0 (haversine p1 0 0)) by (rewrite length_map, length_combine; lia).
  rewrite (map_nth (fun '(la, lo) => haversine p1 la lo) _ (0, 0)).
  now rewrite combine_nth.
Qed.

End Haversine.

(** ** An executable instance of the interface

    Arguments and results are truncated to a 2^-64 grid (so that every
    function depends on the value of its argument only, and numbers stay
    small), [sin] and [cos] are their Taylor polynomials, [sqrt] is three
    Newton steps from the integer square root on the grid, [arctan] a Pade approximant with the reflection
    [arctan t = pi/2 - arctan (1/t)] beyond [|t| = 1], and [arctan2]
    follows the quadrant rules of C's [atan2]. *)
Module QLib.

Definition grid : Q := inject_Z (2 ^ 64).
Definition qround (x : Q) : Q := inject_Z (Qfloor (x * grid)) / grid.

(** [x] brought into [[-pi, pi]], then into [[-pi/2, pi/2]] by
    [sin (pi - r) = sin r]. *)
Definition reduce_2pi (x : Q) : Q :=
  x - inject_Z (Qfloor (x / (2 * np_pi) + (1 # 2))) * (2 * np_pi).

Definition fold_half (r : Q) : Q :=
  if Qltb (np_pi / 2) r then np_pi - r
  else if Qltb r (- (np_pi / 2)) then - np_pi - r
  else r.

(** The Taylor polynomial of degree 13 in Horner form,
    [x (1 - x^2/(2*3) (1 - x^2/(4*5) (... (1 - x^2/(12*13)))))], rounded
    after each step. *)
Definition sin_poly (x : Q) : Q :=
  let x2 := qround (x * x) in
  let h c acc := qround (1 - x2 * acc / c) in
  x * h 6 (h 20 (h 42 (h 72 (h 110 (h 156 1))))).

Definition q_sin (x : Q) : Q :=
  let x := qround x in
  qround (sin_poly (qround (fold_half (reduce_2pi x)))).

Definition q_cos (x : Q) : Q :=
  let x := qround x in
  q_sin (np_pi / 2 - x).

Fixpoint newton (n : nat) (x y : Q) : Q :=
  match n with
  | O => y
  | S n => newton n x (qround ((y + x / y) / 2))
  end.

Definition q_sqrt (x : Q) : Q :=
  let x := qround x in
  if Qle_bool x 0 then 0
  else newton 3 x (inject_Z (Z.sqrt (Qfloor (x * grid * grid))) / grid).

Definition pade (t : Q) : Q := t * ((15 + 4 * (t * t)) / (15 + 9 * (t * t))).

Definition q_atan (t : Q) : Q :=
  if Qle_bool (Qabs t) 1 then pade t
  else if Qltb 0 t then np_pi / 2 - pade (/ t)
  else - (np_pi / 2) - pade (/ t).

Definition q_arctan2 (y x : Q) : Q :=
  let y := qround y in
  let x := qround x in
  qround
    (if Qltb 0 x then q_atan (y / x)
     else if Qltb x 0 then
       (if Qle_bool 0 y then q_atan (y / x) + np_pi else q_atan (y / x) - np_pi)
     else if Qltb 0 y then np_pi / 2
     else if Qltb y 0 then - (np_pi / 2)
     else 0).

#[export] Instance lib : MathLib :=
  {| m_sin := q_sin; m_cos := q_cos; m_sqrt := q_sqrt; m_arctan2 := q_arctan2 |}.

Lemma qround_comp x y : x == y -> qround x = qround y.
Proof. intros H. unfold qround. now rewrite (Qfloor_comp (x * grid) (y * grid)) by now rewrite H. Qed.

Lemma qround_nonneg x : 0 <= x -> 0 <= qround x.
Proof.
  intros H. unfold qround, grid. apply Qle_shift_div_l; [reflexivity|].
  rewrite Qmult_0_l. change (inject_Z 0 <= inject_Z (Qfloor (x * grid))). rewrite <- Zle_Qle.
  change 0%Z with (Qfloor 0). apply Qfloor_resp_le. apply Qmult_le_0_compat; [exact H|discriminate].
Qed.

Lemma div_nonneg x y : 0 <= x -> 0 <= y -> 0 <= x / y.
Proof. intros. apply Qmult_le_0_compat; auto. now apply Qinv_le_0_compat. Qed.

Lemma newton_nonneg n x y : 0 <= x -> 0 <= y -> 0 <= newton n x y.
Proof.
  revert y; induction n as [|n IH]; intros y Hx Hy; simpl; auto.
  apply IH; auto. apply qround_nonneg. apply div_nonneg; [|discriminate].
  pose proof (div_nonneg x y Hx Hy). lra.
Qed.

Lemma pade_ratio t : 0 < (15 + 4 * (t * t)) / (15 + 9 * (t * t)) /\
                     (15 + 4 * (t * t)) / (15 + 9 * (t * t)) <= 1.
Proof.
  assert (0 <= t * t) by nra. split.
  - apply Qlt_shift_div_l; rewrite ?Qmult_0_l; lra.
  - apply Qle_shift_div_r; rewrite ?Qmult_1_l; lra.
Qed.

Lemma pade_abs t : Qabs (pade t) <= Qabs t.
Proof.
  unfold pade. destruct (pade_ratio t) as [H0 H1]. rewrite Qabs_Qmult.
  rewrite (Qabs_pos ((15 + 4 * (t * t)) / (15 + 9 * (t * t)))) by lra.
  pose proof (Qabs_nonneg t). nra.
Qed.

Lemma pade_nonneg t : 0 <= t -> 0 <= pade t.
Proof. intros H. unfold pade. destruct (pade_ratio t). nra. Qed.

Lemma inv_abs_le_1 t : ~ Qabs t <= 1 -> Qabs (/ t) <= 1.
Proof.
  intros H. rewrite Qabs_Qinv. apply Qle_shift_inv_r; lra.
Qed.

Lemma pi_half_gt_1 : 1 < np_pi / 2.
Proof. reflexivity. Qed.

Lemma pi_half_eq : np_pi / 2 == np_pi * (1 # 2).
Proof. reflexivity. Qed.

Lemma pade_le_1 t : Qabs t <= 1 -> -1 <= pade t <= 1.
Proof.
  intros H. apply (proj1 (Qabs_Qle_condition (pade t) 1)).
  eapply Qle_trans; [apply pade_abs|exact H].
Qed.

Lemma q_atan_nonneg t : 0 <= t -> 0 <= q_atan t.
Proof.
  intros H. unfold q_atan. destruct (Qle_bool_spec (Qabs t) 1) as [Ht|Ht].
  - now apply pade_nonneg.
  - destruct (Qltb_spec 0 t); [|rewrite Qabs_pos in Ht by lra; lra].
    pose proof (pade_le_1 (/ t) (inv_abs_le_1 t ltac:(lra))). pose proof pi_half_gt_1. lra.
Qed.

Lemma q_atan_lower t : - np_pi <= q_atan t.
Proof.
  unfold q_atan. pose proof pi_half_gt_1. rewrite pi_half_eq in *.
  destruct (Qle_bool_spec (Qabs t) 1) as [Ht|Ht].
  - pose proof (pade_le_1 t Ht). lra.
  - pose proof (pade_le_1 (/ t) (inv_abs_le_1 t ltac:(lra))).
    destruct (Qltb_spec 0 t); rewrite pi_half_eq; lra.
Qed.

Lemma q_atan_zero t : t == 0 -> q_atan t == 0.
Proof.
  intros Ht. unfold q_atan. destruct (Qle_bool_spec (Qabs t) 1) as [H|H].
  - unfold pade. rewrite Ht. reflexivity.
  - rewrite Ht in H. simpl in H. lra.
Qed.

Lemma qround_zero : qround 0 == 0.
Proof. reflexivity. Qed.

Lemma lib_laws : MathLibLaws lib.
Proof.
  split; simpl.
  - intros x y H. unfold q_sin. now rewrite (qround_comp x y H).
  - intros x y H. unfold q_cos. now rewrite (qround_comp x y H).
  - intros x y H. unfold q_sqrt. now rewrite (qround_comp x y H).
  - intros y y' Hy x x' Hx. unfold q_arctan2.
    now rewrite (qround_comp y y' Hy), (qround_comp x x' Hx).
  - reflexivity.
  - reflexivity.
  - vm_compute. reflexivity.
  - intros x _. unfold q_sqrt. cbv zeta.
    destruct (Qle_bool_spec (qround x) 0) as [H|H]; [apply Qle_refl|].
    apply newton_nonneg; [lra|]. apply div_nonneg; [|discriminate].
    change 0 with (inject_Z 0). rewrite <- Zle_Qle. apply Z.sqrt_nonneg.
  - intros x Hx. unfold q_arctan2. cbv zeta.
    pose proof (qround_nonneg x (Qlt_le_weak _ _ Hx)) as Hq.
    destruct (Qltb_spec 0 (qround x)).
    + rewrite (qround_comp _ 0); [reflexivity|].
      apply q_atan_zero. rewrite qround_zero. unfold Qdiv. ring.
    + destruct (Qltb_spec (qround x) 0); [lra|].
      destruct (Qltb_spec 0 (qround 0)); [discriminate|].
      destruct (Qltb_spec (qround 0) 0); [discriminate|]. reflexivity.
  - intros y x Hy. unfold q_arctan2. cbv zeta. apply qround_nonneg.
    pose proof (qround_nonneg y Hy) as Hq. pose proof pi_half_gt_1.
    destruct (Qltb_spec 0 (qround x)).
    + apply q_atan_nonneg, div_nonneg; lra.
    + destruct (Qltb_spec (qround x) 0).
      * destruct (Qle_bool_spec 0 (qround y)); [|lra].
        pose proof (q_atan_lower (qround y / qround x)). lra.
      * destruct (Qltb_spec 0 (qround y)); [lra|].
        destruct (Qltb_spec (qround y) 0); lra.
Qed.

#[export] Existing Instance lib_laws.

End QLib.
