(* ===== verification/Dataset.v ===== *)
(** * The dataset side of [extract_depth_profile]

    Lines 43-62 of [src/profile_module.py]: the search for the depth
    variable ([depth] or [elevation] in the lower-cased name, else the
    first variable, an IndexError when there is none), the search for the
    latitude and longitude coordinates ([lat] / [lon] in the lower-cased
    name, an IndexError when there is none) and the per-sample lookup
    [ds[depth_var].sel({..}, method='nearest').values], whose exceptions
    become NaN.

    A dataset is the list of its data variables; a variable carries its
    name, the names of its coordinates and its [sel] function, which
    xarray implements: the model takes it as given ([SelValue (Some v)],
    [SelValue None] for a NaN cell, [SelError] for an exception).
    [grid_var] builds such a variable from a latitude axis, a longitude
    axis and a table of cells with a nearest-neighbour [sel], so that the
    extractor can be run on concrete rasters. *)

From Stdlib Require Import ZArith QArith Qabs Lqa List Lia Setoid Morphisms Bool String Ascii.
From S2P Require Import Prelude.
Import ListNotations.
Open Scope Q_scope.
Open Scope beach_scope.

Module Dataset.

(** ** Python string operations *)

(** [str.lower] on ASCII letters. *)
Definition lower_ascii (c : ascii) : ascii :=
  if Ascii.leb "A" c && Ascii.leb c "Z" then ascii_of_nat (nat_of_ascii c + 32) else c.

Fixpoint lower (s : string) : string :=
  match s with
  | EmptyString => EmptyString
  | String c s' => String (lower_ascii c) (lower s')
  end.

(** [needle in hay]. *)
Fixpoint contains (needle hay : string) : bool :=
  String.prefix needle hay ||
  match hay with
  | EmptyString => false
  | String _ hay' => contains needle hay'
  end.

(** ** Datasets *)

Inductive SelResult :=
| SelValue (v : option Q)     (** [float(...values)], [None] for NaN *)
| SelError.                   (** any exception of [sel] or [float] *)

Record DataVar := {
  dv_name : string;
  dv_coords : list string;
  dv_sel : string -> string -> Q -> Q -> SelResult
}.

Record Dataset := { data_vars : list DataVar }.

(** Line 46. *)
Definition is_depth_name (var : string) : bool :=
  contains "depth" (lower var) || contains "elevation" (lower var).

(** Lines 44-50: the first variable whose name matches, else
    [list(ds.data_vars)[0]] ([None]: the IndexError of an empty list). *)
Definition select_depth_var (ds : Dataset) : option DataVar :=
  match find (fun v => is_depth_name (dv_name v)) (data_vars ds) with
  | Some v => Some v
  | None => hd_error (data_vars ds)
  end.

(** Lines 53-54: [[c for c in coords if key in c.lower()][0]]. *)
Definition select_coord (key : string) (coords : list string) : option string :=
  hd_error (filter (fun c => contains key (lower c)) coords).

(** Lines 44-54 together: the variable and its two axis names, or the
    exception that sends [extract_depth_profile] to its [except] branch. *)
Definition select_axes (ds : Dataset) : option (DataVar * string * string) :=
  match select_depth_var ds with
  | None => None
  | Some v =>
      match select_coord "lat" (dv_coords v), select_coord "lon" (dv_coords v) with
      | Some lat_c, Some lon_c => Some (v, lat_c, lon_c)
      | _, _ => None
      end
  end.

(** Lines 58-62: one lookup; an exception appends NaN. *)
Definition lookup_depth (v : DataVar) (lat_c lon_c : string) (la lo : Q) : option Q :=
  match dv_sel v lat_c lon_c la lo with
  | SelValue o => o
  | SelError => None
  end.

(** A variable whose [sel] depends on the value of its coordinates only
    (xarray compares coordinate values, not their representation). *)
Definition sel_respects (v : DataVar) : Prop :=
  forall c1 c2, Proper (Qeq ==> Qeq ==> eq) (dv_sel v c1 c2).

(** ** A gridded variable with nearest-neighbour selection *)

(** The index of the axis label nearest to [x]; ties go to the later
    label, which is what pandas' nearest indexer picks on an increasing
    axis.  [None] on an empty axis (xarray raises). *)
Fixpoint nearest_from (x : Q) (axis : list Q) (i best : nat) (bestd : Q) : nat :=
  match axis with
  | [] => best
  | a :: rest =>
      if Qle_bool (Qabs (a - x)) bestd then nearest_from x rest (S i) i (Qabs (a - x))
      else nearest_from x rest (S i) best bestd
  end.

Definition nearest (x : Q) (axis : list Q) : option nat :=
  match axis with
  | [] => None
  | a :: rest => Some (nearest_from x rest 1 0 (Qabs (a - x)))
  end.

Definition grid_var (name lat_name lon_name : string) (lats lons : list Q)
    (cells : list (list (option Q))) : DataVar :=
  {| dv_name := name;
     dv_coords := [lat_name; lon_name];
     dv_sel := fun c1 c2 la lo =>
       if String.eqb c1 lat_name && String.eqb c2 lon_name then
         match nearest la lats, nearest lo lons with
         | Some i, Some j => SelValue (nth j (nth i cells []) None)
         | _, _ => SelError
         end
       else SelError |}.

(** A 2 x 2 raster of positive depths around the default section of the
    code (41.175354 N, 29.626743 E), with one NaN cell. *)
Definition demo_var : DataVar :=
  grid_var "Elevation relative to sea level" "lat" "lon"
    [41.174; 41.176] [29.626; 29.628] [[Some 12; Some 10]; [Some 8; None]].

Definition demo_ds : Dataset := {| data_vars := [demo_var] |}.

(** The same raster without the NaN cell. *)
Definition demo_lat_name : string := "latitude".
Definition demo_lon_name : string := "longitude".

Definition demo_full_var : DataVar :=
  grid_var "depth" demo_lat_name demo_lon_name
    [41.174; 41.176] [29.626; 29.628] [[Some 12; Some 10]; [Some 8; Some 9]].

Definition demo_full_ds : Dataset := {| data_vars := [demo_full_var] |}.

(** A raster whose axes are called [y] and [x]: the axis search fails. *)
Definition demo_noaxes_ds : Dataset :=
  {| data_vars := [grid_var "depth" "y" "x" [41.174] [29.626] [[Some 12]]] |}.

(** A raster of which only one cell could be read (a depth of 3 m in
    the code's positive-down convention). *)
Definition demo_sparse_var : DataVar :=
  grid_var "depth" demo_lat_name demo_lon_name
    [41.174; 41.176] [29.626; 29.628] [[Some 3; None]; [None; None]].

Definition demo_sparse_ds : Dataset := {| data_vars := [demo_sparse_var] |}.

(** ** Lemmas *)

Lemma prefix_iff (n h : string) :
  String.prefix n h = true <-> exists post, h = String.append n post.
Proof.
  revert h; induction n as [|a n IH]; intros h; [split; [now exists h|now destruct h]|].
  destruct h as [|b h]; cbn.
  - split; [discriminate|intros [post E]; discriminate].
  - destruct (Ascii.ascii_dec a b) as [<-|Hab].
    + rewrite IH. split; intros [post E]; exists post; [now rewrite E|now injection E].
    + split; [discriminate|intros [post E]; injection E; congruence].
Qed.

(** [contains needle hay] is Python's [needle in hay]: it holds exactly
    when [needle] occurs in [hay] as a contiguous substring. *)
Lemma contains_spec needle hay :
  contains needle hay = true <->
  exists pre post, hay = String.append pre (String.append needle post).
Proof.
  induction hay as [|c hay IH]; cbn [contains]; rewrite orb_true_iff, prefix_iff.
  - split.
    + intros [[post E]|H]; [exists EmptyString, post; exact E|discriminate].
    + intros [[|? ?] [post E]]; [left; now exists post|discriminate].
  - rewrite IH. split.
    + intros [[post E]|[pre [post E]]].
      * now exists EmptyString, post.
      * exists (String c pre), post. now rewrite E.
    + intros [[|c' pre] [post E]]; [left; now exists post|].
      injection E as -> E. right. now exists pre, post.
Qed.

Lemma lower_append a b : lower (String.append a b) = String.append (lower a) (lower b).
Proof. induction a as [|c a IH]; cbn; [reflexivity|now rewrite IH]. Qed.

Lemma contains_infix needle pre post :
  contains needle (String.append pre (String.append needle post)) = true.
Proof. apply contains_spec. eauto. Qed.

(** A name that carries [needle] in lower case, whatever the case of the
    rest of it, passes the test [needle in name.lower()]. *)
Lemma contains_lower needle word pre post :
  lower word = needle -> contains needle (lower (String.append pre (String.append word post))) = true.
Proof. intros H. rewrite !lower_append, H. apply contains_infix. Qed.

(** C33: The name searches ignore case and skip variables that do not
    match: behind a grid-mapping variable ["crs"], a variable whose name
    contains ["Depth"] or ["ELEVATION"] is chosen, with its axes
    ["LATITUDE"] and ["Longitude"] in that order. *)
Theorem select_axes_case_insensitive pre post cs sel sel' rest :
  let crs := {| dv_name := "crs"%string; dv_coords := cs; dv_sel := sel' |} in
  let var word := {| dv_name := String.append pre (String.append word post);
                     dv_coords := ["LATITUDE"%string; "Longitude"%string]; dv_sel := sel |} in
  select_axes {| data_vars := crs :: var "Depth"%string :: rest |}
    = Some (var "Depth"%string, "LATITUDE"%string, "Longitude"%string) /\
  select_axes {| data_vars := crs :: var "ELEVATION"%string :: rest |}
    = Some (var "ELEVATION"%string, "LATITUDE"%string, "Longitude"%string).
Proof.
  intros crs var. subst crs var. unfold select_axes, select_depth_var, is_depth_name.
  cbn [data_vars find dv_name].
  rewrite (contains_lower "depth"%string "Depth"%string) by reflexivity.
  rewrite (contains_lower "elevation"%string "ELEVATION"%string) by reflexivity.
  rewrite orb_true_r. split; reflexivity.
Qed.

Lemma nearest_from_proper x x' axis i best d d' :
  x == x' -> d == d' -> nearest_from x axis i best d = nearest_from x' axis i best d'.
Proof.
  revert i best d d'; induction axis as [|a axis IH]; intros i best d d' Hx Hd; [reflexivity|].
  cbn [nearest_from]. assert (E : Qabs (a - x) == Qabs (a - x')) by now rewrite Hx.
  rewrite (Qleb_comp _ _ E _ _ Hd).
  destruct (Qle_bool (Qabs (a - x')) d'); apply IH; auto.
Qed.

Lemma nearest_proper x x' axis : x == x' -> nearest x axis = nearest x' axis.
Proof.
  intros H. destruct axis as [|a axis]; [reflexivity|]. cbn [nearest]. f_equal.
  apply nearest_from_proper; [exact H|]. now rewrite H.
Qed.

Lemma grid_var_respects name lat_name lon_name lats lons cells :
  sel_respects (grid_var name lat_name lon_name lats lons cells).
Proof.
  intros c1 c2 la la' Hla lo lo' Hlo. simpl.
  now rewrite (nearest_proper la la' lats Hla), (nearest_proper lo lo' lons Hlo).
Qed.

End Dataset.
