(* ===== verification/Loader.v ===== *)
(** * [load_bathymetry] and its process-wide cache

    [src/profile_module.py], lines 9-24: the raster file
    ["Mean depth in multi colour (no land).nc"] is looked up in the
    working directory, else next to the module; it is opened with the
    [netcdf4] engine, else (on any exception) with the [scipy] engine;
    any other exception gives [None].  The function is decorated with
    [@st.cache_data]: it has no arguments, so the first value it returns
    (a dataset or [None]) is kept for the lifetime of the process
    ([cached_load]; the consequence for the application is in [App]).

    The operating system is a record of operations [FileSystem] (the
    working directory, the module's directory, [os.path.exists] and
    [xr.open_dataset], whose exceptions are [None]); the cache is an
    [option] of the returned value. *)

From Stdlib Require Import List String Bool.
Open Scope bool_scope.
From S2P Require Import Prelude Dataset.
Import ListNotations.
Import Dataset.

Module Loader.

(** ** The operating system *)

Inductive Engine := Netcdf4 | Scipy.

Record FileSystem := mkFS {
  fs_cwd : string;                               (** [os.getcwd()] *)
  fs_module_dir : string;                        (** [os.path.dirname(os.path.abspath(__file__))] *)
  fs_exists : string -> bool;                    (** [os.path.exists] on an absolute path *)
  fs_open : string -> Engine -> option Dataset   (** [xr.open_dataset]; [None] is an exception *)
}.

(** Line 13. *)
Definition file_name : string := "Mean depth in multi colour (no land).nc".

(** [os.path.join(dir, name)] for a relative [name]. *)
Definition join (dir name : string) : string := dir ++ "/" ++ name.

(** Lines 14-17: [os.path.exists(file_name)] is relative to the working
    directory, and so is [os.path.abspath(file_name)]. *)
Definition data_path (fs : FileSystem) : string :=
  if fs_exists fs (join (fs_cwd fs) file_name) then join (fs_cwd fs) file_name
  else join (fs_module_dir fs) file_name.

(** Lines 19-22: the [netcdf4] engine, then the [scipy] engine; an
    exception of the second call reaches the outer [except] (line 23). *)
Definition load_bathymetry (fs : FileSystem) : option Dataset :=
  match fs_open fs (data_path fs) Netcdf4 with
  | Some d => Some d
  | None => fs_open fs (data_path fs) Scipy
  end.

(** ** [@st.cache_data] *)

(** The cache of a function without arguments: empty, or the value its
    first call returned. *)
Definition Cache := option (option Dataset).

Definition cached_load (fs : FileSystem) (c : Cache) : option Dataset * Cache :=
  match c with
  | Some v => (v, c)
  | None => let v := load_bathymetry fs in (v, Some v)
  end.

(** ** Example file systems

    A process started in [/srv/app] with the module in [/srv/app/src]:
    without the raster, with the raster next to the module, and with a
    copy in the working directory that neither engine can read. *)
Definition demo_fs_missing : FileSystem :=
  mkFS "/srv/app" "/srv/app/src" (fun _ => false) (fun _ _ => None).

Definition demo_fs_present : FileSystem :=
  mkFS "/srv/app" "/srv/app/src" (fun p => String.eqb p (join "/srv/app/src" file_name))
    (fun p e => if String.eqb p (join "/srv/app/src" file_name) then Some demo_ds else None).

Definition demo_fs_broken_cwd : FileSystem :=
  mkFS "/srv/app" "/srv/app/src"
    (fun p => String.eqb p (join "/srv/app" file_name) || String.eqb p (join "/srv/app/src" file_name))
    (fun p e => if String.eqb p (join "/srv/app/src" file_name) then Some demo_ds else None).

(** ** Lemmas *)

Lemma cached_load_cache fs c : snd (cached_load fs c) = Some (fst (cached_load fs c)).
Proof. destruct c; reflexivity. Qed.

(** The loader returns [None] exactly when both engines fail on the
    path it chose. *)
Lemma load_bathymetry_None fs :
  load_bathymetry fs = None <->
  fs_open fs (data_path fs) Netcdf4 = None /\ fs_open fs (data_path fs) Scipy = None.
Proof.
  unfold load_bathymetry. destruct (fs_open fs (data_path fs) Netcdf4); split;
    intuition congruence.
Qed.

(** C35: A copy of the file in the working directory shadows the copy next
    to the module: when it exists but cannot be read, the loader returns
    [None] even if the module's copy is readable. *)
Theorem cwd_copy_shadows fs :
  fs_exists fs (join (fs_cwd fs) file_name) = true ->
  fs_open fs (join (fs_cwd fs) file_name) Netcdf4 = None ->
  fs_open fs (join (fs_cwd fs) file_name) Scipy = None ->
  load_bathymetry fs = None.
Proof. intros He H1 H2. unfold load_bathymetry, data_path. now rewrite He, H1, H2. Qed.

(** ** Witnesses *)

Lemma cwd_copy_shadows_witness :
  load_bathymetry demo_fs_broken_cwd = None /\
  fs_open demo_fs_broken_cwd (join "/srv/app/src" file_name) Netcdf4 = Some demo_ds.
Proof. split; [apply cwd_copy_shadows; reflexivity|reflexivity]. Defined.

End Loader.
