(* ===== verification/Profile.v ===== *)
(** * [extract_depth_profile] (src/profile_module.py, lines 26-78)

    The extractor returns [None] for the [(None, None)] of an unavailable
    dataset, and otherwise [Some (distances, depths)]: the samples of the
    line by [linspace], their haversine distances from [point1], and the
    depths from the body of the [try] ([depths_along]) or, when that body
    raises, the zeros of the [except] branch.  Inside the body, the raw
    lookups ([option Q], [None] for NaN) go through [fill_missing] (lines
    66-71) and [sign_convention] (lines 73-74); [valid_with_index] is the pair of
    arrays [np.arange(len(depths))[valid_idx]] and [depths[valid_idx]]
    of line 69, read in one pass. *)

From Stdlib Require Import ZArith QArith Qabs Lqa List Lia Setoid Morphisms Bool Sorted.
From Stdlib Require String.
From S2P Require Import Prelude NumPy Haversine Dataset.
Import ListNotations.
Open Scope Q_scope.
Open Scope beach_scope.

Module Profile.
Import NumPy Dataset.

(** [render_profile_section] calls the extractor with the default. *)
Definition default_num_points : nat := 50.

(** ** Gap filling, lines 64-71 *)

Definition is_nan (o : option Q) : bool :=
  match o with None => true | Some _ => false end.

(** [np.arange(len(depths))[valid_idx]] paired with [depths[valid_idx]]. *)
Fixpoint valid_with_index (i : nat) (raw : list (option Q)) : list (nat * Q) :=
  match raw with
  | [] => []
  | None :: raw' => valid_with_index (S i) raw'
  | Some v :: raw' => (i, v) :: valid_with_index (S i) raw'
  end.

(** [np.nan_to_num(depths, nan=fill)]. *)
Definition nan_to_num (fill : Q) (raw : list (option Q)) : list Q :=
  map (fun o => match o with Some v => v | None => fill end) raw.

(** Lines 66-71: [None] is an exception of [np.interp] (it cannot occur,
    see [fill_missing_total]). *)
Definition fill_missing (raw : list (option Q)) : option (list Q) :=
  if existsb is_nan raw then
    let vw := valid_with_index 0 raw in
    if Nat.ltb 1 (length vw) then
      let xp := map (fun p => Qnat (fst p)) vw in
      let fp := map snd vw in
      map_option (fun i => np_interp (Qnat i) xp fp) (seq 0 (length raw))
    else Some (nan_to_num (-5) raw)
  else Some (nan_to_num 0 raw).

(** ** Sign convention, lines 73-74 *)

Definition sign_convention (depths : list Q) : list Q :=
  match nanmean depths with
  | Some m => if Qltb 0 m then map Qopp depths else depths
  | None => depths
  end.

(** ** The extractor *)

(** Lines 56-62: one lookup per sample, in the order of [zip(lats, lons)]. *)
Definition raw_depths (v : DataVar) (lat_c lon_c : String.string) (lats lons : list Q)
  : list (option Q) :=
  map (fun '(la, lo) => lookup_depth v lat_c lon_c la lo) (combine lats lons).

(** Lines 44-76: the body of the [try]; [None] is an exception. *)
Definition depths_along (ds : Dataset) (lats lons : list Q) : option (list Q) :=
  match select_axes ds with
  | None => None
  | Some (v, lat_c, lon_c) =>
      match fill_missing (raw_depths v lat_c lon_c lats lons) with
      | None => None
      | Some d => Some (sign_convention d)
      end
  end.

(** [valid_idx.sum()]. *)
Definition valid_count (raw : list (option Q)) : nat := length (valid_with_index 0 raw).

(** Lines 26-78: [None] for the [(None, None)] of a missing dataset,
    otherwise the distances and the depths of the [try] body or the zeros
    of the [except] branch. *)
Definition extract_depth_profile {L : MathLib} (ds : option Dataset) (point1 point2 : GeoPoint)
    (num_points : nat) : option (list Q * list Q) :=
  match ds with
  | None => None
  | Some ds =>
      let lats := linspace (lat point1) (lat point2) num_points in
      let lons := linspace (lon point1) (lon point2) num_points in
      let distances := profile_distances point1 lats lons in
      match depths_along ds lats lons with
      | Some depths => Some (distances, depths)
      | None => Some (distances, repeat 0 (length distances))
      end
  end.

(** ** Concrete runs *)

Module Demo.

Definition demo_p1 : GeoPoint := {| lat := 41.175354; lon := 29.626743 |}.
Definition demo_p2 : GeoPoint := {| lat := 41.175; lon := 29.627 |}.

(** Two points on the equator on both sides of the antimeridian. *)
Definition dateline_p1 : GeoPoint := {| lat := 0; lon := -179 |}.
Definition dateline_p2 : GeoPoint := {| lat := 0; lon := 179 |}.

(** The two corners of the example rasters of [Dataset]. *)
Definition corner_p1 : GeoPoint := {| lat := 41.174; lon := 29.626 |}.
Definition corner_p2 : GeoPoint := {| lat := 41.176; lon := 29.628 |}.

End Demo.

(** ** Bookkeeping of the valid samples *)

Lemma valid_with_index_app i l1 l2 :
  valid_with_index i (l1 ++ l2)
  = valid_with_index i l1 ++ valid_with_index (i + length l1) l2.
Proof.
  revert i; induction l1 as [|[v|] l1 IH]; intros i; simpl.
  - now rewrite Nat.add_0_r.
  - rewrite IH. now rewrite Nat.add_succ_r.
  - rewrite IH. now rewrite Nat.add_succ_r.
Qed.

Lemma valid_with_index_In i raw j v :
  In (j, v) (valid_with_index i raw) ->
  (i <= j < i + length raw)%nat /\ nth (j - i) raw None = Some v.
Proof.
  revert i; induction raw as [|[w|] raw IH]; intros i H; simpl in *; [contradiction| |].
  - destruct H as [H|H].
    + inversion H; subst. rewrite Nat.sub_diag. split; [lia|reflexivity].
    + apply IH in H as [H1 H2]. split; [lia|].
      replace (j - i)%nat with (S (j - S i)) by lia. exact H2.
  - apply IH in H as [H1 H2]. split; [lia|].
    replace (j - i)%nat with (S (j - S i)) by lia. exact H2.
Qed.

Lemma valid_with_index_complete i raw k v :
  nth k raw None = Some v -> In (i + k, v)%nat (valid_with_index i raw).
Proof.
  revert i k; induction raw as [|[w|] raw IH]; intros i [|k] H; simpl in *;
    try discriminate.
  - inversion H; subst. left. f_equal. lia.
  - right. replace (i + S k)%nat with (S i + k)%nat by lia. now apply IH.
  - replace (i + S k)%nat with (S i + k)%nat by lia. now apply IH.
Qed.



Lemma valid_with_index_repeat_None i n : valid_with_index i (repeat None n) = [].
Proof. revert i; induction n as [|n IH]; intros i; [reflexivity|apply IH]. Qed.

Lemma valid_with_index_sorted i raw :
  StronglySorted Qlt (map (fun p => Qnat (fst p)) (valid_with_index i raw)).
Proof.
  revert i; induction raw as [|[w|] raw IH]; intros i; simpl; [constructor| |auto].
  constructor; [apply IH|]. apply Forall_forall. intros q Hq.
  apply in_map_iff in Hq as [[j u] [<- Hin]].
  apply valid_with_index_In in Hin as [Hj _]. apply Qnat_lt. simpl. lia.
Qed.

Lemma valid_with_index_none i raw :
  existsb is_nan raw = false -> length (valid_with_index i raw) = length raw.
Proof.
  revert i; induction raw as [|[w|] raw IH]; intros i H; simpl in *; try discriminate;
    [reflexivity|]. now rewrite IH.
Qed.

Lemma nth_nan_to_num fill raw k v :
  nth k raw None = Some v -> nth k (nan_to_num fill raw) 0 = v.
Proof.
  revert k; induction raw as [|o raw IH]; intros [|k] H; simpl in *; try discriminate.
  - now subst.
  - now apply IH.
Qed.

(** The interpolation branch never meets numpy's ValueError. *)
Lemma fill_interp_Some (raw : list (option Q)) :
  let vw := valid_with_index 0 raw in
  (1 < length vw)%nat ->
  exists d, map_option (fun i => np_interp (Qnat i) (map (fun p => Qnat (fst p)) vw)
                                             (map snd vw)) (seq 0 (length raw)) = Some d
       /\ length d = length raw
       /\ forall k, (k < length raw)%nat ->
            np_interp (Qnat k) (map (fun p => Qnat (fst p)) vw) (map snd vw) = Some (nth k d 0).
Proof.
  intros vw Hlen.
  destruct (map_option_Some (fun i => np_interp (Qnat i) (map (fun p => Qnat (fst p)) vw)
                                                (map snd vw)) (seq 0 (length raw)))
    as [d [E1 [E2 E3]]].
  - intros x _ HN.
    destruct (np_interp_Some (Qnat x) (map (fun p => Qnat (fst p)) vw) (map snd vw))
      as [y Hy].
    + destruct vw; [simpl in Hlen; lia | discriminate].
    + now rewrite !length_map.
    + congruence.
  - exists d. rewrite length_seq in E2. split; [exact E1|]. split; [exact E2|].
    intros k Hk. specialize (E3 k 0%nat 0 ltac:(now rewrite length_seq)).
    now rewrite seq_nth in E3 by exact Hk.
Qed.


Lemma fill_missing_length raw d : fill_missing raw = Some d -> length d = length raw.
Proof.
  unfold fill_missing. intros H. destruct (existsb is_nan raw);
    [|injection H as <-; apply length_map].
  destruct (Nat.ltb_spec 1 (length (valid_with_index 0 raw))) as [Hl|Hl];
    [|injection H as <-; apply length_map].
  destruct (fill_interp_Some raw Hl) as [d' [E1 [E2 _]]]. congruence.
Qed.

(** C25: Gap filling always returns an array of the input's length: the
    [np.interp] call never raises. *)
Theorem fill_missing_total raw :
  exists d, fill_missing raw = Some d /\ length d = length raw.
Proof.
  unfold fill_missing. destruct (existsb is_nan raw).
  - destruct (Nat.ltb_spec 1 (length (valid_with_index 0 raw))) as [H|H].
    + destruct (fill_interp_Some raw H) as [d [E1 [E2 _]]]. eauto.
    + eexists; split; [reflexivity|]. apply length_map.
  - eexists; split; [reflexivity|]. apply length_map.
Qed.

(** C6: A valid sample is returned unchanged. *)
Theorem fill_missing_keeps_valid raw d k v :
  fill_missing raw = Some d -> nth k raw None = Some v -> nth k d 0 = v.
Proof.
  intros Hf Hk. unfold fill_missing in Hf.
  destruct (existsb is_nan raw);
    [|injection Hf as <-; now apply nth_nan_to_num].
  destruct (Nat.ltb_spec 1 (length (valid_with_index 0 raw))) as [H|H];
    [|injection Hf as <-; now apply nth_nan_to_num].
  destruct (fill_interp_Some raw H) as [d' [E1 [_ E3]]].
  rewrite E1 in Hf. injection Hf as <-.
  assert (Hlt : (k < length raw)%nat).
  { destruct (Nat.lt_ge_cases k (length raw)); auto.
    rewrite nth_overflow in Hk by lia. discriminate. }
  pose proof (valid_with_index_complete 0 raw k v Hk) as Hin. simpl in Hin.
  apply (In_nth _ _ (0%nat, 0)) in Hin as [j [Hj Hjth]].
  specialize (E3 k Hlt).
  assert (Hx : nth j (map (fun p => Qnat (fst p)) (valid_with_index 0 raw)) 0 = Qnat k).
  { now rewrite (nth_map_lt _ _ (0%nat, 0)), Hjth. }
  rewrite np_interp_node with (k := j) in E3.
  - injection E3 as <-. now rewrite (nth_map_lt _ _ (0%nat, 0)), Hjth.
  - apply valid_with_index_sorted.
  - now rewrite !length_map.
  - now rewrite length_map.
  - rewrite Hx. reflexivity.
Qed.

(** Inside a gap of [g] samples between two valid ones, sample [j] of
    the gap gets the linear interpolation by index. *)
Lemma fill_gap_interp l1 l2 a b g d j :
  fill_missing (l1 ++ Some a :: repeat None g ++ Some b :: l2) = Some d ->
  (0 < j <= g)%nat ->
  nth (length l1 + j) d 0 == a + (b - a) * Qnat j / Qnat (S g).
Proof.
  set (raw := l1 ++ Some a :: repeat None g ++ Some b :: l2). intros Hf Hj.
  set (n := length l1).
  assert (Hvw : valid_with_index 0 raw
                = valid_with_index 0 l1
                  ++ (n, a) :: (S (n + g), b) :: valid_with_index (S (S (n + g))) l2).
  { unfold raw. rewrite valid_with_index_app. cbn [valid_with_index Nat.add].
    rewrite valid_with_index_app, valid_with_index_repeat_None, repeat_length. cbn.
    now replace (S (n + g)) with (S n + g)%nat by lia. }
  assert (Hnan : existsb is_nan raw = true).
  { apply existsb_exists. exists None. split; [|reflexivity].
    unfold raw. apply in_or_app. right. right. apply in_or_app. left.
    destruct g; [lia|left; reflexivity]. }
  assert (H2 : (1 < length (valid_with_index 0 raw))%nat).
  { rewrite Hvw, length_app. simpl. lia. }
  unfold fill_missing in Hf. rewrite Hnan in Hf.
  destruct (Nat.ltb_spec 1 (length (valid_with_index 0 raw))) as [_|]; [|lia].
  destruct (fill_interp_Some raw H2) as [d' [E1 [_ E3]]].
  rewrite E1 in Hf. injection Hf as <-.
  assert (Hk : (n + j < length raw)%nat)
    by (unfold raw, n; rewrite !length_app; simpl; rewrite length_app, repeat_length; simpl; lia).
  specialize (E3 (n + j)%nat Hk). rewrite Hvw in E3.
  set (k := length (valid_with_index 0 l1)).
  pose proof (Qnat_pos (S g) ltac:(lia)) as Hg.
  assert (Hx0 : nth k (map (fun p => Qnat (fst p)) (valid_with_index 0 l1
                  ++ (n, a) :: (S (n + g), b) :: valid_with_index (S (S (n + g))) l2)) 0 = Qnat n).
  { rewrite map_app, app_nth2; rewrite length_map; [|lia]. unfold k. now rewrite Nat.sub_diag. }
  assert (Hx1 : nth (S k) (map (fun p => Qnat (fst p)) (valid_with_index 0 l1
                  ++ (n, a) :: (S (n + g), b) :: valid_with_index (S (S (n + g))) l2)) 0
                = Qnat (S (n + g))).
  { rewrite map_app, app_nth2; rewrite length_map; [|lia].
    unfold k. now rewrite Nat.sub_succ_l, Nat.sub_diag by lia. }
  assert (Hf0 : nth k (map snd (valid_with_index 0 l1
                  ++ (n, a) :: (S (n + g), b) :: valid_with_index (S (S (n + g))) l2)) 0 = a).
  { rewrite map_app, app_nth2; rewrite length_map; [|lia]. unfold k. now rewrite Nat.sub_diag. }
  assert (Hf1 : nth (S k) (map snd (valid_with_index 0 l1
                  ++ (n, a) :: (S (n + g), b) :: valid_with_index (S (S (n + g))) l2)) 0 = b).
  { rewrite map_app, app_nth2; rewrite length_map; [|lia].
    unfold k. now rewrite Nat.sub_succ_l, Nat.sub_diag by lia. }
  rewrite (np_interp_between _ _ _ k) in E3.
  - injection E3 as <-. rewrite Hx0, Hx1, Hf0, Hf1, Qnat_add, Qnat_S, Qnat_add, Qnat_S. field.
    rewrite Qnat_S in Hg. lra.
  - rewrite <- Hvw. apply valid_with_index_sorted.
  - now rewrite !length_map.
  - rewrite length_map, length_app. simpl. lia.
  - rewrite Hx0. apply Qnat_lt. lia.
  - rewrite Hx1. apply Qnat_lt. lia.
Qed.


(** C34: A gap of any length between two valid samples is filled by the
    straight line through them: sample [j] of a gap of [g] samples gets
    [a + (b - a) * j / (g + 1)]. *)
Theorem fill_missing_gap l1 l2 a b g d :
  fill_missing (l1 ++ Some a :: repeat None g ++ Some b :: l2) = Some d ->
  forall j, (0 < j <= g)%nat -> nth (length l1 + j) d 0 == a + (b - a) * Qnat j / Qnat (S g).
Proof. intros Hf j Hj. exact (fill_gap_interp l1 l2 a b g d j Hf Hj). Qed.

(** C26: With fewer than two valid samples every NaN becomes -5.0. *)
Theorem fill_missing_fallback raw d k :
  (valid_count raw <= 1)%nat -> fill_missing raw = Some d ->
  (k < length raw)%nat -> nth k raw None = None -> nth k d 0 = -5.
Proof.
  intros Hc Hf Hk Hn. unfold fill_missing, valid_count in *.
  destruct (existsb is_nan raw) eqn:En.
  - destruct (Nat.ltb_spec 1 (length (valid_with_index 0 raw))); [lia|].
    injection Hf as <-. unfold nan_to_num. now rewrite (nth_map_lt _ _ None), Hn.
  - pose proof (existsb_nth is_nan raw None Hk En) as He. rewrite Hn in He. discriminate.
Qed.

(** The valid samples of a profile with gaps at both ends. *)
Lemma valid_with_index_edges m1 m2 a b mid :
  valid_with_index 0 ((repeat None m1 ++ Some a :: mid) ++ Some b :: repeat None m2)
  = ((m1, a) :: valid_with_index (S m1) mid) ++ [(m1 + S (length mid), b)]%nat.
Proof.
  rewrite !valid_with_index_app, valid_with_index_repeat_None. cbn.
  rewrite valid_with_index_repeat_None, length_app, repeat_length. reflexivity.
Qed.

(** C18: Gaps at the ends of the line are not interpolated but extended
    ([np.interp] clamps to [fp[0]] and [fp[-1]]): a missing sample before
    the first valid one takes the first valid value, and one after the
    last valid one takes the last valid value. *)
Theorem fill_missing_edges m1 m2 a b mid d :
  fill_missing ((repeat None m1 ++ Some a :: mid) ++ Some b :: repeat None m2) = Some d ->
  (forall k, (k < m1)%nat -> nth k d 0 = a) /\
  (forall k, (k < m2)%nat -> nth (m1 + S (length mid) + S k) d 0 = b).
Proof.
  set (raw := (repeat None m1 ++ Some a :: mid) ++ Some b :: repeat None m2). intros Hf.
  assert (Hlen : length raw = (m1 + S (length mid) + S m2)%nat)
    by (unfold raw; rewrite !length_app; simpl; rewrite !repeat_length; lia).
  assert (Hgap : forall k, (k < m1 \/ m1 + S (length mid) < k < length raw)%nat ->
                 nth k raw None = None).
  { intros k Hk. unfold raw. destruct Hk as [Hk|Hk].
    - rewrite <- app_assoc, app_nth1 by (rewrite repeat_length; lia). apply nth_repeat.
    - replace (Some b :: repeat None m2) with ([Some b] ++ repeat None m2) by reflexivity.
      rewrite app_assoc, app_nth2 by (rewrite !length_app; simpl; rewrite repeat_length; lia).
      apply nth_repeat. }
  unfold fill_missing in Hf. destruct (existsb is_nan raw) eqn:En.
  2:{ split; intros k Hk;
      [pose proof (existsb_nth is_nan raw None (n := k) ltac:(lia) En) as He
      |pose proof (existsb_nth is_nan raw None (n := m1 + S (length mid) + S k) ltac:(lia) En) as He];
      rewrite Hgap in He by lia; discriminate. }
  pose proof (valid_with_index_edges m1 m2 a b mid) as Hvw. fold raw in Hvw.
  assert (H2 : (1 < length (valid_with_index 0 raw))%nat)
    by (rewrite Hvw, length_app; simpl; lia).
  destruct (Nat.ltb_spec 1 (length (valid_with_index 0 raw))) as [_|]; [|lia].
  destruct (fill_interp_Some raw H2) as [d' [E1 [_ E3]]].
  rewrite E1 in Hf. injection Hf as <-. rewrite Hvw in E3.
  assert (Hne : map (fun p => Qnat (fst p)) (((m1, a) :: valid_with_index (S m1) mid)
                  ++ [(m1 + S (length mid), b)]%nat) <> []) by discriminate.
  assert (Hl : length (map (fun p => Qnat (fst p)) (((m1, a) :: valid_with_index (S m1) mid)
                  ++ [(m1 + S (length mid), b)]%nat))
               = length (map snd (((m1, a) :: valid_with_index (S m1) mid)
                  ++ [(m1 + S (length mid), b)]%nat))) by now rewrite !length_map.
  split; intros k Hk.
  - specialize (E3 k ltac:(lia)). rewrite np_interp_left in E3 by first [exact Hne | exact Hl | cbn; apply Qnat_lt; lia].
    now injection E3.
  - specialize (E3 (m1 + S (length mid) + S k)%nat ltac:(lia)).
    rewrite np_interp_right in E3.
    + assert (Hb : forall l : list (nat * Q),
                 last (map snd (l ++ [(m1 + S (length mid), b)]%nat)) 0 = b)
        by (intros l; rewrite map_app; apply last_last).
      rewrite Hb in E3. now injection E3.
    + exact Hne.
    + exact Hl.
    + apply Forall_forall. intros y Hy. apply in_map_iff in Hy as [[j v] [<- Hin]].
      apply Qnat_le. cbn [fst]. apply in_app_or in Hin as [[Hin|Hin]|[Hin|[]]].
      * injection Hin as <- _. lia.
      * apply valid_with_index_In in Hin as [Hj _]. lia.
      * injection Hin as <- _. lia.
Qed.

(** ** Sign convention *)

Lemma sum_opp (l : list Q) : fold_right Qplus 0 (map Qopp l) == - fold_right Qplus 0 l.
Proof. induction l as [|x l IH]; simpl; [reflexivity|]. rewrite IH. ring. Qed.

Lemma sum_pos (l : list Q) : l <> [] -> Forall (fun x => 0 < x) l -> 0 < fold_right Qplus 0 l.
Proof.
  induction l as [|x [|y l] IH]; intros Hne H; [congruence| |];
    inversion H; subst; simpl in *.
  - lra.
  - assert (0 < y + fold_right Qplus 0 l) by (apply IH; [discriminate|assumption]). lra.
Qed.

Lemma sum_nonpos (l : list Q) : Forall (fun x => x <= 0) l -> fold_right Qplus 0 l <= 0.
Proof. induction 1; simpl; lra. Qed.

Lemma mean_sign (l : list Q) m :
  nanmean l = Some m -> (0 < m <-> 0 < fold_right Qplus 0 l).
Proof.
  destruct l as [|x l]; simpl; [discriminate|]. intros [= <-].
  pose proof (Qnat_pos (S (length l)) ltac:(lia)) as Hn.
  split; intros H.
  - apply Qnot_le_lt. intros Hle.
    assert (fold_right Qplus 0 (x :: l) / Qnat (S (length l)) <= 0).
    { apply Qle_shift_div_r; [exact Hn|]. simpl. lra. }
    simpl in H0. lra.
  - apply Qlt_shift_div_l; [exact Hn|]. simpl in *. lra.
Qed.

(** C12: The returned depths never have a positive mean. *)
Theorem sign_convention_mean_nonpos d m :
  nanmean (sign_convention d) = Some m -> m <= 0.
Proof.
  unfold sign_convention. destruct (nanmean d) as [m0|] eqn:E.
  - destruct (Qltb_spec 0 m0) as [Hp|Hp]; intros Hm.
    + apply Qnot_lt_le. intros Hlt. apply (mean_sign _ _ Hm) in Hlt.
      apply (mean_sign _ _ E) in Hp. rewrite sum_opp in Hlt. lra.
    + rewrite E in Hm. injection Hm as <-. exact Hp.
  - intros Hm. rewrite E in Hm. discriminate.
Qed.

(** Depths that are all positive come back all negative. *)
Theorem sign_convention_all_positive d :
  d <> [] -> Forall (fun x => 0 < x) d -> Forall (fun x => x < 0) (sign_convention d).
Proof.
  intros Hne Hpos. unfold sign_convention.
  destruct (nanmean d) as [m|] eqn:E; [|destruct d; [congruence|discriminate]].
  destruct (Qltb_spec 0 m) as [Hm|Hm].
  - apply Forall_map. eapply Forall_impl; [|exact Hpos]. intros x Hx. cbv beta in *. lra.
  - exfalso. pose proof (proj2 (mean_sign _ _ E) (sum_pos d Hne Hpos)). lra.
Qed.

(** C27: Depths that are all non-positive come back unchanged. *)
Theorem sign_convention_nonpos_unchanged d :
  Forall (fun x => x <= 0) d -> sign_convention d = d.
Proof.
  intros Hneg. unfold sign_convention.
  destruct (nanmean d) as [m|] eqn:E; [|reflexivity].
  destruct (Qltb_spec 0 m) as [Hm|Hm]; [|reflexivity].
  apply (mean_sign _ _ E) in Hm. pose proof (sum_nonpos _ Hneg). lra.
Qed.

Lemma sign_convention_length d : length (sign_convention d) = length d.
Proof.
  unfold sign_convention. destruct (nanmean d); [|reflexivity].
  destruct (Qltb 0 q); [apply length_map|reflexivity].
Qed.

(** The sign vote of a non-empty array is the sign of its sum. *)
Lemma sign_convention_sum d :
  d <> [] -> sign_convention d = if Qltb 0 (fold_right Qplus 0 d) then map Qopp d else d.
Proof.
  intros Hne. unfold sign_convention.
  destruct (nanmean d) as [m|] eqn:E; [|destruct d; [congruence|discriminate]].
  pose proof (mean_sign _ _ E) as Hm.
  destruct (Qltb_spec 0 m), (Qltb_spec 0 (fold_right Qplus 0 d)); try reflexivity.
  - apply Hm in H. lra.
  - apply Hm in H0. lra.
Qed.

(** The sum of a filled array: the valid samples and one [fill] per NaN. *)
Lemma sum_nan_to_num fill i raw :
  fold_right Qplus 0 (nan_to_num fill raw) + fill * Qnat (length (valid_with_index i raw))
  == fold_right Qplus 0 (map snd (valid_with_index i raw)) + fill * Qnat (length raw).
Proof.
  revert i; induction raw as [|[v|] raw IH]; intros i; cbn [nan_to_num map fold_right length valid_with_index].
  - unfold Qnat. simpl. ring.
  - specialize (IH (S i)). unfold nan_to_num in IH. rewrite !Qnat_S.
    cbn [map fold_right snd]. setoid_replace (fill * (Qnat (length (valid_with_index (S i) raw)) + 1))
      with (fill * Qnat (length (valid_with_index (S i) raw)) + fill) by ring.
    setoid_replace (fill * (Qnat (length raw) + 1)) with (fill * Qnat (length raw) + fill) by ring.
    lra.
  - specialize (IH (S i)). unfold nan_to_num in IH. rewrite Qnat_S.
    setoid_replace (fill * (Qnat (length raw) + 1)) with (fill * Qnat (length raw) + fill) by ring.
    lra.
Qed.

Lemma nan_to_num_no_nan a b raw : existsb is_nan raw = false -> nan_to_num a raw = nan_to_num b raw.
Proof.
  induction raw as [|[v|] raw IH]; intros H; [reflexivity| |discriminate].
  cbn. f_equal. now apply IH.
Qed.

(** With a single valid sample the array is filled with -5.0 (or has no
    NaN at all). *)
Lemma fill_missing_one_valid raw k x :
  valid_with_index 0 raw = [(k, x)] -> fill_missing raw = Some (nan_to_num (-5) raw).
Proof.
  intros H. unfold fill_missing. rewrite H. destruct (existsb is_nan raw) eqn:E; [reflexivity|].
  f_equal. now apply nan_to_num_no_nan.
Qed.

(** ** Constant inputs *)

Lemma raw_depths_length v lat_c lon_c lats lons :
  length (raw_depths v lat_c lon_c lats lons) = Nat.min (length lats) (length lons).
Proof. unfold raw_depths. now autorewrite with beach_len. Qed.

Lemma linspace_const start stop n :
  stop == start -> Forall (fun x => x == start) (linspace start stop n).
Proof.
  intros H. destruct n as [|[|div]]; [constructor|repeat constructor; reflexivity|].
  unfold linspace. apply Forall_app. split; [|constructor; [exact H|constructor]].
    apply Forall_map, Forall_forall. intros i _. rewrite H. unfold Qdiv. ring.
Qed.

Lemma select_axes_In ds v lat_c lon_c :
  select_axes ds = Some (v, lat_c, lon_c) -> In v (data_vars ds).
Proof.
  unfold select_axes, select_depth_var.
  destruct (find _ (data_vars ds)) as [w|] eqn:E.
  - apply find_some in E as [Hin _]. case_matches; intros H; inversion H; now subst.
  - destruct (data_vars ds) as [|w l]; [discriminate|]. simpl.
    case_matches; intros H; inversion H; subst; now left.
Qed.

Lemma raw_depths_const v lat_c lon_c lats lons a b :
  sel_respects v -> Forall (fun x => x == a) lats -> Forall (fun x => x == b) lons ->
  raw_depths v lat_c lon_c lats lons
  = repeat (lookup_depth v lat_c lon_c a b) (Nat.min (length lats) (length lons)).
Proof.
  intros Hs Ha Hb. rewrite <- raw_depths_length with (v := v) (lat_c := lat_c) (lon_c := lon_c).
  apply Forall_eq_repeat, Forall_forall. intros r Hr.
  unfold raw_depths in Hr. apply in_map_iff in Hr as [[la lo] [<- Hin]].
  pose proof (in_combine_l _ _ _ _ Hin) as Hla. pose proof (in_combine_r _ _ _ _ Hin) as Hlo.
  rewrite Forall_forall in Ha, Hb.
  unfold lookup_depth. now rewrite (Hs lat_c lon_c la a (Ha la Hla) lo b (Hb lo Hlo)).
Qed.

Lemma fill_missing_repeat r n : exists c, fill_missing (repeat r n) = Some (repeat c n).
Proof.
  destruct n as [|n]; [exists 0; reflexivity|].
  destruct r as [v|].
  - exists v. unfold fill_missing.
    replace (existsb is_nan (repeat (Some v) (S n))) with false
      by (induction n; simpl in *; auto).
    f_equal. unfold nan_to_num. rewrite map_repeat. reflexivity.
  - exists (-5). unfold fill_missing. simpl existsb at 1.
    replace (valid_with_index 0 (repeat None (S n))) with (@nil (nat * Q))
      by (generalize 0%nat; induction n; simpl in *; auto).
    simpl. f_equal. unfold nan_to_num. rewrite map_repeat. reflexivity.
Qed.

Lemma sign_convention_repeat c n : exists c', sign_convention (repeat c n) = repeat c' n.
Proof.
  unfold sign_convention. destruct (nanmean (repeat c n)) as [m|]; [|eauto].
  destruct (Qltb 0 m); [|eauto]. exists (- c). apply map_repeat.
Qed.

Section Extract.
Context `{L : MathLib} `{LL : !MathLibLaws L}.

Lemma depths_along_length ds lats lons d :
  depths_along ds lats lons = Some d -> length lats = length lons -> length d = length lats.
Proof.
  intros H Hl. unfold depths_along in H.
  destruct (select_axes ds) as [[[v lat_c] lon_c]|]; [|discriminate].
  destruct (fill_missing (raw_depths v lat_c lon_c lats lons)) as [d0|] eqn:E; [|discriminate].
  injection H as <-.
  rewrite sign_convention_length, (fill_missing_length _ _ E), raw_depths_length, Hl. lia.
Qed.

Lemma extract_Some ds p1 p2 n dist dep :
  extract_depth_profile (Some ds) p1 p2 n = Some (dist, dep) ->
  dist = profile_distances p1 (linspace (lat p1) (lat p2) n) (linspace (lon p1) (lon p2) n) /\
  (depths_along ds (linspace (lat p1) (lat p2) n) (linspace (lon p1) (lon p2) n) = Some dep \/
   depths_along ds (linspace (lat p1) (lat p2) n) (linspace (lon p1) (lon p2) n) = None /\
   dep = repeat 0 n).
Proof.
  simpl. intros H.
  destruct (depths_along ds _ _) as [d|] eqn:E; injection H as <- <-; split; auto.
  right. split; [reflexivity|]. f_equal.
  now rewrite profile_distances_length, !linspace_length, Nat.min_id.
Qed.

(** The two sequences of a result have the same length. *)
Lemma extract_lengths_eq ds p1 p2 n dist dep :
  extract_depth_profile ds p1 p2 n = Some (dist, dep) -> length dist = length dep.
Proof.
  destruct ds as [ds|]; [|discriminate]. intros H.
  destruct (extract_Some _ _ _ _ _ _ H) as [-> [Hd|[_ ->]]].
  - rewrite profile_distances_length, !linspace_length, Nat.min_id.
    symmetry. rewrite (depths_along_length ds _ _ dep Hd) by now rewrite !linspace_length.
    apply linspace_length.
  - now rewrite profile_distances_length, !linspace_length, Nat.min_id, repeat_length.
Qed.

(** C5: The extractor fails exactly when the dataset is unavailable; otherwise
    both sequences have one entry per sample. *)
Theorem extract_shape ds p1 p2 n :
  match ds with
  | None => extract_depth_profile ds p1 p2 n = None
  | Some _ => exists dist dep, extract_depth_profile ds p1 p2 n = Some (dist, dep)
                               /\ length dist = n /\ length dep = n
  end.
Proof.
  destruct ds as [ds|]; [|reflexivity].
  destruct (extract_depth_profile (Some ds) p1 p2 n) as [[dist dep]|] eqn:E;
    [|simpl in E; destruct (depths_along _ _ _); discriminate].
  exists dist, dep. split; [reflexivity|].
  destruct (extract_Some _ _ _ _ _ _ E) as [-> [Hd|[_ ->]]].
  - rewrite profile_distances_length, !linspace_length, Nat.min_id. split; [reflexivity|].
    rewrite (depths_along_length ds _ _ dep Hd) by now rewrite !linspace_length.
    apply linspace_length.
  - rewrite profile_distances_length, !linspace_length, Nat.min_id, repeat_length. now split.
Qed.

(** C28: The first distance is zero: the first sample is [point1] itself. *)
Theorem extract_first_distance_zero ds p1 p2 n dist dep :
  (1 <= n)%nat -> extract_depth_profile (Some ds) p1 p2 n = Some (dist, dep) ->
  nth 0 dist 0 == 0.
Proof.
  intros Hn H. destruct (extract_Some _ _ _ _ _ _ H) as [-> _].
  destruct n as [|n]; [lia|]. unfold profile_distances.
  destruct (linspace (lat p1) (lat p2) (S n)) as [|la lats] eqn:E1;
    [apply (f_equal (@length Q)) in E1; rewrite linspace_length in E1; discriminate|].
  destruct (linspace (lon p1) (lon p2) (S n)) as [|lo lons] eqn:E2;
    [apply (f_equal (@length Q)) in E2; rewrite linspace_length in E2; discriminate|].
  simpl. apply haversine_self.
  - pose proof (linspace_first (lat p1) (lat p2) (S n) Hn) as F. now rewrite E1 in F.
  - pose proof (linspace_first (lon p1) (lon p2) (S n) Hn) as F. now rewrite E2 in F.
Qed.

(** C29: The last distance is the great-circle distance from [point1] to
    [point2]: the last sample of [np.linspace] is [stop] itself, so the
    "Total Distance" metric ([bathy_dist[-1]]) measures the whole line. *)
Theorem extract_total_distance ds p1 p2 n dist dep :
  (2 <= n)%nat -> extract_depth_profile (Some ds) p1 p2 n = Some (dist, dep) ->
  nth (n - 1) dist 0 = haversine p1 (lat p2) (lon p2).
Proof.
  intros Hn H. destruct (extract_Some _ _ _ _ _ _ H) as [-> _].
  rewrite profile_distances_nth by (rewrite !linspace_length; lia).
  destruct n as [|[|div]]; [lia|lia|]. replace (S (S div) - 1)%nat with (S div) by lia.
  now rewrite !linspace_nth_last.
Qed.

(** C30: Degenerate line: when [point1] and [point2] coincide, every distance
    is zero and the depth sequence is constant. *)
Theorem extract_degenerate ds p1 p2 n dist dep :
  lat p2 == lat p1 -> lon p2 == lon p1 -> Forall sel_respects (data_vars ds) ->
  extract_depth_profile (Some ds) p1 p2 n = Some (dist, dep) ->
  Forall (fun x => x == 0) dist /\ exists c, dep = repeat c n.
Proof.
  intros Hla Hlo Hres H.
  pose proof (linspace_const _ _ n Hla) as Cla. pose proof (linspace_const _ _ n Hlo) as Clo.
  destruct (extract_Some _ _ _ _ _ _ H) as [-> Hdep]. split.
  - unfold profile_distances. apply Forall_forall. intros x Hx.
    apply in_map_iff in Hx as [[la lo] [<- Hin]]. rewrite Forall_forall in Cla, Clo.
    apply haversine_self; [apply Cla | apply Clo];
      [exact (in_combine_l _ _ _ _ Hin) | exact (in_combine_r _ _ _ _ Hin)].
  - destruct Hdep as [Hd|[_ ->]]; [|eauto].
    unfold depths_along in Hd.
    destruct (select_axes ds) as [[[v lat_c] lon_c]|] eqn:Ea; [|discriminate].
    rewrite Forall_forall in Hres.
    rewrite (raw_depths_const _ _ _ _ _ _ _ (Hres v (select_axes_In _ _ _ _ Ea)) Cla Clo) in Hd.
    rewrite !linspace_length, Nat.min_id in Hd.
    destruct (fill_missing_repeat (lookup_depth v lat_c lon_c (lat p1) (lon p1)) n) as [c Hc].
    rewrite Hc in Hd. injection Hd as <-. apply sign_convention_repeat.
Qed.

(** C31: Sign convention end to end: if every depth sampled along the line is
    a positive number, the returned depths are all negative. *)
Theorem extract_positive_negated ds p1 p2 n v lat_c lon_c dist dep :
  (1 <= n)%nat -> select_axes ds = Some (v, lat_c, lon_c) ->
  forallb (fun r => match r with Some x => Qltb 0 x | None => false end)
    (raw_depths v lat_c lon_c (linspace (lat p1) (lat p2) n) (linspace (lon p1) (lon p2) n))
  = true ->
  extract_depth_profile (Some ds) p1 p2 n = Some (dist, dep) ->
  Forall (fun x => x < 0) dep.
Proof.
  intros Hn Ha Hpos H. destruct (extract_Some _ _ _ _ _ _ H) as [_ Hdep].
  unfold depths_along in Hdep. rewrite Ha in Hdep.
  set (raw := raw_depths v lat_c lon_c (linspace (lat p1) (lat p2) n)
                (linspace (lon p1) (lon p2) n)) in *.
  assert (Hsome : forall r, In r raw -> exists x, r = Some x /\ 0 < x).
  { intros r Hr. rewrite forallb_forall in Hpos. specialize (Hpos r Hr).
    destruct r as [x|]; [|discriminate]. exists x. split; [reflexivity|].
    now destruct (Qltb_spec 0 x). }
  assert (Hnan : existsb is_nan raw = false).
  { apply not_true_iff_false. intros Hex. apply existsb_exists in Hex as [r [Hr Hn']].
    destruct (Hsome r Hr) as [x [-> _]]. discriminate. }
  assert (Hlen : length raw = n)
    by (unfold raw; now rewrite raw_depths_length, !linspace_length, Nat.min_id).
  unfold fill_missing in Hdep. rewrite Hnan in Hdep.
  destruct Hdep as [Hd|[Hd _]]; [|discriminate]. injection Hd as <-.
  apply sign_convention_all_positive.
  - intros He. apply (f_equal (@length Q)) in He. unfold nan_to_num in He.
    rewrite length_map, Hlen in He. simpl in He. lia.
  - apply Forall_forall. intros x Hx. unfold nan_to_num in Hx.
    apply in_map_iff in Hx as [r [<- Hr]]. destruct (Hsome r Hr) as [y [-> Hy]]. exact Hy.
Qed.

(** C11: The sign vote counts the fill value: when a single sample along
    the line could be read, with value [x], the others are filled with
    -5.0 and the depths are negated exactly when [x > 5 (n - 1)]; so a
    positive raw depth up to [5 (n - 1)] comes back positive, next to
    negative fill values. *)
Theorem extract_single_sample_sign ds p1 p2 n v lat_c lon_c k x dist dep :
  select_axes ds = Some (v, lat_c, lon_c) ->
  valid_with_index 0 (raw_depths v lat_c lon_c (linspace (lat p1) (lat p2) n)
                        (linspace (lon p1) (lon p2) n)) = [(k, x)] ->
  extract_depth_profile (Some ds) p1 p2 n = Some (dist, dep) ->
  dep = (if Qltb (5 * Qnat (n - 1)) x then map Qopp else fun d => d)
          (nan_to_num (-5) (raw_depths v lat_c lon_c (linspace (lat p1) (lat p2) n)
                              (linspace (lon p1) (lon p2) n))).
Proof.
  intros Ha Hv H. destruct (extract_Some _ _ _ _ _ _ H) as [_ Hdep].
  unfold depths_along in Hdep. rewrite Ha, (fill_missing_one_valid _ _ _ Hv) in Hdep.
  destruct Hdep as [Hd|[Hd _]]; [injection Hd as <-|discriminate].
  set (raw := raw_depths v lat_c lon_c _ _) in *.
  assert (Hlen : length raw = n)
    by (unfold raw; now rewrite raw_depths_length, !linspace_length, Nat.min_id).
  assert (Hn : (1 <= n)%nat) by (destruct raw; [discriminate|simpl in Hlen; lia]).
  pose proof (sum_nan_to_num (-5) 0 raw) as Hs. rewrite Hv, Hlen in Hs. cbn in Hs.
  replace n with (S (n - 1)) in Hs by lia. rewrite !Qnat_S in Hs. change (Qnat 0) with 0 in Hs.
  rewrite sign_convention_sum.
  - destruct (Qltb_spec 0 (fold_right Qplus 0 (nan_to_num (-5) raw))),
      (Qltb_spec (5 * Qnat (n - 1)) x); try reflexivity; lra.
  - intros He. apply (f_equal (@length Q)) in He. unfold nan_to_num in He.
    rewrite length_map, Hlen in He. simpl in He. lia.
Qed.

(** C32: When no depth variable or no latitude/longitude axis is found, the
    [except] branch returns zeros for the depths. *)
Theorem extract_axes_failure ds p1 p2 n dist dep :
  select_axes ds = None ->
  extract_depth_profile (Some ds) p1 p2 n = Some (dist, dep) -> dep = repeat 0 n.
Proof.
  intros Ha H. destruct (extract_Some _ _ _ _ _ _ H) as [_ [Hd|[_ ->]]]; [|reflexivity].
  unfold depths_along in Hd. rewrite Ha in Hd. discriminate.
Qed.

End Extract.


(** C10: The distances of a line that crosses the antimeridian are not
    monotone: the coordinate-space interpolation runs the long way round
    (through longitude 0), so the middle sample is farther from [point1]
    than [point2] is.  Shown on the executable libm instance. *)
Theorem extract_distances_not_monotone ds :
  exists dist dep,
    extract_depth_profile (L := QLib.lib) (Some ds) Demo.dateline_p1 Demo.dateline_p2 3
    = Some (dist, dep) /\ nth 2 dist 0 < nth 1 dist 0.
Proof.
  destruct (extract_depth_profile (L := QLib.lib) (Some ds) Demo.dateline_p1 Demo.dateline_p2 3)
    as [[dist dep]|] eqn:E; [|simpl in E; destruct (depths_along _ _ _); discriminate].
  exists dist, dep. split; [reflexivity|].
  destruct (extract_Some (L := QLib.lib) _ _ _ _ _ _ E) as [-> _].
  vm_compute. reflexivity.
Qed.

(** ** Witnesses: the theorems applied to concrete inputs *)
Module Witnesses.
Import Demo QLib.

Lemma extract_shape_witness :
  exists dist dep,
    extract_depth_profile (L := QLib.lib) (Some demo_ds) demo_p1 demo_p2 default_num_points
    = Some (dist, dep) /\ length dist = default_num_points /\ length dep = default_num_points.
Proof. exact (extract_shape (L := QLib.lib) (Some demo_ds) demo_p1 demo_p2 default_num_points). Defined.


Lemma fill_missing_gap_witness :
  exists d, fill_missing ([Some 1] ++ Some 0 :: repeat None 3 ++ Some 8 :: []) = Some d /\
    forall j, (0 < j <= 3)%nat -> nth (length [Some 1] + j) d 0 == 0 + (8 - 0) * Qnat j / Qnat 4.
Proof. eexists. split; [reflexivity|]. apply (fill_missing_gap [Some 1] [] 0 8 3). reflexivity. Defined.

Lemma fill_missing_keeps_valid_witness :
  exists d, fill_missing [None; Some 7; Some 3; None] = Some d /\ nth 1 d 0 = 7.
Proof.
  eexists. split; [reflexivity|].
  apply (fill_missing_keeps_valid [None; Some 7; Some 3; None]); reflexivity.
Defined.

Lemma fill_missing_fallback_witness :
  exists d, fill_missing [None; Some 7; None] = Some d /\ nth 2 d 0 = -5.
Proof.
  eexists. split; [reflexivity|].
  apply (fill_missing_fallback [None; Some 7; None]); [vm_compute; lia|reflexivity|simpl; lia|reflexivity].
Defined.

Lemma sign_convention_mean_nonpos_witness :
  exists m, nanmean (sign_convention [3; -1]) = Some m /\ m <= 0.
Proof.
  eexists. split; [reflexivity|].
  apply (sign_convention_mean_nonpos [3; -1]). reflexivity.
Defined.

Lemma sign_convention_nonpos_unchanged_witness :
  Forall (fun x => x <= 0) [-1; 0] /\ sign_convention [-1; 0] = [-1; 0].
Proof.
  assert (H : Forall (fun x => x <= 0) [-1; 0]) by (repeat constructor; discriminate).
  split; [exact H|]. exact (sign_convention_nonpos_unchanged _ H).
Defined.

(** The result of a concrete run, named so that the witnesses can state
    the run's output. *)
Definition run (ds : Dataset) (p1 p2 : GeoPoint) (n : nat) : list Q * list Q :=
  match extract_depth_profile (L := QLib.lib) (Some ds) p1 p2 n with
  | Some r => r
  | None => ([], [])
  end.

Lemma run_spec ds p1 p2 n :
  extract_depth_profile (L := QLib.lib) (Some ds) p1 p2 n
  = Some (fst (run ds p1 p2 n), snd (run ds p1 p2 n)).
Proof.
  unfold run. destruct (extract_depth_profile _ _ _ _) as [[a b]|] eqn:E; [reflexivity|].
  simpl in E. destruct (depths_along _ _ _); discriminate.
Qed.

Lemma extract_first_distance_zero_witness :
  nth 0 (fst (run demo_ds demo_p1 demo_p2 5)) 0 == 0.
Proof.
  apply (extract_first_distance_zero (L := QLib.lib) demo_ds demo_p1 demo_p2 5 _
           (snd (run demo_ds demo_p1 demo_p2 5))); [lia|apply run_spec].
Defined.

Lemma extract_total_distance_witness :
  nth (5 - 1) (fst (run demo_ds demo_p1 demo_p2 5)) 0 = haversine demo_p1 (lat demo_p2) (lon demo_p2).
Proof.
  apply (extract_total_distance (L := QLib.lib) demo_ds demo_p1 demo_p2 5 _
           (snd (run demo_ds demo_p1 demo_p2 5))); [lia|apply run_spec].
Defined.

Lemma extract_degenerate_witness :
  Forall (fun x => x == 0) (fst (run demo_ds demo_p1 demo_p1 4)) /\
  exists c, snd (run demo_ds demo_p1 demo_p1 4) = repeat c 4.
Proof.
  apply (extract_degenerate (L := QLib.lib) demo_ds demo_p1 demo_p1 4);
    [reflexivity|reflexivity| |apply run_spec].
  repeat constructor. apply grid_var_respects.
Defined.

Lemma extract_positive_negated_witness :
  Forall (fun x => x < 0) (snd (run demo_full_ds demo_p1 demo_p2 5)).
Proof.
  apply (extract_positive_negated (L := QLib.lib) demo_full_ds demo_p1 demo_p2 5
           demo_full_var demo_lat_name demo_lon_name (fst (run demo_full_ds demo_p1 demo_p2 5)));
    [lia|reflexivity|vm_compute; reflexivity|apply run_spec].
Defined.

Lemma fill_missing_edges_witness :
  exists d, fill_missing ((repeat None 1 ++ Some 3 :: [None]) ++ Some 5 :: repeat None 2) = Some d /\
    (forall k, (k < 1)%nat -> nth k d 0 = 3) /\
    (forall k, (k < 2)%nat -> nth (1 + S (length [@None Q]) + S k) d 0 = 5).
Proof. eexists. split; [reflexivity|]. apply (fill_missing_edges 1 2 3 5 [None]). reflexivity. Defined.

Lemma extract_single_sample_sign_witness :
  snd (run demo_sparse_ds corner_p1 corner_p2 3) = [3; -5; -5].
Proof.
  rewrite (extract_single_sample_sign (L := QLib.lib) demo_sparse_ds corner_p1 corner_p2 3
             demo_sparse_var demo_lat_name demo_lon_name 0 3 (fst (run demo_sparse_ds corner_p1 corner_p2 3))
             (snd (run demo_sparse_ds corner_p1 corner_p2 3)));
    [vm_compute; reflexivity|reflexivity|vm_compute; reflexivity|apply run_spec].
Defined.

Lemma extract_axes_failure_witness :
  snd (run demo_noaxes_ds demo_p1 demo_p2 3) = repeat 0 3.
Proof.
  apply (extract_axes_failure (L := QLib.lib) demo_noaxes_ds demo_p1 demo_p2 3
           (fst (run demo_noaxes_ds demo_p1 demo_p2 3))); [reflexivity|apply run_spec].
Defined.

End Witnesses.

End Profile.
