(* ===== verification/Sections.v ===== *)
(** * The section store of [render_profile_section]

    [st.session_state.sections] (src/profile_module.py, lines 81-86) maps
    the three section names A, B, C to a record of points, the bathymetry
    curve, the design curve and the completion flag.  This file holds that
    data, the store as a total function on the three names, and the
    section-level operations that the render pass (file [Render]) performs
    under its guards: a map click (lines 252-260), "Apply Coordinates"
    (287), "Reset Points" (291-296), storing an extracted profile
    (310-314), regenerating the default design curve (330-333), writing
    the design-editor values back (337-344) and "Compare & Save" (349).
    Exceptions of the code (ZeroDivisionError, ValueError of [np.interp],
    IndexError of a list assignment) are [None]. *)

From Stdlib Require Import ZArith QArith Qabs Lqa List Lia Bool Sorted.
From S2P Require Import Prelude NumPy Haversine.
Import ListNotations.
Open Scope Q_scope.
Open Scope beach_scope.

Module Sections.
Import NumPy.

(** ** Data *)

Inductive SecId := SecA | SecB | SecC.

Definition SecId_eqb (a b : SecId) : bool :=
  match a, b with
  | SecA, SecA | SecB, SecB | SecC, SecC => true
  | _, _ => false
  end.

Lemma SecId_eqb_spec a b : reflect (a = b) (SecId_eqb a b).
Proof. destruct a, b; constructor; congruence. Qed.

(** The order of the dict literal, which is the order of [.values()]. *)
Definition all_ids : list SecId := [SecA; SecB; SecC].

Record Section := mkSection {
  points : list GeoPoint;
  bathy_dist : list Q;
  bathy_depth : list Q;
  user_dist : list Q;
  user_depth : list Q;
  completed : bool
}.

(** Lines 83-85. *)
Definition empty_section : Section := mkSection [] [] [] [] [] false.

Definition Store := SecId -> Section.

Definition init_store : Store := fun _ => empty_section.

(** [st.session_state.sections[id] = s] (the dict is mutated in place). *)
Definition store_set (st : Store) (id : SecId) (s : Section) : Store :=
  fun j => if SecId_eqb id j then s else st j.

(** Line 123: [sum(1 for s in sections.values() if s['completed'])]. *)
Definition completed_count (st : Store) : nat :=
  length (filter (fun id => completed (st id)) all_ids).

(** ** Python list helpers *)

(** [l[i] = x]: an IndexError out of range. *)
Fixpoint list_set {A} (l : list A) (i : nat) (x : A) : option (list A) :=
  match l, i with
  | [], _ => None
  | _ :: l', O => Some (x :: l')
  | y :: l', S i' => option_map (cons y) (list_set l' i' x)
  end.

(** [l[-1]]: an IndexError on the empty list. *)
Definition last_elem (l : list Q) : option Q :=
  match l with [] => None | _ => Some (last l 0) end.

(** [min(l)]: a ValueError on the empty list. *)
Definition list_min (l : list Q) : option Q :=
  match l with
  | [] => None
  | x :: l' => Some (fold_left (fun m y => if Qltb y m then y else m) l' x)
  end.

(** ** Section operations *)

(** Lines 252-260: a click is added when the section has fewer than two
    points and it is not within 0.0001 degree (in both coordinates) of the
    last point; [None] when the click is ignored. *)
Definition click_point (s : Section) (p : GeoPoint) : option Section :=
  if Nat.ltb (length (points s)) 2 then
    let new_point :=
      match rev (points s) with
      | last :: _ =>
          negb (Qltb (Qabs (lat last - lat p)) (1 # 10000) &&
                Qltb (Qabs (lon last - lon p)) (1 # 10000))
      | [] => true
      end in
    if new_point then
      Some (mkSection (points s ++ [p]) (bathy_dist s) (bathy_depth s)
                      (user_dist s) (user_depth s) (completed s))
    else None
  else None.

(** Line 287. *)
Definition apply_points (s : Section) (p1 p2 : GeoPoint) : Section :=
  mkSection [p1; p2] (bathy_dist s) (bathy_depth s) (user_dist s) (user_depth s)
            (completed s).

(** Lines 291-296. *)
Definition reset_section (s : Section) : Section :=
  mkSection [] [] [] [] [] false.

(** Lines 312-314: store the profile when both lists are non-empty. *)
Definition store_profile (s : Section) (r : option (list Q * list Q)) : Section :=
  match r with
  | Some ((_ :: _) as dist, (_ :: _) as depth) =>
      mkSection (points s) dist depth (user_dist s) (user_depth s) (completed s)
  | _ => s
  end.

(** Line 332: [[float(i * max_dist / (num_pts - 1)) for i in range(num_pts)]];
    the division raises ZeroDivisionError when [num_pts = 1]. *)
Definition default_user_dist (max_dist : Q) (num_pts : nat) : option (list Q) :=
  match num_pts with
  | 1%nat => None
  | _ => Some (map (fun i => Qnat i * max_dist / Qnat (num_pts - 1)) (seq 0 num_pts))
  end.

(** Lines 331-333: the default design curve of [num_pts] points. *)
Definition default_design (bdist bdepth : list Q) (num_pts : nat)
  : option (list Q * list Q) :=
  match last_elem bdist with
  | None => None
  | Some max_dist =>
      match default_user_dist max_dist num_pts with
      | None => None
      | Some ud =>
          match map_option (fun d => np_interp d bdist bdepth) ud with
          | None => None
          | Some uh => Some (ud, uh)
          end
      end
  end.

Definition with_user_dist (s : Section) (ud : list Q) : Section :=
  mkSection (points s) (bathy_dist s) (bathy_depth s) ud (user_depth s) (completed s).

Definition with_user_depth (s : Section) (uh : list Q) : Section :=
  mkSection (points s) (bathy_dist s) (bathy_depth s) (user_dist s) uh (completed s).

(** Line 330. *)
Definition regen_needed (s : Section) (num_pts : nat) : bool :=
  (match user_dist s with [] => true | _ => false end)
  || negb (Nat.eqb (length (user_dist s)) num_pts).

(** Lines 330-333: regenerate when the curve is empty or its length is not
    the requested number of points. *)
Definition design_regen (s : Section) (num_pts : nat) : option Section :=
  if regen_needed s num_pts then
    match default_design (bathy_dist s) (bathy_depth s) num_pts with
    | None => None
    | Some (ud, uh) =>
        Some (mkSection (points s) (bathy_dist s) (bathy_depth s) ud uh (completed s))
    end
  else Some s.

(** Lines 337-344: for [i] in [range(num_pts)], the distance widget of row
    [i] (shown with [user_dist[i]]) and then the depth widget (shown with
    [user_depth[i]]) write their values back; [w f i v] is the value the
    widget of field [f], row [i], returns when shown with [v]. *)
Inductive DesignField := FieldDist | FieldDepth.

Fixpoint design_edits_from (w : DesignField -> nat -> Q -> Q) (s : Section) (i k : nat)
  : option Section :=
  match k with
  | O => Some s
  | S k' =>
      match nth_error (user_dist s) i with
      | None => None
      | Some d =>
          match list_set (user_dist s) i (w FieldDist i d) with
          | None => None
          | Some ud =>
              match nth_error (user_depth s) i with
              | None => None
              | Some h =>
                  match list_set (user_depth s) i (w FieldDepth i h) with
                  | None => None
                  | Some uh =>
                      design_edits_from w
                        (mkSection (points s) (bathy_dist s) (bathy_depth s) ud uh
                                   (completed s)) (S i) k'
                  end
              end
          end
      end
  end.

Definition design_edits (w : DesignField -> nat -> Q -> Q) (s : Section) (num_pts : nat)
  : option Section :=
  design_edits_from w s 0 num_pts.

(** Line 349. *)
Definition mark_completed (s : Section) : Section :=
  mkSection (points s) (bathy_dist s) (bathy_depth s) (user_dist s) (user_depth s) true.

(** ** Lemmas on the list helpers *)

Lemma list_set_spec {A} (l : list A) i x :
  (i < length l)%nat ->
  exists l', list_set l i x = Some l' /\ length l' = length l /\
             forall j d, nth j l' d = if Nat.eqb j i then x else nth j l d.
Proof.
  revert i; induction l as [|y l IH]; intros i Hi; [simpl in Hi; lia|].
  destruct i as [|i]; simpl.
  - eexists; split; [reflexivity|]. split; [reflexivity|]. now intros [|j] d.
  - destruct (IH i ltac:(simpl in Hi; lia)) as [l' [E [Hl Hn]]]. rewrite E. simpl.
    eexists; split; [reflexivity|]. split; [simpl; lia|]. intros [|j] d; simpl; auto.
Qed.

Lemma nth_error_nth_lt {A} (l : list A) i d :
  (i < length l)%nat -> nth_error l i = Some (nth i l d).
Proof.
  revert i; induction l as [|y l IH]; intros [|i] Hi; simpl in *; try lia; auto.
  apply IH. lia.
Qed.

(** ** The default design curve *)

Lemma default_user_dist_some m n :
  (2 <= n)%nat -> default_user_dist m n = Some (map (fun i => Qnat i * m / Qnat (n - 1)) (seq 0 n)).
Proof. intros Hn. destruct n as [|[|n]]; [lia|lia|reflexivity]. Qed.

(** C36: The default distances start at 0, end at the total distance and are
    evenly spaced by [max_dist / (num_pts - 1)]. *)
Theorem default_user_dist_spec max_dist n :
  (2 <= n)%nat ->
  exists ud, default_user_dist max_dist n = Some ud /\ length ud = n /\
    nth 0 ud 0 == 0 /\ nth (n - 1) ud 0 == max_dist /\
    forall i, (S i < n)%nat -> nth (S i) ud 0 - nth i ud 0 == max_dist / Qnat (n - 1).
Proof.
  intros Hn. rewrite default_user_dist_some by exact Hn.
  pose proof (Qnat_pos (n - 1) ltac:(lia)) as Hp.
  eexists; split; [reflexivity|]. rewrite length_map, length_seq. split; [reflexivity|].
  split; [|split].
  - rewrite nth_map_seq by lia. unfold Qnat at 1. simpl. unfold Qdiv. ring.
  - rewrite nth_map_seq by lia. field. lra.
  - intros i Hi. rewrite !nth_map_seq by lia. rewrite Qnat_S. field. lra.
Qed.

(** C37: The default design curve of a strictly increasing bathymetry curve
    starting at distance 0 has the requested number of points, starts at
    the first bathymetry depth and ends at the last one. *)
Theorem default_design_endpoints bdist bdepth n :
  StronglySorted Qlt bdist -> bdist <> [] -> length bdist = length bdepth ->
  nth 0 bdist 0 == 0 -> (2 <= n)%nat ->
  exists ud uh, default_design bdist bdepth n = Some (ud, uh) /\
    length ud = n /\ length uh = n /\
    nth 0 uh 0 = nth 0 bdepth 0 /\ nth (n - 1) uh 0 = last bdepth 0.
Proof.
  intros Hs Hne Hl H0 Hn. unfold default_design.
  assert (Hlen : (0 < length bdist)%nat) by (destruct bdist; [congruence|simpl; lia]).
  assert (E : last_elem bdist = Some (last bdist 0)) by (destruct bdist; [congruence|reflexivity]).
  rewrite E.
  rewrite default_user_dist_some by exact Hn.
  set (ud := map (fun i => Qnat i * last bdist 0 / Qnat (n - 1)) (seq 0 n)).
  destruct (map_option_Some (fun d => np_interp d bdist bdepth) ud) as [uh [E1 [E2 E3]]].
  { intros x _ HN. destruct (np_interp_Some x bdist bdepth Hne Hl) as [y Hy]. congruence. }
  rewrite E1. exists ud, uh. unfold ud in *. rewrite length_map, length_seq in *.
  pose proof (Qnat_pos (n - 1) ltac:(lia)) as Hp.
  repeat split; [lia| |].
  - specialize (E3 0%nat 0 0 ltac:(lia)). rewrite nth_map_seq in E3 by lia.
    rewrite (np_interp_node _ _ _ 0) in E3; [congruence|exact Hs|exact Hl|lia|].
    rewrite H0. unfold Qnat. simpl. unfold Qdiv. ring.
  - specialize (E3 (n - 1)%nat 0 0 ltac:(lia)). rewrite nth_map_seq in E3 by lia.
    rewrite (np_interp_node _ _ _ (length bdist - 1)) in E3;
      [|exact Hs|exact Hl|lia|rewrite <- last_nth; field; lra].
    injection E3 as E3. rewrite <- E3, Hl. symmetry. apply last_nth.
Qed.

(** Regeneration leaves the points, the profile and the flag alone. *)
Lemma design_regen_keeps s n s' :
  design_regen s n = Some s' ->
  points s' = points s /\ bathy_dist s' = bathy_dist s /\ completed s' = completed s.
Proof.
  unfold design_regen. destruct (regen_needed s n); [|now intros [= <-]].
  destruct (default_design _ _ _) as [[ud uh]|]; [now intros [= <-]|discriminate].
Qed.

(** ** The design editor *)

Lemma design_edits_from_spec w s i k :
  length (user_dist s) = (i + k)%nat -> length (user_depth s) = (i + k)%nat ->
  exists s', design_edits_from w s i k = Some s' /\
    points s' = points s /\ bathy_dist s' = bathy_dist s /\
    bathy_depth s' = bathy_depth s /\ completed s' = completed s /\
    length (user_dist s') = (i + k)%nat /\ length (user_depth s') = (i + k)%nat /\
    forall j, (j < i + k)%nat ->
      nth j (user_dist s') 0 = (if Nat.ltb j i then nth j (user_dist s) 0
                                else w FieldDist j (nth j (user_dist s) 0)) /\
      nth j (user_depth s') 0 = (if Nat.ltb j i then nth j (user_depth s) 0
                                 else w FieldDepth j (nth j (user_depth s) 0)).
Proof.
  revert s i; induction k as [|k IH]; intros s i Hd Hh.
  - exists s. repeat split; try lia; destruct (Nat.ltb_spec j i); try lia; reflexivity.
  - simpl. rewrite (nth_error_nth_lt _ _ 0) by lia.
    destruct (list_set_spec (user_dist s) i (w FieldDist i (nth i (user_dist s) 0)))
      as [ud [E1 [L1 N1]]]; [lia|]. rewrite E1.
    rewrite (nth_error_nth_lt _ _ 0) by lia.
    destruct (list_set_spec (user_depth s) i (w FieldDepth i (nth i (user_depth s) 0)))
      as [uh [E2 [L2 N2]]]; [lia|]. rewrite E2.
    destruct (IH (mkSection (points s) (bathy_dist s) (bathy_depth s) ud uh (completed s)) (S i))
      as [s' [E [P1 [P2 [P3 [P4 [P5 [P6 P7]]]]]]]]; simpl; try lia.
    exists s'. repeat split; auto; try lia.
    + destruct (P7 j ltac:(lia)) as [Q1 _]. rewrite Q1, !N1.
      destruct (Nat.ltb_spec j (S i)), (Nat.ltb_spec j i), (Nat.eqb_spec j i);
        try lia; subst; reflexivity.
    + destruct (P7 j ltac:(lia)) as [_ Q2]. rewrite Q2, !N2.
      destruct (Nat.ltb_spec j (S i)), (Nat.ltb_spec j i), (Nat.eqb_spec j i);
        try lia; subst; reflexivity.
Qed.

Lemma design_edits_from_keeps w s i k s' :
  design_edits_from w s i k = Some s' ->
  points s' = points s /\ bathy_dist s' = bathy_dist s /\ completed s' = completed s.
Proof.
  revert s i; induction k as [|k IH]; intros s i; cbn [design_edits_from]; [now intros [= <-]|].
  case_matches; try discriminate. intros H. now destruct (IH _ _ H) as [-> [-> ->]].
Qed.

(** C38: The design editor never raises on a curve of [num_pts] points: it
    replaces row [i] of both curves by the values its two widgets return
    and leaves the rest of the section alone. *)
Theorem design_edits_spec w s n :
  length (user_dist s) = n -> length (user_depth s) = n ->
  exists s', design_edits w s n = Some s' /\
    points s' = points s /\ bathy_dist s' = bathy_dist s /\
    bathy_depth s' = bathy_depth s /\ completed s' = completed s /\
    length (user_dist s') = n /\ length (user_depth s') = n /\
    forall i, (i < n)%nat ->
      nth i (user_dist s') 0 = w FieldDist i (nth i (user_dist s) 0) /\
      nth i (user_depth s') 0 = w FieldDepth i (nth i (user_depth s) 0).
Proof.
  intros Hd Hh. destruct (design_edits_from_spec w s 0 n Hd Hh)
    as [s' [E [P1 [P2 [P3 [P4 [P5 [P6 P7]]]]]]]].
  exists s'. repeat split; auto; apply (P7 i); assumption.
Qed.

(** The default design distances of the specification's example: five
    points over a 100 m profile. *)
Theorem default_user_dist_example :
  exists ud, default_user_dist 100 5 = Some ud /\ ud =l= [0; 25; 50; 75; 100].
Proof. eexists. split; [reflexivity|]. apply Qlist_eqb_iff. reflexivity. Qed.

(** ** Witnesses *)

Module Witnesses.

Lemma default_user_dist_spec_witness :
  exists ud, default_user_dist 100 5 = Some ud /\ length ud = 5%nat /\
    nth 0 ud 0 == 0 /\ nth (5 - 1) ud 0 == 100 /\
    forall i, (S i < 5)%nat -> nth (S i) ud 0 - nth i ud 0 == 100 / Qnat (5 - 1).
Proof. apply default_user_dist_spec. lia. Defined.

Lemma default_design_endpoints_witness :
  exists ud uh, default_design [0; 40] [-12; -10] 5 = Some (ud, uh) /\
    length ud = 5%nat /\ length uh = 5%nat /\
    nth 0 uh 0 = nth 0 [-12; -10] 0 /\ nth (5 - 1) uh 0 = last [-12; -10] 0.
Proof.
  apply default_design_endpoints;
    [repeat constructor; vm_compute; reflexivity|discriminate|reflexivity|reflexivity|lia].
Defined.

Lemma design_edits_spec_witness :
  let s := mkSection [] [0; 40] [-12; -10] [0; 40] [-12; -10] false in
  let w (f : DesignField) (i : nat) (v : Q) := match f with FieldDist => v | FieldDepth => v - 1 end in
  exists s', design_edits w s 2 = Some s' /\
    points s' = points s /\ bathy_dist s' = bathy_dist s /\
    bathy_depth s' = bathy_depth s /\ completed s' = completed s /\
    length (user_dist s') = 2%nat /\ length (user_depth s') = 2%nat /\
    forall i, (i < 2)%nat ->
      nth i (user_dist s') 0 = w FieldDist i (nth i (user_dist s) 0) /\
      nth i (user_depth s') 0 = w FieldDepth i (nth i (user_depth s) 0).
Proof. intros s w. apply design_edits_spec; reflexivity. Defined.

End Witnesses.

End Sections.
