(* ===== verification/Render.v ===== *)
(** * One run of [render_profile_section] (src/profile_module.py, 94-375)

    Streamlit executes the whole function on every interaction.  A run
    reads the widgets, mutates [st.session_state] and either reaches the
    end, or stops early at [st.rerun()] (the script is restarted at once),
    or raises.  The model is a state monad [Pass] over the session state
    [Session] (the section store, [current_section], [coord_version]) whose
    outcome is [Done], [Reran] or [Raised]; the state after [Reran] or
    [Raised] is the state at that point, with every write made before it.

    The browser is the record [UI]: what each button, number input and the
    map return in this run.  A number input is modelled as a function of
    its key and of the [value=] it is shown with, so that an untouched
    widget can return its default; the map returns its last click.

    Section [WellFormed] holds the invariant of the sessions a user can
    reach, Section [Runs] its preservation by every step, and Section
    [Traces] consecutive runs: Streamlit's rerun loop [run_until_done],
    the runs that cannot restart the script ([no_rerun]), and the
    scenarios of the navigation buttons, the second map click, "Reset
    Points", "Apply Coordinates", "Compare & Save" and "< Previous" /
    "Next >".  Between [Runs] and [Traces], [edit_rows] and [regen_step]
    are shown to refine the pure [design_edits_from] and [design_regen] of
    [Sections]. *)

From Stdlib Require Import ZArith QArith Qabs Lqa List Lia Bool.
From S2P Require Import Prelude NumPy Haversine Dataset Profile Sections.
Import ListNotations.
Open Scope Q_scope.
Open Scope beach_scope.

Module Render.
Import NumPy Dataset Profile Sections.

(** ** Session state, lines 80-92 *)

(** [current_section]: ['A'], ['B'], ['C'] or ['ALL']. *)
Inductive View := ViewSec (id : SecId) | ViewAll.

Record Session := mkSession {
  sections : Store;
  current : View;
  coord_version : nat
}.

Definition init_session : Session := mkSession init_store (ViewSec SecA) 0.

(** ** The widgets *)

Inductive ButtonKey :=
| NavBtn (v : View)          (** [nav_a], [nav_b], [nav_c], [nav_all] *)
| ApplyBtn (id : SecId)      (** [apply_{current}] *)
| ResetBtn (id : SecId)      (** [reset_{current}] *)
| CompareBtn (id : SecId)    (** [compare_{current}] *)
| PrevBtn (id : SecId)       (** [prev_{current}] *)
| NextBtn (id : SecId).      (** [next_{current}] *)

Inductive CoordField := Lat1 | Lon1 | Lat2 | Lon2.

Record UI := mkUI {
  ui_button : ButtonKey -> bool;
  ui_map : SecId -> option GeoPoint;
  ui_coord : SecId -> nat -> CoordField -> Q -> Q;
  ui_npts : SecId -> nat;
  ui_design : SecId -> DesignField -> nat -> Q -> Q
}.

(** Streamlit enforces [min_value=2, max_value=20] on the point count. *)
Definition ui_ok (ui : UI) : Prop := forall id, (2 <= ui_npts ui id <= 20)%nat.

(** No navigation button of the sidebar was pressed in this run. *)
Definition no_nav (ui : UI) : Prop := forall v, ui_button ui (NavBtn v) = false.

(** ** The pass monad *)

Inductive Outcome (A : Type) := Done (a : A) | Reran | Raised.
Arguments Done {A} a.
Arguments Reran {A}.
Arguments Raised {A}.

Definition Pass (A : Type) := Session -> Outcome A * Session.

Definition ret {A} (a : A) : Pass A := fun st => (Done a, st).

Definition bind {A B} (m : Pass A) (k : A -> Pass B) : Pass B :=
  fun st =>
    match m st with
    | (Done a, st') => k a st'
    | (Reran, st') => (Reran, st')
    | (Raised, st') => (Raised, st')
    end.

Declare Scope pass_scope.
Delimit Scope pass_scope with pass.
Notation "x <- m ;; k" := (bind m (fun x => k))
  (at level 61, m at next level, right associativity) : pass_scope.
Notation "m ;; k" := (bind m (fun _ => k))
  (at level 61, right associativity) : pass_scope.
Open Scope pass_scope.

Definition get : Pass Session := fun st => (Done st, st).
Definition modify (f : Session -> Session) : Pass unit := fun st => (Done tt, f st).
Definition rerun {A} : Pass A := fun st => (Reran, st).
Definition raise {A} : Pass A := fun st => (Raised, st).

(** An operation of the code that raises on [None]. *)
Definition lift {A} (o : option A) : Pass A :=
  match o with Some a => ret a | None => raise end.

Definition get_sec (id : SecId) : Pass Section :=
  st <- get ;; ret (sections st id).

Definition put_sec (id : SecId) (s : Section) : Pass unit :=
  modify (fun st => mkSession (store_set (sections st) id s) (current st) (coord_version st)).

Definition set_current (v : View) : Pass unit :=
  modify (fun st => mkSession (sections st) v (coord_version st)).

Definition bump_version : Pass unit :=
  modify (fun st => mkSession (sections st) (current st) (S (coord_version st))).

(** ** The steps of a run *)

(** Lines 104-126: the navigation button of view [v]. *)
Definition nav_step (ui : UI) (v : View) : Pass unit :=
  if ui_button ui (NavBtn v) then set_current v ;; rerun else ret tt.

(** Lines 170-174: the three metrics of a completed section,
    [bathy_dist[-1]], [abs(min(bathy_depth))], [abs(min(user_depth))]. *)
Definition section_metrics (s : Section) : option (Q * Q * Q) :=
  match last_elem (bathy_dist s), list_min (bathy_depth s), list_min (user_depth s) with
  | Some total, Some mb, Some mu => Some (total, Qabs mb, Qabs mu)
  | _, _, _ => None
  end.

(** Lines 129-207: the "All Results" view, read only; it raises when a
    completed section has an empty curve. *)
Definition all_results (st : Store) : option (list (SecId * (Q * Q * Q))) :=
  map_option (fun id => option_map (pair id) (section_metrics (st id)))
    (filter (fun id => completed (st id)) all_ids).

Definition all_view : Pass unit :=
  st <- get ;; _ <- lift (all_results (sections st)) ;; ret tt.

(** Lines 248-262: the last map click. *)
Definition click_step (ui : UI) (id : SecId) : Pass unit :=
  match ui_map ui id with
  | None => ret tt
  | Some p =>
      sec <- get_sec id ;;
      match click_point sec p with
      | None => ret tt
      | Some sec' => put_sec id sec' ;; bump_version ;; rerun
      end
  end.

(** Lines 266-282: the manual coordinates, shown with the current points
    (or the defaults of the code) under keys that carry [coord_version]. *)
Definition manual_coords (ui : UI) (id : SecId) : Pass (GeoPoint * GeoPoint) :=
  st <- get ;;
  let v := coord_version st in
  let pts := points (sections st id) in
  let d1 := match pts with p :: _ => p | [] => {| lat := 41.175354; lon := 29.626743 |} end in
  let d2 := match pts with _ :: p :: _ => p | _ => {| lat := 41.175000; lon := 29.627000 |} end in
  ret ({| lat := ui_coord ui id v Lat1 (lat d1); lon := ui_coord ui id v Lon1 (lon d1) |},
       {| lat := ui_coord ui id v Lat2 (lat d2); lon := ui_coord ui id v Lon2 (lon d2) |}).

(** Lines 286-288. *)
Definition apply_step (ui : UI) (id : SecId) (p1 p2 : GeoPoint) : Pass unit :=
  if ui_button ui (ApplyBtn id) then
    sec <- get_sec id ;; put_sec id (apply_points sec p1 p2) ;; rerun
  else ret tt.

(** Lines 290-298. *)
Definition reset_step (ui : UI) (id : SecId) : Pass unit :=
  if ui_button ui (ResetBtn id) then
    sec <- get_sec id ;; put_sec id (reset_section sec) ;; bump_version ;; rerun
  else ret tt.

(** Lines 310-314: extract once, when the section has no profile yet. *)
Definition bathy_step `{MathLib} (ds : option Dataset) (id : SecId) : Pass unit :=
  sec <- get_sec id ;;
  match points sec, bathy_dist sec with
  | [p1; p2], [] => put_sec id (store_profile sec (extract_depth_profile ds p1 p2 default_num_points))
  | _, _ => ret tt
  end.

(** Lines 330-333, with the write of line 332 before the computation of
    line 333. *)
Definition regen_step (id : SecId) (num_pts : nat) : Pass unit :=
  sec <- get_sec id ;;
  if regen_needed sec num_pts then
    max_dist <- lift (last_elem (bathy_dist sec)) ;;
    ud <- lift (default_user_dist max_dist num_pts) ;;
    put_sec id (with_user_dist sec ud) ;;
    sec <- get_sec id ;;
    uh <- lift (map_option (fun d => np_interp d (bathy_dist sec) (bathy_depth sec))
                           (user_dist sec)) ;;
    put_sec id (with_user_depth sec uh)
  else ret tt.

(** Lines 337-344, row by row. *)
Fixpoint edit_rows (ui : UI) (id : SecId) (i k : nat) : Pass unit :=
  match k with
  | O => ret tt
  | S k' =>
      sec <- get_sec id ;;
      d <- lift (nth_error (user_dist sec) i) ;;
      ud <- lift (list_set (user_dist sec) i (ui_design ui id FieldDist i d)) ;;
      put_sec id (with_user_dist sec ud) ;;
      sec <- get_sec id ;;
      h <- lift (nth_error (user_depth sec) i) ;;
      uh <- lift (list_set (user_depth sec) i (ui_design ui id FieldDepth i h)) ;;
      put_sec id (with_user_depth sec uh) ;;
      edit_rows ui id (S i) k'
  end.

(** Line 349 and its [st.rerun()]. *)
Definition compare_step (ui : UI) (id : SecId) : Pass unit :=
  if ui_button ui (CompareBtn id) then
    sec <- get_sec id ;; put_sec id (mark_completed sec) ;; rerun
  else ret tt.

Definition prev_id (id : SecId) : SecId := match id with SecC => SecB | _ => SecA end.
Definition next_id (id : SecId) : SecId := match id with SecA => SecB | _ => SecC end.

(** Lines 363-375: the buttons of a completed section. *)
Definition prev_next_step (ui : UI) (id : SecId) : Pass unit :=
  (match id with
   | SecB | SecC =>
       if ui_button ui (PrevBtn id) then set_current (ViewSec (prev_id id)) ;; rerun
       else ret tt
   | SecA => ret tt
   end) ;;
  (match id with
   | SecA | SecB =>
       if ui_button ui (NextBtn id) then set_current (ViewSec (next_id id)) ;; rerun
       else ret tt
   | SecC => ret tt
   end).

(** Lines 316-375: steps 3 and 4, once the section has a profile. *)
Definition design_step (ui : UI) (id : SecId) : Pass unit :=
  sec <- get_sec id ;;
  match bathy_dist sec with
  | [] => ret tt
  | _ =>
      let num_pts := ui_npts ui id in
      regen_step id num_pts ;;
      edit_rows ui id 0 num_pts ;;
      compare_step ui id ;;
      sec <- get_sec id ;;
      if completed sec then prev_next_step ui id else ret tt
  end.

(** Lines 210-375: the editing view of section [id]. *)
Definition edit_view `{MathLib} (ds : option Dataset) (ui : UI) (id : SecId) : Pass unit :=
  click_step ui id ;;
  pts <- manual_coords ui id ;;
  apply_step ui id (fst pts) (snd pts) ;;
  reset_step ui id ;;
  sec <- get_sec id ;;
  if Nat.eqb (length (points sec)) 2 then bathy_step ds id ;; design_step ui id
  else ret tt.

(** Lines 94-127 and the dispatch of line 129: one run of
    [render_profile_section], with the dataset [load_bathymetry] returned. *)
Definition render `{MathLib} (ds : option Dataset) (ui : UI) : Pass unit :=
  st <- get ;;
  let cur := current st in
  nav_step ui (ViewSec SecA) ;;
  nav_step ui (ViewSec SecB) ;;
  nav_step ui (ViewSec SecC) ;;
  nav_step ui ViewAll ;;
  match cur with
  | ViewAll => all_view
  | ViewSec id => edit_view ds ui id
  end.

(** ** Runs of a session *)

(** The sessions a user can reach from the initial state by runs whose
    widgets respect their bounds.  A run that raised leaves its writes in
    place and the next interaction starts a new run. *)
Inductive reachable `{MathLib} (ds : option Dataset) : Session -> Prop :=
| reach_init : reachable ds init_session
| reach_run st ui : reachable ds st -> ui_ok ui -> reachable ds (snd (render ds ui st)).

(** ** Streamlit's rerun loop

    [st.rerun()] restarts the script at once.  A button is [True] only in
    the run that follows its click, so the restarted runs see every button
    released; the map keeps its last click and the number inputs their
    values.  [run_until_done fuel] runs the script until a run reaches its
    end or raises, and returns [None] when [fuel] runs are not enough. *)
Definition release (ui : UI) : UI :=
  mkUI (fun _ => false) (ui_map ui) (ui_coord ui) (ui_npts ui) (ui_design ui).

Definition ui_idle (ui : UI) : Prop := forall b, ui_button ui b = false.

Fixpoint run_until_done {L : MathLib} (fuel : nat) (ds : option Dataset) (ui : UI) (st : Session)
  : option (Outcome unit * Session) :=
  match fuel with
  | O => None
  | S fuel' =>
      match render ds ui st with
      | (Reran, st') => run_until_done fuel' ds (release ui) st'
      | r => Some r
      end
  end.

(** Session [st'] is [st] with section [id] replaced by [s]. *)
Definition sec_update (st : Session) (id : SecId) (s : Section) (st' : Session) : Prop :=
  current st' = current st /\ coord_version st' = coord_version st /\
  sections st' id = s /\ forall j, j <> id -> sections st' j = sections st j.

(** ** Example inputs

    A UI whose widgets return the values they are shown with, with five
    design points, the map reporting [click] and the buttons [pressed];
    a session whose section A holds the two default points of the code;
    and the three runs of a user who clicks twice on the map and then
    presses "Compare & Save". *)
Definition demo_ui (click : option GeoPoint) (pressed : ButtonKey -> bool) : UI :=
  mkUI pressed (fun _ => click) (fun _ _ _ d => d) (fun _ => 5%nat) (fun _ _ _ d => d).

Definition idle (b : ButtonKey) : bool := false.

Definition press (k : ButtonKey) (b : ButtonKey) : bool :=
  match k, b with
  | ResetBtn SecA, ResetBtn SecA | ApplyBtn SecA, ApplyBtn SecA
  | CompareBtn SecA, CompareBtn SecA | NextBtn SecA, NextBtn SecA
  | NavBtn ViewAll, NavBtn ViewAll => true
  | _, _ => false
  end.

Definition demo_two_points : Session :=
  mkSession (store_set init_store SecA (mkSection [Demo.demo_p1; Demo.demo_p2] [] [] [] [] false))
            (ViewSec SecA) 2.

(** Section A with its first point only. *)
Definition demo_one_point : Session :=
  mkSession (store_set init_store SecA (mkSection [Demo.demo_p1] [] [] [] [] false))
            (ViewSec SecA) 1.

Definition demo_runs `{MathLib} (ds : option Dataset) : Session :=
  let st1 := snd (render ds (demo_ui (Some Demo.demo_p1) idle) init_session) in
  let st2 := snd (render ds (demo_ui (Some Demo.demo_p2) idle) st1) in
  snd (render ds (demo_ui (Some Demo.demo_p2) (press (CompareBtn SecA))) st2).

(** Section A with a profile of the line between the two default points,
    and a UI that types a new line into the manual fields and presses
    "Apply Coordinates". *)
Definition demo_profiled : Session :=
  mkSession (store_set init_store SecA
               (mkSection [Demo.demo_p1; Demo.demo_p2] [0; 40] [-12; -10] [] [] false))
            (ViewSec SecA) 2.

Definition demo_apply_ui : UI :=
  mkUI (press (ApplyBtn SecA)) (fun _ => None)
    (fun _ _ f _ => match f with Lat1 => 41.176 | Lon1 => 29.626 | Lat2 => 41.174 | Lon2 => 29.628 end)
    (fun _ => 5%nat) (fun _ _ _ d => d).

(** ** Well-formed sections *)

Section WellFormed.
Variable ds : option Dataset.

(** At most two points; a profile only with two points, only when a
    dataset was loaded, and with as many depths as distances; a design
    curve with as many depths as distances; a completed section has both a
    profile and a design curve. *)
Definition sec_wf (s : Section) : Prop :=
  (length (points s) <= 2)%nat /\
  (bathy_dist s <> [] -> length (points s) = 2%nat /\ length (bathy_dist s) = length (bathy_depth s)) /\
  (ds = None -> bathy_dist s = []) /\
  length (user_dist s) = length (user_depth s) /\
  (completed s = true -> bathy_dist s <> [] /\ user_depth s <> []).

Definition session_wf (st : Session) : Prop := forall id, sec_wf (sections st id).

Lemma empty_section_wf : sec_wf empty_section.
Proof.
  unfold sec_wf; simpl. split; [lia|]. split; [congruence|]. split; [reflexivity|].
  split; [reflexivity|]. discriminate.
Qed.

Lemma init_session_wf : session_wf init_session.
Proof. intros id. exact empty_section_wf. Qed.

Lemma store_set_wf_except st id s :
  (forall j, j <> id -> sec_wf (sections st j)) -> sec_wf s ->
  forall c v, session_wf (mkSession (store_set (sections st) id s) c v).
Proof.
  intros Hst Hs c v j. simpl. unfold store_set.
  destruct (SecId_eqb_spec id j); subst; auto.
Qed.

Lemma store_set_wf st id s : session_wf st -> sec_wf s ->
  session_wf (mkSession (store_set (sections st) id s) (current st) (coord_version st)).
Proof. intros Hst Hs. apply store_set_wf_except; auto. Qed.

Lemma session_wf_fields st ss v n : session_wf st -> ss = sections st -> session_wf (mkSession ss v n).
Proof. intros H ->. exact H. Qed.

(** The finishing step of the lemmas below: each goal is a field of
    [sec_wf] of the old section. *)
Ltac wf_finish H2 H3 H4 H5 :=
  repeat split; auto; try lia;
  try (match goal with H : bathy_dist _ <> [] |- _ => now destruct (H2 H) end);
  try (match goal with H : completed _ = true |- _ => now destruct (H5 H) end);
  try (now apply H3).

Lemma click_point_wf s p s' : sec_wf s -> click_point s p = Some s' -> sec_wf s'.
Proof.
  intros [H1 [H2 [H3 [H4 H5]]]] Hc. unfold click_point in Hc. cbv zeta in Hc.
  destruct (Nat.ltb_spec (length (points s)) 2) as [Hl|]; [|discriminate].
  match type of Hc with (if ?b then _ else _) = _ => destruct b end; [|discriminate].
  injection Hc as <-. unfold sec_wf; simpl. rewrite length_app. simpl.
  wf_finish H2 H3 H4 H5.
  all: destruct (H2 H); lia.
Qed.

Lemma apply_points_wf s p1 p2 : sec_wf s -> sec_wf (apply_points s p1 p2).
Proof. intros [H1 [H2 [H3 [H4 H5]]]]. unfold sec_wf; simpl. wf_finish H2 H3 H4 H5. Qed.

Lemma reset_section_wf s : sec_wf (reset_section s).
Proof. exact empty_section_wf. Qed.

Lemma store_profile_wf s r :
  sec_wf s -> length (points s) = 2%nat -> bathy_dist s = [] ->
  (forall d h, r = Some (d, h) -> length d = length h /\ ds <> None) ->
  sec_wf (store_profile s r).
Proof.
  intros Hwf Hp Hb Hr. unfold store_profile.
  destruct r as [[[|d0 d] [|h0 h]]|]; try exact Hwf.
  destruct (Hr _ _ eq_refl) as [Hl Hds].
  destruct Hwf as [H1 [H2 [H3 [H4 H5]]]].
  unfold sec_wf; simpl. repeat split; auto; try lia; try congruence.
  all: destruct (H5 H); congruence.
Qed.

Lemma mark_completed_wf s :
  sec_wf s -> bathy_dist s <> [] -> user_depth s <> [] -> sec_wf (mark_completed s).
Proof. intros [H1 [H2 [H3 [H4 H5]]]] Hb Hu. unfold sec_wf; simpl. wf_finish H2 H3 H4 H5. Qed.

Lemma with_user_dist_wf s ud :
  sec_wf s -> length ud = length (user_depth s) -> sec_wf (with_user_dist s ud).
Proof. intros [H1 [H2 [H3 [H4 H5]]]] Hl. unfold sec_wf; simpl. wf_finish H2 H3 H4 H5. Qed.

Lemma with_user_depth_wf s uh :
  sec_wf s -> length (user_dist s) = length uh -> (completed s = true -> uh <> []) ->
  sec_wf (with_user_depth s uh).
Proof.
  intros [H1 [H2 [H3 [H4 H5]]]] Hl Hc. unfold sec_wf; simpl. wf_finish H2 H3 H4 H5.
  all: now apply Hc.
Qed.

Lemma with_user_curves_wf s ud uh :
  sec_wf s -> length ud = length uh -> (completed s = true -> uh <> []) ->
  sec_wf (with_user_depth (with_user_dist s ud) uh).
Proof.
  intros [H1 [H2 [H3 [H4 H5]]]] Hl Hc. unfold sec_wf; simpl. wf_finish H2 H3 H4 H5.
  all: now apply Hc.
Qed.

End WellFormed.

Section Runs.
Context `{L : MathLib} (ds : option Dataset).

(** ** A precondition calculus for runs that never raise

    [wp m Q st]: from [st], [m] does not raise, a rerun leaves a
    well-formed session, and a normal end satisfies [Q]. *)
Definition wp {A} (m : Pass A) (Q : A -> Session -> Prop) (st : Session) : Prop :=
  match m st with
  | (Done a, st') => Q a st'
  | (Reran, st') => session_wf ds st'
  | (Raised, _) => False
  end.

Lemma wp_bind {A B} (m : Pass A) (k : A -> Pass B) Q st :
  wp m (fun a st' => wp (k a) Q st') st -> wp (bind m k) Q st.
Proof. unfold wp, bind. destruct (m st) as [[a| |] st']; auto. Qed.

Lemma wp_ret {A} (a : A) Q st : Q a st -> wp (ret a) Q st.
Proof. auto. Qed.

Lemma wp_get Q st : Q st st -> wp get Q st.
Proof. auto. Qed.

Lemma wp_modify f Q st : Q tt (f st) -> wp (modify f) Q st.
Proof. auto. Qed.

Lemma wp_rerun {A} Q st : session_wf ds st -> wp (@rerun A) Q st.
Proof. auto. Qed.

Lemma wp_lift {A} (o : option A) a Q st : o = Some a -> Q a st -> wp (lift o) Q st.
Proof. intros ->. auto. Qed.

Lemma wp_mono {A} (m : Pass A) (Q Q' : A -> Session -> Prop) st :
  (forall a st', Q a st' -> Q' a st') -> wp m Q st -> wp m Q' st.
Proof. unfold wp. destruct (m st) as [[a| |] st']; auto. Qed.

(** Sequencing: an intermediate postcondition for [m ;; k]. *)
Lemma wp_seq {A B} (m : Pass A) (k : A -> Pass B) P Q st :
  wp m P st -> (forall a st', P a st' -> wp (k a) Q st') -> wp (bind m k) Q st.
Proof. intros Hm Hk. apply wp_bind. eapply wp_mono; [exact Hk|exact Hm]. Qed.

Lemma wp_if {A} (b : bool) (m1 m2 : Pass A) Q st :
  (b = true -> wp m1 Q st) -> (b = false -> wp m2 Q st) -> wp (if b then m1 else m2) Q st.
Proof. destruct b; auto. Qed.

Lemma store_set_eq (st : Store) id s : store_set st id s id = s.
Proof. unfold store_set. now destruct (SecId_eqb_spec id id). Qed.

Lemma store_set_neq (st : Store) id j s : id <> j -> store_set st id s j = st j.
Proof. intros H. unfold store_set. now destruct (SecId_eqb_spec id j). Qed.

(** Splits a run into its steps; what is left are the facts about the
    section operations. *)
Ltac wp_step :=
  repeat match goal with
    | |- wp (bind _ _) _ _ => apply wp_bind
    | |- wp (ret _) _ _ => apply wp_ret
    | |- wp get _ _ => apply wp_get
    | |- wp (modify _) _ _ => apply wp_modify
    | |- wp rerun _ _ => apply wp_rerun
    | |- wp (if _ then _ else _) _ _ => apply wp_if; intros ?
    | |- wp (get_sec _) _ _ => unfold get_sec
    | |- wp (put_sec _ _) _ _ => unfold put_sec
    | |- wp (set_current _) _ _ => unfold set_current
    | |- wp bump_version _ _ => unfold bump_version
    end.

Definition keeps_wf {A} (m : Pass A) : Prop :=
  forall st, session_wf ds st -> wp m (fun _ => session_wf ds) st.

Lemma nav_step_wf ui v : keeps_wf (nav_step ui v).
Proof. intros st H. unfold nav_step. wp_step; exact H. Qed.

Lemma manual_coords_wf ui id : keeps_wf (manual_coords ui id).
Proof. intros st H. unfold manual_coords. wp_step. exact H. Qed.

Lemma click_step_wf ui id : keeps_wf (click_step ui id).
Proof.
  intros st H. unfold click_step. destruct (ui_map ui id) as [p|]; wp_step; [|exact H].
  destruct (click_point (sections st id) p) as [s'|] eqn:E; wp_step; [|exact H].
  apply store_set_wf; auto. exact (click_point_wf _ _ _ _ (H id) E).
Qed.

Lemma apply_step_wf ui id p1 p2 : keeps_wf (apply_step ui id p1 p2).
Proof.
  intros st H. unfold apply_step. wp_step; [|exact H].
  apply store_set_wf; auto. apply apply_points_wf, H.
Qed.

Lemma reset_step_wf ui id : keeps_wf (reset_step ui id).
Proof.
  intros st H. unfold reset_step. wp_step; [|exact H].
  apply (session_wf_fields ds (mkSession (store_set (sections st) id (reset_section (sections st id)))
                                      (current st) (coord_version st))); [|reflexivity].
  apply store_set_wf; auto. apply reset_section_wf.
Qed.

Lemma bathy_step_wf id : keeps_wf (bathy_step ds id).
Proof.
  intros st H. unfold bathy_step. wp_step.
  destruct (points (sections st id)) as [|p1 [|p2 [|p3 ps]]] eqn:Ep; try (wp_step; exact H).
  destruct (bathy_dist (sections st id)) eqn:Eb; wp_step; [|exact H].
  apply store_set_wf; auto. apply store_profile_wf; auto.
  - rewrite Ep. reflexivity.
  - intros d h Hr. split; [exact (extract_lengths_eq _ _ _ _ _ _ Hr)|].
    intros ->. discriminate.
Qed.

Lemma prev_next_step_wf ui id : keeps_wf (prev_next_step ui id).
Proof. intros st H. unfold prev_next_step. destruct id; wp_step; exact H. Qed.

(** What the design editor needs of section [id]: a profile, and a design
    curve of [n] points. *)
Definition design_ready (id : SecId) (n : nat) (st : Session) : Prop :=
  session_wf ds st /\ bathy_dist (sections st id) <> [] /\
  length (user_dist (sections st id)) = n /\ length (user_depth (sections st id)) = n.

Lemma regen_step_wp id n st :
  session_wf ds st -> bathy_dist (sections st id) <> [] -> (2 <= n)%nat ->
  wp (regen_step id n) (fun _ => design_ready id n) st.
Proof.
  intros H Hb Hn. unfold regen_step. wp_step.
  - set (sec := sections st id) in *.
    destruct (H id) as [H1 [H2 [H3 [H4 H5]]]]. fold sec in H1, H2, H3, H4, H5.
    apply (wp_lift _ (last (bathy_dist sec) 0)).
    { destruct (bathy_dist sec); [congruence|reflexivity]. }
    apply wp_bind, (wp_lift _ _ _ _ (default_user_dist_some _ _ Hn)).
    set (ud := map _ (seq 0 n)). wp_step. simpl. rewrite store_set_eq.
    cbn [bathy_dist bathy_depth user_dist with_user_dist].
    destruct (map_option_Some (fun d => np_interp d (bathy_dist sec) (bathy_depth sec)) ud)
      as [uh [E1 [E2 _]]].
    { intros x _ HN. destruct (np_interp_Some x (bathy_dist sec) (bathy_depth sec) Hb
        (proj2 (H2 Hb))) as [y Hy]. congruence. }
    assert (Hud : length ud = n) by (unfold ud; now rewrite length_map, length_seq).
    apply (wp_lift _ uh _ _ E1). apply wp_modify. unfold design_ready. simpl.
    rewrite store_set_eq. cbn [bathy_dist user_dist user_depth with_user_dist with_user_depth].
    split; [|split; [exact Hb|split; lia]].
    apply (store_set_wf_except ds (mkSession (store_set (sections st) id (with_user_dist sec ud))
                                             (current st) (coord_version st))).
    + intros j Hj. simpl. rewrite store_set_neq by congruence. apply H.
    + apply with_user_curves_wf; [exact (H id)|lia|].
      intros _ Hnil. subst uh. simpl in E2. lia.
  - match goal with Hr0 : regen_needed _ _ = false |- _ => rename Hr0 into Hr end.
    assert (Hl : length (user_dist (sections st id)) = n).
    { unfold regen_needed in Hr. apply orb_false_iff in Hr as [_ Hr].
      apply negb_false_iff, Nat.eqb_eq in Hr. exact Hr. }
    destruct (H id) as [_ [_ [_ [H4 _]]]].
    split; [exact H|split; [exact Hb|split; lia]].
Qed.

Lemma put_user_curves_ready st id n ud uh :
  session_wf ds st -> bathy_dist (sections st id) <> [] ->
  length ud = n -> length uh = n -> (0 < n)%nat ->
  design_ready id n
    (mkSession (store_set (store_set (sections st) id (with_user_dist (sections st id) ud)) id
                  (with_user_depth (with_user_dist (sections st id) ud) uh))
               (current st) (coord_version st)).
Proof.
  intros H Hb Hu Hh Hn. unfold design_ready. simpl. rewrite store_set_eq.
  cbn [bathy_dist user_dist user_depth with_user_dist with_user_depth].
  split; [|split; [exact Hb|split; assumption]].
  apply (store_set_wf_except ds (mkSession (store_set (sections st) id (with_user_dist (sections st id) ud))
                                           (current st) (coord_version st))).
  - intros j Hj. simpl. rewrite store_set_neq by congruence. apply H.
  - apply with_user_curves_wf; [exact (H id)|lia|]. intros _ ->. simpl in Hh. lia.
Qed.

Lemma edit_rows_wp ui id n k : forall i st,
  design_ready id n st -> (i + k <= n)%nat ->
  wp (edit_rows ui id i k) (fun _ => design_ready id n) st.
Proof.
  induction k as [|k IH]; intros i st Hr Hk; simpl; wp_step; [exact Hr|].
  destruct Hr as [H [Hb [Hd Hh]]].
  set (sec := sections st id) in *.
  apply (wp_lift _ (nth i (user_dist sec) 0)); [apply nth_error_nth_lt; lia|].
  destruct (list_set_spec (user_dist sec) i (ui_design ui id FieldDist i (nth i (user_dist sec) 0)))
    as [ud [E1 [L1 _]]]; [lia|].
  apply wp_bind, (wp_lift _ ud _ _ E1). wp_step. simpl. rewrite store_set_eq.
  cbn [user_depth with_user_dist].
  apply (wp_lift _ (nth i (user_depth sec) 0)); [apply nth_error_nth_lt; lia|].
  destruct (list_set_spec (user_depth sec) i (ui_design ui id FieldDepth i (nth i (user_depth sec) 0)))
    as [uh [E2 [L2 _]]]; [lia|].
  apply wp_bind, (wp_lift _ uh _ _ E2). wp_step. simpl.
  apply IH; [|lia]. apply put_user_curves_ready; auto; lia.
Qed.

Lemma compare_step_wp ui id n st :
  design_ready id n st -> (2 <= n)%nat -> wp (compare_step ui id) (fun _ => session_wf ds) st.
Proof.
  intros [H [Hb [Hd Hh]]] Hn. unfold compare_step. wp_step; [|exact H].
  apply store_set_wf; auto. apply mark_completed_wf; [apply H|exact Hb|].
  intros He. rewrite He in Hh. simpl in Hh. lia.
Qed.

Lemma design_step_wp ui id st :
  session_wf ds st -> (2 <= ui_npts ui id)%nat ->
  wp (design_step ui id) (fun _ => session_wf ds) st.
Proof.
  intros H Hn. unfold design_step. wp_step.
  destruct (bathy_dist (sections st id)) as [|b bs] eqn:Eb; [wp_step; exact H|].
  eapply wp_seq; [apply regen_step_wp; auto; congruence|]. intros ? st1 H1.
  eapply wp_seq; [apply (edit_rows_wp _ _ (ui_npts ui id) _ 0); auto|]. intros ? st2 H2.
  eapply wp_seq; [apply (compare_step_wp _ _ _ _ H2 Hn)|]. intros ? st3 H3.
  wp_step; [|exact H3]. apply prev_next_step_wf, H3.
Qed.

Lemma all_results_Some st :
  session_wf ds st -> exists r, all_results (sections st) = Some r.
Proof.
  intros H. unfold all_results.
  destruct (map_option_Some (fun id => option_map (pair id) (section_metrics (sections st id)))
              (filter (fun id => completed (sections st id)) all_ids)) as [r [E _]]; [|eauto].
  intros id Hin HN. apply filter_In in Hin as [_ Hc].
  destruct (H id) as [_ [H2 [_ [_ H5]]]]. destruct (H5 Hc) as [Hb Hu].
  destruct (H2 Hb) as [_ Hl]. unfold section_metrics in HN.
  destruct (bathy_dist (sections st id)) as [|b bs]; [congruence|].
  destruct (bathy_depth (sections st id)) as [|h hs]; [simpl in Hl; lia|].
  destruct (user_depth (sections st id)) as [|u us]; [congruence|]. discriminate.
Qed.

Lemma all_view_wf : keeps_wf all_view.
Proof.
  intros st H. unfold all_view. wp_step. destruct (all_results_Some st H) as [r E].
  apply (wp_lift _ r _ _ E). wp_step. exact H.
Qed.

Lemma edit_view_wp ui id st :
  session_wf ds st -> ui_ok ui -> wp (edit_view ds ui id) (fun _ => session_wf ds) st.
Proof.
  intros H Hui. unfold edit_view.
  eapply wp_seq; [apply click_step_wf, H|]. intros ? st1 H1.
  eapply wp_seq; [apply manual_coords_wf, H1|]. intros pts st2 H2.
  eapply wp_seq; [apply apply_step_wf, H2|]. intros ? st3 H3.
  eapply wp_seq; [apply reset_step_wf, H3|]. intros ? st4 H4.
  wp_step; [|exact H4].
  eapply wp_mono; [|apply bathy_step_wf, H4]. intros ? st5 H5.
  apply design_step_wp; [exact H5|]. apply Hui.
Qed.

Lemma render_wp ui st :
  session_wf ds st -> ui_ok ui -> wp (render ds ui) (fun _ => session_wf ds) st.
Proof.
  intros H Hui. unfold render. apply wp_bind, wp_get. cbv beta zeta.
  eapply wp_seq; [apply nav_step_wf, H|]. intros ? st1 H1.
  eapply wp_seq; [apply nav_step_wf, H1|]. intros ? st2 H2.
  eapply wp_seq; [apply nav_step_wf, H2|]. intros ? st3 H3.
  eapply wp_seq; [apply nav_step_wf, H3|]. intros ? st4 H4.
  destruct (current st); [apply edit_view_wp; auto | apply all_view_wf, H4].
Qed.

(** The postcondition [fun _ => session_wf ds] gives a run that does not
    raise and ends in a well-formed session. *)
Lemma wf_post {A} (m : Pass A) st :
  wp m (fun _ => session_wf ds) st -> fst (m st) <> Raised /\ session_wf ds (snd (m st)).
Proof. unfold wp. destruct (m st) as [[a| |] st']; simpl; intuition congruence. Qed.

Lemma reachable_wf st : reachable ds st -> session_wf ds st.
Proof.
  induction 1 as [|st ui _ IH Hui]; [apply init_session_wf|].
  exact (proj2 (wf_post _ _ (render_wp ui st IH Hui))).
Qed.

(** C1: No run of a reachable session raises: every lookup of the code
    ([bathy_dist[-1]], [user_dist[i]], [min(...)], [np.interp]) is defined
    on the sessions the application can reach. *)
Theorem render_never_raises ui st :
  reachable ds st -> ui_ok ui -> fst (render ds ui st) <> Raised.
Proof. intros H Hui. exact (proj1 (wf_post _ _ (render_wp ui st (reachable_wf st H) Hui))). Qed.

(** C19: A section of a reachable session never holds more than two points. *)
Theorem reachable_points_le_2 st id :
  reachable ds st -> (length (points (sections st id)) <= 2)%nat.
Proof. intros H. exact (proj1 (reachable_wf st H id)). Qed.

(** C8: A completed section of a reachable session has its two points, a
    profile and a design curve: "Compare & Complete" cannot complete a
    section with fewer than two points. *)
Theorem reachable_completed_ready st id :
  reachable ds st -> completed (sections st id) = true ->
  length (points (sections st id)) = 2%nat /\ bathy_dist (sections st id) <> [] /\
  user_depth (sections st id) <> [].
Proof.
  intros H Hc. destruct (reachable_wf st H id) as [_ [H2 [_ [_ H5]]]].
  destruct (H5 Hc) as [Hb Hu]. exact (conj (proj1 (H2 Hb)) (conj Hb Hu)).
Qed.

(** C20: In a reachable session a stored profile has one depth per
    distance, and the design curve one depth per distance. *)
Theorem reachable_lengths st id :
  reachable ds st ->
  (bathy_dist (sections st id) <> [] ->
   length (bathy_dist (sections st id)) = length (bathy_depth (sections st id))) /\
  length (user_dist (sections st id)) = length (user_depth (sections st id)).
Proof.
  intros H. destruct (reachable_wf st H id) as [_ [H2 [_ [H4 _]]]].
  split; [intros Hb; exact (proj2 (H2 Hb))|exact H4].
Qed.

(** C21: Without a dataset no section of a reachable session gets a
    profile, so none is ever completed. *)
Theorem reachable_no_dataset st :
  ds = None -> reachable ds st ->
  completed_count (sections st) = 0%nat /\ forall id, bathy_dist (sections st id) = [].
Proof.
  intros Hd H. assert (Hb : forall id, bathy_dist (sections st id) = [])
    by (intros id; exact (proj1 (proj2 (proj2 (reachable_wf st H id))) Hd)).
  split; [|exact Hb].
  assert (Hc : forall id, completed (sections st id) = false).
  { intros id. destruct (completed (sections st id)) eqn:Ec; [|reflexivity].
    destruct (proj2 (proj2 (proj2 (proj2 (reachable_wf st H id)))) Ec) as [Hne _].
    now rewrite Hb in Hne. }
  unfold completed_count, all_ids. simpl. now rewrite !Hc.
Qed.

End Runs.

(** ** The store operations refine the pure section operations *)

Lemma sec_update_put st id s :
  sec_update st id s (mkSession (store_set (sections st) id s) (current st) (coord_version st)).
Proof.
  split; [reflexivity|split; [reflexivity|split]]; cbn [sections].
  - apply store_set_eq.
  - intros j Hj. now apply store_set_neq.
Qed.

Lemma sec_update_trans st id s1 st1 s2 st2 :
  sec_update st id s1 st1 -> sec_update st1 id s2 st2 -> sec_update st id s2 st2.
Proof.
  intros [C1 [V1 [_ O1]]] [C2 [V2 [S2 O2]]].
  split; [congruence|split; [congruence|split; [exact S2|]]].
  intros j Hj. rewrite O2, O1; auto.
Qed.

Lemma sec_update_refl st id : sec_update st id (sections st id) st.
Proof. repeat split; auto. Qed.

(** The row-by-row writes of the design table (lines 337-344) refine the
    pure [design_edits_from] of [Sections]: when it succeeds the run goes
    on with exactly that section stored and nothing else changed, and when
    it fails the run raises.  The design theorems of [Sections] thereby
    apply to the render pass. *)
Lemma edit_rows_refines ui id k : forall i st,
  match design_edits_from (ui_design ui id) (sections st id) i k with
  | Some s' => exists st', edit_rows ui id i k st = (Done tt, st') /\ sec_update st id s' st'
  | None => fst (edit_rows ui id i k st) = Raised
  end.
Proof.
  induction k as [|k IH]; intros i st; [exists st; split; [reflexivity|apply sec_update_refl]|].
  cbn [design_edits_from edit_rows].
  unfold bind, lift, ret, put_sec, modify, get_sec, get. cbn.
  destruct (nth_error (user_dist (sections st id)) i) as [d|] eqn:E1; [|reflexivity].
  destruct (list_set (user_dist (sections st id)) i _) as [ud|] eqn:E2; [|reflexivity].
  rewrite store_set_eq. cbn [user_depth with_user_dist].
  destruct (nth_error (user_depth (sections st id)) i) as [h|] eqn:E3; [|reflexivity].
  destruct (list_set (user_depth (sections st id)) i _) as [uh|] eqn:E4; [|reflexivity].
  cbn.
  set (st1 := mkSession (store_set (sections st) id (with_user_dist (sections st id) ud))
                        (current st) (coord_version st)).
  set (st2 := mkSession (store_set (sections st1) id (with_user_depth (with_user_dist (sections st id) ud) uh))
                        (current st1) (coord_version st1)).
  assert (U : sec_update st id (with_user_depth (with_user_dist (sections st id) ud) uh) st2)
    by exact (sec_update_trans _ _ _ _ _ _ (sec_update_put st id _) (sec_update_put st1 id _)).
  specialize (IH (S i) st2). rewrite (proj1 (proj2 (proj2 U))) in IH.
  change (with_user_depth (with_user_dist (sections st id) ud) uh) with
    (mkSection (points (sections st id)) (bathy_dist (sections st id)) (bathy_depth (sections st id))
               ud uh (completed (sections st id))) in IH.
  destruct (design_edits_from _ _ _ _) as [s'|]; [|exact IH].
  destruct IH as [st' [R U']]. exists st'. split; [exact R|]. exact (sec_update_trans _ _ _ _ _ _ U U').
Qed.

(** The two writes of lines 332-333 refine the pure [design_regen]: the
    same section, or an exception when [design_regen] fails. *)
Lemma regen_step_refines id n st :
  match design_regen (sections st id) n with
  | Some s' => exists st', regen_step id n st = (Done tt, st') /\ sec_update st id s' st'
  | None => fst (regen_step id n st) = Raised
  end.
Proof.
  unfold design_regen, regen_step, default_design.
  unfold bind, lift, ret, put_sec, modify, get_sec, get. cbn.
  destruct (regen_needed (sections st id) n); [|exists st; split; [reflexivity|apply sec_update_refl]].
  destruct (last_elem (bathy_dist (sections st id))) as [m|]; [|reflexivity].
  destruct (default_user_dist m n) as [ud|]; [|reflexivity].
  cbn. rewrite store_set_eq. cbn [bathy_dist bathy_depth user_dist with_user_dist].
  destruct (map_option _ ud) as [uh|]; [|reflexivity].
  eexists. split; [reflexivity|].
  exact (sec_update_trans _ _ _ _ _ _ (sec_update_put st id _) (sec_update_put _ id _)).
Qed.

(** ** Traces of consecutive runs *)

Section Traces.
Context `{L : MathLib} (ds : option Dataset).

Lemma bind_Done {A B} (m : Pass A) (k : A -> Pass B) st a st1 :
  m st = (Done a, st1) -> bind m k st = k a st1.
Proof. intros E. unfold bind. now rewrite E. Qed.

Lemma bind_Reran {A B} (m : Pass A) (k : A -> Pass B) st st1 :
  m st = (Reran, st1) -> bind m k st = (Reran, st1).
Proof. intros E. unfold bind. now rewrite E. Qed.

Lemma render_edit ui st id :
  no_nav ui -> current st = ViewSec id -> render ds ui st = edit_view ds ui id st.
Proof.
  intros Hn Hc. unfold render, bind, get, nav_step. rewrite !Hn. cbn. now rewrite Hc.
Qed.

Lemma click_point_full s p : length (points s) = 2%nat -> click_point s p = None.
Proof. intros H. unfold click_point. now rewrite H. Qed.

Lemma click_step_ignored ui id st :
  (forall p, ui_map ui id = Some p -> click_point (sections st id) p = None) ->
  click_step ui id st = (Done tt, st).
Proof.
  intros H. unfold click_step. destruct (ui_map ui id) as [p|]; [|reflexivity].
  cbn. now rewrite (H p eq_refl).
Qed.

Lemma click_step_added ui id st p s' :
  ui_map ui id = Some p -> click_point (sections st id) p = Some s' ->
  click_step ui id st =
    (Reran, mkSession (store_set (sections st) id s') (current st) (S (coord_version st))).
Proof. intros Hm Hc. unfold click_step. rewrite Hm. cbn. now rewrite Hc. Qed.

Lemma render_all ui st :
  no_nav ui -> current st = ViewAll -> render ds ui st = all_view st.
Proof.
  intros Hn Hc. unfold render, bind, get, nav_step. rewrite !Hn. cbn. now rewrite Hc.
Qed.

(** *** Runs that do not rerun *)

Definition no_rerun {A} (m : Pass A) : Prop := forall st, fst (m st) <> Reran.

Lemma nr_ret {A} (a : A) : no_rerun (ret a).
Proof. intros st. discriminate. Qed.

Lemma nr_get : no_rerun get.
Proof. intros st. discriminate. Qed.

Lemma nr_modify f : no_rerun (modify f).
Proof. intros st. discriminate. Qed.

Lemma nr_lift {A} (o : option A) : no_rerun (lift o).
Proof. intros st. destruct o; discriminate. Qed.

Lemma nr_bind {A B} (m : Pass A) (k : A -> Pass B) :
  no_rerun m -> (forall a, no_rerun (k a)) -> no_rerun (bind m k).
Proof.
  intros Hm Hk st. unfold bind. specialize (Hm st).
  destruct (m st) as [[a| |] st']; [apply Hk|contradiction|discriminate].
Qed.

Lemma nr_get_sec id : no_rerun (get_sec id).
Proof. apply nr_bind; [apply nr_get|intros; apply nr_ret]. Qed.

Lemma nr_put_sec id s : no_rerun (put_sec id s).
Proof. apply nr_modify. Qed.

Ltac nr_step :=
  repeat match goal with
    | |- no_rerun (bind _ _) => apply nr_bind; [|intros ?]
    | |- no_rerun (ret _) => apply nr_ret
    | |- no_rerun get => apply nr_get
    | |- no_rerun (modify _) => apply nr_modify
    | |- no_rerun (lift _) => apply nr_lift
    | |- no_rerun (get_sec _) => apply nr_get_sec
    | |- no_rerun (put_sec _ _) => apply nr_put_sec
    | |- no_rerun (if ?b then _ else _) => destruct b
    end.

Lemma nr_edit_rows ui id i k : no_rerun (edit_rows ui id i k).
Proof. revert i; induction k as [|k IH]; intros i; simpl; nr_step; apply IH. Qed.

Lemma nr_regen_step id n : no_rerun (regen_step id n).
Proof. unfold regen_step. nr_step. Qed.

Lemma nr_bathy_step id : no_rerun (bathy_step ds id).
Proof.
  unfold bathy_step. nr_step.
  match goal with |- context [points ?s] =>
    destruct (points s) as [|p1 [|p2 [|]]]; try apply nr_ret; destruct (bathy_dist s) end;
  [apply nr_put_sec|apply nr_ret].
Qed.

Lemma nr_all_view : no_rerun all_view.
Proof. unfold all_view. nr_step. Qed.

Lemma nr_manual_coords ui id : no_rerun (manual_coords ui id).
Proof. unfold manual_coords. nr_step. Qed.

Section Idle.
Variable ui : UI.
Hypothesis Hidle : ui_idle ui.

Lemma nr_prev_next_step id : no_rerun (prev_next_step ui id).
Proof. unfold prev_next_step. rewrite !Hidle. destruct id; nr_step. Qed.

Lemma nr_design_step id : no_rerun (design_step ui id).
Proof.
  unfold design_step, compare_step. rewrite !Hidle. nr_step;
  [apply nr_regen_step|apply nr_edit_rows|apply nr_prev_next_step].
Qed.

Lemma nr_after_click id : no_rerun (pts <- manual_coords ui id ;;
  apply_step ui id (fst pts) (snd pts) ;; reset_step ui id ;; sec <- get_sec id ;;
  if Nat.eqb (length (points sec)) 2 then bathy_step ds id ;; design_step ui id else ret tt).
Proof.
  unfold apply_step, reset_step. rewrite !Hidle. nr_step;
    [apply nr_manual_coords|apply nr_bathy_step|apply nr_design_step].
Qed.
End Idle.

Lemma idle_no_nav ui : ui_idle ui -> no_nav ui.
Proof. intros H v. apply H. Qed.

(** With every button released, the only rerun of a run is the one of a
    map click that adds a point. *)
Lemma render_idle_rerun ui st :
  ui_idle ui -> fst (render ds ui st) = Reran ->
  exists id p s', current st = ViewSec id /\ ui_map ui id = Some p /\
    click_point (sections st id) p = Some s' /\
    snd (render ds ui st) = mkSession (store_set (sections st) id s') (current st) (S (coord_version st)).
Proof.
  intros Hi H. pose proof (idle_no_nav ui Hi) as Hn.
  destruct (current st) as [id|] eqn:Hc.
  - rewrite (render_edit ui st id Hn Hc) in H |- *. unfold edit_view in H |- *.
    assert (Hnone : (forall q, ui_map ui id = Some q -> click_point (sections st id) q = None) ->
                    False).
    { intros Hq. rewrite (bind_Done _ _ _ tt st (click_step_ignored ui id st Hq)) in H.
      exact (nr_after_click ui Hi id st H). }
    destruct (ui_map ui id) as [p|] eqn:Hm; [|exfalso; apply Hnone; discriminate].
    destruct (click_point (sections st id) p) as [s'|] eqn:Hk.
    + exists id, p, s'. rewrite (bind_Reran _ _ _ _ (click_step_added ui id st p s' Hm Hk)).
      rewrite <- Hc. repeat split; auto.
    + exfalso. apply Hnone. intros q Hq. injection Hq as <-. exact Hk.
  - rewrite (render_all ui st Hn Hc) in H. destruct (nr_all_view st H).
Qed.

Lemma Qltb_abs_self x : Qltb (Qabs (x - x)) (1 # 10000) = true.
Proof.
  destruct (Qltb_spec (Qabs (x - x)) (1 # 10000)) as [|Hge]; [reflexivity|].
  setoid_replace (x - x) with 0 in Hge by ring. simpl in Hge. lra.
Qed.

(** A click that was just added is ignored by the next run. *)
Lemma click_point_again s p s' : click_point s p = Some s' -> click_point s' p = None.
Proof.
  unfold click_point. intros H.
  destruct (Nat.ltb_spec (length (points s)) 2); [|discriminate].
  destruct (match rev (points s) with _ :: _ => _ | [] => true end); [|discriminate].
  injection H as <-. cbn [points]. rewrite rev_app_distr. cbn [rev app].
  rewrite !Qltb_abs_self. now destruct (Nat.ltb _ 2).
Qed.

Lemma release_idle ui : ui_idle (release ui).
Proof. intros b. reflexivity. Qed.

Lemma release_ok ui : ui_ok ui -> ui_ok (release ui).
Proof. exact (fun H => H). Qed.

Lemma reachable_not_raised ui st :
  reachable ds st -> ui_ok ui -> fst (render ds ui st) <> Raised.
Proof.
  intros Hr Hui. exact (proj1 (wf_post ds _ _ (render_wp ds ui st (reachable_wf ds st Hr) Hui))).
Qed.

Lemma reachable_after ui st st' o :
  reachable ds st -> ui_ok ui -> render ds ui st = (o, st') -> reachable ds st'.
Proof. intros Hr Hui E. replace st' with (snd (render ds ui st)) by now rewrite E. now apply reach_run. Qed.

(** C4: Streamlit's rerun loop terminates: from any reachable session,
    whatever the user pressed, at most three runs (the run of the click,
    a rerun with the buttons released, and one more for a map click the
    rerun appended) reach a run that ends normally. *)
Theorem rerun_loop_terminates ui st :
  reachable ds st -> ui_ok ui -> exists st', run_until_done 3 ds ui st = Some (Done tt, st').
Proof.
  intros Hr Hui. cbn [run_until_done].
  pose proof (reachable_not_raised ui st Hr Hui) as N1.
  destruct (render ds ui st) as [[[]| |] st1] eqn:E1; [eauto| |contradiction].
  pose proof (reachable_after _ _ _ _ Hr Hui E1) as Hr1.
  pose proof (reachable_not_raised (release ui) st1 Hr1 (release_ok ui Hui)) as N2.
  destruct (render ds (release ui) st1) as [[[]| |] st2] eqn:E2; [eauto| |contradiction].
  destruct (render_idle_rerun (release ui) st1 (release_idle ui)) as [id [p [s' [Hc [Hm [Hk Hs]]]]]];
    [now rewrite E2|]. rewrite E2 in Hs. cbn [snd] in Hs.
  pose proof (reachable_after _ _ _ _ Hr1 (release_ok ui Hui) E2) as Hr2.
  pose proof (reachable_not_raised (release (release ui)) st2 Hr2 (release_ok _ (release_ok ui Hui))) as N3.
  destruct (render ds (release (release ui)) st2) as [[[]| |] st3] eqn:E3; [eauto| |contradiction].
  exfalso.
  destruct (render_idle_rerun (release (release ui)) st2 (release_idle _))
    as [id' [p' [s'' [Hc' [Hm' [Hk' _]]]]]]; [now rewrite E3|].
  subst st2. cbn [current sections] in Hc', Hk'. rewrite Hc in Hc'. injection Hc' as <-.
  cbn in Hm, Hm'. rewrite Hm in Hm'. injection Hm' as <-.
  rewrite store_set_eq, (click_point_again _ _ _ Hk) in Hk'. discriminate.
Qed.
Lemma apply_step_idle ui id p1 p2 st :
  ui_button ui (ApplyBtn id) = false -> apply_step ui id p1 p2 st = (Done tt, st).
Proof. intros H. unfold apply_step. now rewrite H. Qed.

Lemma reset_step_pressed ui id st :
  ui_button ui (ResetBtn id) = true ->
  reset_step ui id st =
    (Reran, mkSession (store_set (sections st) id (reset_section (sections st id)))
                      (current st) (S (coord_version st))).
Proof. intros H. unfold reset_step. now rewrite H. Qed.

Lemma manual_coords_run ui id st : exists pts, manual_coords ui id st = (Done pts, st).
Proof. eexists. reflexivity. Qed.

(** C3: "Reset Points" is undone by the next run when the map still
    reports its last click ([st_folium] keeps [last_clicked]): the reset
    run clears the section, and the following run, whatever its buttons,
    appends the persisted click again. *)
Theorem reset_rerun_readds_click ui1 ui2 st id p :
  current st = ViewSec id -> no_nav ui1 ->
  ui_button ui1 (ApplyBtn id) = false -> ui_button ui1 (ResetBtn id) = true ->
  length (points (sections st id)) = 2%nat ->
  no_nav ui2 -> ui_map ui2 id = Some p ->
  fst (render ds ui1 st) = Reran /\
  sections (snd (render ds ui1 st)) id = reset_section (sections st id) /\
  fst (render ds ui2 (snd (render ds ui1 st))) = Reran /\
  points (sections (snd (render ds ui2 (snd (render ds ui1 st)))) id) = [p].
Proof.
  intros Hc Hn1 Ha Hr Hl Hn2 Hm.
  destruct (manual_coords_run ui1 id st) as [pts Hp].
  assert (E1 : render ds ui1 st =
    (Reran, mkSession (store_set (sections st) id (reset_section (sections st id)))
                      (current st) (S (coord_version st)))).
  { rewrite (render_edit ui1 st id Hn1 Hc). unfold edit_view.
    rewrite (bind_Done _ _ _ tt st (click_step_ignored _ _ _ (fun q _ => click_point_full _ q Hl))).
    rewrite (bind_Done _ _ _ pts st Hp).
    rewrite (bind_Done _ _ _ tt st (apply_step_idle _ _ _ _ _ Ha)).
    apply bind_Reran, reset_step_pressed, Hr. }
  rewrite E1. cbn [fst snd]. split; [reflexivity|]. split; [apply store_set_eq|].
  set (st1 := mkSession _ _ _).
  assert (Hk : click_point (sections st1 id) p = Some (mkSection [p] [] [] [] [] false)).
  { unfold st1. cbn [sections]. now rewrite store_set_eq. }
  rewrite (render_edit ui2 st1 id Hn2 Hc). unfold edit_view.
  rewrite (bind_Reran _ _ _ _ (click_step_added _ _ _ _ _ Hm Hk)).
  split; [reflexivity|]. cbn [snd sections]. now rewrite store_set_eq.
Qed.

Lemma bathy_step_kept id st :
  bathy_dist (sections st id) <> [] -> bathy_step ds id st = (Done tt, st).
Proof.
  intros Hb. unfold bathy_step. cbn.
  destruct (points (sections st id)) as [|p1 [|p2 [|]]]; try reflexivity.
  destruct (bathy_dist (sections st id)); [congruence|reflexivity].
Qed.

(** C22: "Apply Coordinates" replaces the two points but keeps the profile,
    the design curve and the completed flag of the old line, and the
    profile is not extracted again for the new line on the next run. *)
Theorem apply_keeps_stale_profile ui st id p1 p2 :
  current st = ViewSec id -> no_nav ui ->
  (forall p, ui_map ui id = Some p -> click_point (sections st id) p = None) ->
  manual_coords ui id st = (Done (p1, p2), st) ->
  ui_button ui (ApplyBtn id) = true ->
  fst (render ds ui st) = Reran /\
  sections (snd (render ds ui st)) id = apply_points (sections st id) p1 p2 /\
  (bathy_dist (sections st id) <> [] ->
   bathy_step ds id (snd (render ds ui st)) = (Done tt, snd (render ds ui st))).
Proof.
  intros Hc Hn Hk Hp Ha.
  assert (E : render ds ui st =
    (Reran, mkSession (store_set (sections st) id (apply_points (sections st id) p1 p2))
                      (current st) (coord_version st))).
  { rewrite (render_edit ui st id Hn Hc). unfold edit_view.
    rewrite (bind_Done _ _ _ tt st (click_step_ignored _ _ _ Hk)), (bind_Done _ _ _ _ st Hp).
    apply bind_Reran. unfold apply_step. now rewrite Ha. }
  rewrite E. cbn [fst snd sections]. rewrite store_set_eq.
  split; [reflexivity|split; [reflexivity|]]. intros Hb. apply bathy_step_kept.
  cbn [sections]. now rewrite store_set_eq.
Qed.

(** A step that satisfies [wp] and cannot rerun ends normally. *)
Lemma wp_nr_done {A} (m : Pass A) Q st :
  wp ds m Q st -> no_rerun m -> exists a st', m st = (Done a, st') /\ Q a st'.
Proof.
  unfold wp. intros H N. specialize (N st).
  destruct (m st) as [[a| |] st']; [eauto|now destruct N|contradiction].
Qed.

Lemma reset_step_idle ui id st :
  ui_button ui (ResetBtn id) = false -> reset_step ui id st = (Done tt, st).
Proof. intros H. unfold reset_step. now rewrite H. Qed.

(** A step that refines a pure section operation and ends normally
    stores the section that operation computes. *)
Lemma refines_done (m : Pass unit) (r : option Section) st id st1 :
  m st = (Done tt, st1) ->
  match r with
  | Some s' => exists st', m st = (Done tt, st') /\ sec_update st id s' st'
  | None => fst (m st) = Raised
  end ->
  exists s', r = Some s' /\ sec_update st id s' st1.
Proof.
  intros E H. destruct r as [s'|].
  - destruct H as [st' [E' U]]. rewrite E in E'. injection E' as <-. eauto.
  - rewrite E in H. discriminate.
Qed.

(** On a reachable session showing a section with two points and a
    profile, with no navigation, Apply or Reset button pressed, a run goes
    through the design editor without raising and reaches line 348 with
    the view and the completed flag unchanged. *)
Lemma render_reaches_compare ui st id :
  reachable ds st -> ui_ok ui -> current st = ViewSec id -> no_nav ui ->
  ui_button ui (ApplyBtn id) = false -> ui_button ui (ResetBtn id) = false ->
  length (points (sections st id)) = 2%nat -> bathy_dist (sections st id) <> [] ->
  exists st2,
    render ds ui st = (compare_step ui id ;; sec <- get_sec id ;;
                       if completed sec then prev_next_step ui id else ret tt) st2 /\
    current st2 = current st /\ completed (sections st2 id) = completed (sections st id).
Proof.
  intros Hr Hui Hc Hn Ha Hrs Hl Hb.
  pose proof (reachable_wf ds st Hr) as Hwf.
  destruct (manual_coords_run ui id st) as [pts Hp].
  destruct (wp_nr_done _ _ st (regen_step_wp ds id (ui_npts ui id) st Hwf Hb (proj1 (Hui id)))
              (nr_regen_step id (ui_npts ui id))) as [[] [st1 [E1 R1]]].
  destruct (wp_nr_done _ _ st1 (edit_rows_wp ds ui id (ui_npts ui id) (ui_npts ui id) 0 st1 R1 (le_n _))
              (nr_edit_rows ui id 0 (ui_npts ui id))) as [[] [st2 [E2 _]]].
  destruct (refines_done _ _ _ _ _ E1 (regen_step_refines id (ui_npts ui id) st))
    as [s1 [G1 [C1 [_ [S1 _]]]]].
  destruct (refines_done _ _ _ _ _ E2 (edit_rows_refines ui id (ui_npts ui id) 0 st1))
    as [s2 [G2 [C2 [_ [S2 _]]]]].
  exists st2. split; [|split].
  - rewrite (render_edit ui st id Hn Hc). unfold edit_view.
    rewrite (bind_Done _ _ _ tt st (click_step_ignored _ _ _ (fun q _ => click_point_full _ q Hl))),
      (bind_Done _ _ _ pts st Hp), (bind_Done _ _ _ tt st (apply_step_idle _ _ _ _ _ Ha)),
      (bind_Done _ _ _ tt st (reset_step_idle _ _ _ Hrs)).
    rewrite (bind_Done (get_sec id) _ st (sections st id) st eq_refl). rewrite Hl. cbn [Nat.eqb].
    rewrite (bind_Done _ _ _ tt st (bathy_step_kept id st Hb)).
    unfold design_step. rewrite (bind_Done (get_sec id) _ st (sections st id) st eq_refl).
    destruct (bathy_dist (sections st id)) as [|b bs]; [contradiction|]. cbv zeta.
    now rewrite (bind_Done _ _ _ tt st1 E1), (bind_Done _ _ _ tt st2 E2).
  - congruence.
  - rewrite S2, (proj2 (proj2 (design_edits_from_keeps _ _ _ _ _ G2))), S1.
    exact (proj2 (proj2 (design_regen_keeps _ _ _ G1))).
Qed.

(** C9: "Compare & Save" does what it says: on a reachable session showing
    a section with two points and a profile, pressing it (and nothing
    else) completes the section in that run, which then restarts. *)
Theorem compare_completes ui st id :
  reachable ds st -> ui_ok ui -> current st = ViewSec id -> no_nav ui ->
  ui_button ui (ApplyBtn id) = false -> ui_button ui (ResetBtn id) = false ->
  ui_button ui (CompareBtn id) = true ->
  length (points (sections st id)) = 2%nat -> bathy_dist (sections st id) <> [] ->
  fst (render ds ui st) = Reran /\ completed (sections (snd (render ds ui st)) id) = true.
Proof.
  intros Hr Hui Hc Hn Ha Hrs Hcmp Hl Hb.
  destruct (render_reaches_compare ui st id Hr Hui Hc Hn Ha Hrs Hl Hb) as [st2 [E _]].
  rewrite E. unfold compare_step. rewrite Hcmp.
  rewrite (bind_Reran (sec <- get_sec id ;; put_sec id (mark_completed sec) ;; rerun) _ st2
             (mkSession (store_set (sections st2) id (mark_completed (sections st2 id)))
                        (current st2) (coord_version st2)) eq_refl).
  cbn [fst snd sections]. rewrite store_set_eq. now split.
Qed.

(** C13: The buttons of a completed section (lines 363-375) move through
    the sections in the order A, B, C: on a reachable session showing a
    completed section, "< Previous" goes from B to A and from C to B, and,
    when it is not pressed, "Next >" goes from A to B and from B to C; the
    run then restarts. *)
Theorem prev_next_navigates ui st id :
  reachable ds st -> ui_ok ui -> current st = ViewSec id -> no_nav ui ->
  ui_button ui (ApplyBtn id) = false -> ui_button ui (ResetBtn id) = false ->
  ui_button ui (CompareBtn id) = false -> completed (sections st id) = true ->
  (forall id', In (id, id') [(SecB, SecA); (SecC, SecB)] -> ui_button ui (PrevBtn id) = true ->
     fst (render ds ui st) = Reran /\ current (snd (render ds ui st)) = ViewSec id') /\
  (forall id', In (id, id') [(SecA, SecB); (SecB, SecC)] -> ui_button ui (PrevBtn id) = false ->
     ui_button ui (NextBtn id) = true ->
     fst (render ds ui st) = Reran /\ current (snd (render ds ui st)) = ViewSec id').
Proof.
  intros Hr Hui Hc Hn Ha Hrs Hcmp Hdone.
  destruct (reachable_wf ds st Hr id) as [_ [H2 [_ [_ H5]]]].
  destruct (H5 Hdone) as [Hb _]. destruct (H2 Hb) as [Hl _].
  destruct (render_reaches_compare ui st id Hr Hui Hc Hn Ha Hrs Hl Hb) as [st2 [E [C2 D2]]].
  rewrite Hdone in D2. rewrite E. unfold compare_step. rewrite Hcmp.
  rewrite (bind_Done (ret tt) _ st2 tt st2 eq_refl), (bind_Done (get_sec id) _ st2 _ st2 eq_refl).
  rewrite D2. unfold prev_next_step.
  split; intros id' Hin; simpl in Hin; destruct Hin as [[= <- <-]|[[= <- <-]|[]]];
    intros; unfold bind, set_current, modify, rerun, ret; cbn;
    repeat match goal with H : ui_button ui ?b = _ |- context [ui_button ui ?b] => rewrite H; cbn end;
    split; reflexivity.
Qed.

(** C14: The second map click of a section (lines 252-262): a click
    within 0.0001 degree of the first point in both coordinates is
    ignored and the run ends with the session unchanged; any other click
    becomes the second point, bumps [coord_version] and restarts the run. *)
Theorem second_click ui st id q p :
  current st = ViewSec id -> no_nav ui ->
  ui_button ui (ApplyBtn id) = false -> ui_button ui (ResetBtn id) = false ->
  points (sections st id) = [q] -> ui_map ui id = Some p ->
  (Qabs (lat q - lat p) < 1 # 10000 -> Qabs (lon q - lon p) < 1 # 10000 ->
     render ds ui st = (Done tt, st)) /\
  (1 # 10000 <= Qabs (lat q - lat p) \/ 1 # 10000 <= Qabs (lon q - lon p) ->
     fst (render ds ui st) = Reran /\ points (sections (snd (render ds ui st)) id) = [q; p] /\
     coord_version (snd (render ds ui st)) = S (coord_version st)).
Proof.
  intros Hc Hn Ha Hrs Hq Hm. rewrite (render_edit ui st id Hn Hc). unfold edit_view.
  split.
  - intros Hla Hlo.
    assert (Hk : click_point (sections st id) p = None).
    { unfold click_point. rewrite Hq. cbn [length Nat.ltb rev app].
      destruct (Qltb_spec (Qabs (lat q - lat p)) (1 # 10000)); [|lra].
      destruct (Qltb_spec (Qabs (lon q - lon p)) (1 # 10000)); [reflexivity|lra]. }
    assert (Hig : forall q', ui_map ui id = Some q' -> click_point (sections st id) q' = None)
      by (intros q' Hq'; rewrite Hm in Hq'; injection Hq' as <-; exact Hk).
    destruct (manual_coords_run ui id st) as [pts Hp].
    rewrite (bind_Done _ _ _ tt st (click_step_ignored _ _ _ Hig)),
      (bind_Done _ _ _ pts st Hp), (bind_Done _ _ _ tt st (apply_step_idle _ _ _ _ _ Ha)),
      (bind_Done _ _ _ tt st (reset_step_idle _ _ _ Hrs)).
    unfold get_sec, bind, get, ret. now rewrite Hq.
  - intros Hfar.
    assert (Hk : click_point (sections st id) p =
                 Some (mkSection [q; p] (bathy_dist (sections st id)) (bathy_depth (sections st id))
                        (user_dist (sections st id)) (user_depth (sections st id))
                        (completed (sections st id)))).
    { unfold click_point. rewrite Hq. cbn [length Nat.ltb rev app].
      destruct (Qltb_spec (Qabs (lat q - lat p)) (1 # 10000)),
        (Qltb_spec (Qabs (lon q - lon p)) (1 # 10000)); try reflexivity; lra. }
    rewrite (bind_Reran _ _ _ _ (click_step_added _ _ _ _ _ Hm Hk)).
    cbn [fst snd sections coord_version]. rewrite store_set_eq. now repeat split.
Qed.

(** C15: The navigation buttons (lines 104-126) switch the view from any
    session: the first pressed button in the order A, B, C, All sets
    [current_section] and restarts the run, with the sections and
    [coord_version] untouched. *)
Theorem nav_switches_view ui st pre v post :
  pre ++ v :: post = [ViewSec SecA; ViewSec SecB; ViewSec SecC; ViewAll] ->
  Forall (fun v' => ui_button ui (NavBtn v') = false) pre -> ui_button ui (NavBtn v) = true ->
  render ds ui st = (Reran, mkSession (sections st) v (coord_version st)).
Proof.
  intros Hl Hpre Hv. unfold render, bind, get, nav_step, set_current, modify, rerun, ret. cbn.
  destruct pre as [|v1 [|v2 [|v3 [|v4 pre]]]];
    [..|apply (f_equal (@length View)) in Hl; cbn in Hl; rewrite length_app in Hl; cbn in Hl; lia].
  all: cbn in Hl; inversion Hl; subst; clear Hl;
    repeat match goal with H : Forall _ (_ :: _) |- _ => inversion_clear H end;
    repeat match goal with H : ui_button ?u ?b = _ |- context [ui_button ?u ?b] => rewrite H; cbn end;
    try reflexivity; discriminate.
Qed.

(** C23: The "All Results" view is read only: on a reachable session it
    reads the metrics of the completed sections, never raises, and ends
    with the session unchanged. *)
Theorem all_view_read_only ui st :
  reachable ds st -> current st = ViewAll -> no_nav ui -> render ds ui st = (Done tt, st).
Proof.
  intros Hr Hc Hn. rewrite (render_all ui st Hn Hc).
  destruct (all_results_Some ds st (reachable_wf ds st Hr)) as [r E].
  cbv beta iota delta [all_view bind get lift ret]. now rewrite E.
Qed.

End Traces.

(** The example UIs respect the widget bounds. *)
Lemma demo_ui_ok click pressed : ui_ok (demo_ui click pressed).
Proof. intros id. cbn. lia. Qed.

(** ** Witnesses *)

Module Witnesses.
Import Haversine.QLib.

Lemma demo_runs_reachable ds : reachable ds (demo_runs ds).
Proof. unfold demo_runs. repeat (apply reach_run; [|apply demo_ui_ok]). apply reach_init. Qed.

Lemma render_never_raises_witness :
  fst (render (Some demo_ds) (demo_ui None (press (CompareBtn SecA))) (demo_runs (Some demo_ds)))
  <> Raised.
Proof. apply render_never_raises; [apply demo_runs_reachable|apply demo_ui_ok]. Defined.

Lemma reachable_points_le_2_witness :
  (length (points (sections (demo_runs (Some demo_ds)) SecA)) <= 2)%nat.
Proof. apply (reachable_points_le_2 (Some demo_ds)), demo_runs_reachable. Defined.

Lemma reachable_completed_ready_witness :
  completed (sections (demo_runs (Some demo_ds)) SecA) = true /\
  length (points (sections (demo_runs (Some demo_ds)) SecA)) = 2%nat /\
  bathy_dist (sections (demo_runs (Some demo_ds)) SecA) <> [] /\
  user_depth (sections (demo_runs (Some demo_ds)) SecA) <> [].
Proof.
  assert (Hc : completed (sections (demo_runs (Some demo_ds)) SecA) = true) by (vm_compute; reflexivity).
  split; [exact Hc|]. apply (reachable_completed_ready (Some demo_ds)); [apply demo_runs_reachable|exact Hc].
Defined.

Lemma reachable_lengths_witness :
  (bathy_dist (sections (demo_runs (Some demo_ds)) SecA) <> [] ->
   length (bathy_dist (sections (demo_runs (Some demo_ds)) SecA)) =
   length (bathy_depth (sections (demo_runs (Some demo_ds)) SecA))) /\
  length (user_dist (sections (demo_runs (Some demo_ds)) SecA)) =
  length (user_depth (sections (demo_runs (Some demo_ds)) SecA)).
Proof. apply (reachable_lengths (Some demo_ds)), demo_runs_reachable. Defined.

Lemma reachable_no_dataset_witness :
  completed_count (sections (demo_runs None)) = 0%nat /\
  forall id, bathy_dist (sections (demo_runs None) id) = [].
Proof. apply (reachable_no_dataset None); [reflexivity|apply demo_runs_reachable]. Defined.

Lemma reset_rerun_readds_click_witness :
  let ui1 := demo_ui (Some Demo.demo_p2) (press (ResetBtn SecA)) in
  let ui2 := demo_ui (Some Demo.demo_p2) idle in
  fst (render (Some demo_ds) ui1 demo_two_points) = Reran /\
  sections (snd (render (Some demo_ds) ui1 demo_two_points)) SecA =
    reset_section (sections demo_two_points SecA) /\
  fst (render (Some demo_ds) ui2 (snd (render (Some demo_ds) ui1 demo_two_points))) = Reran /\
  points (sections (snd (render (Some demo_ds) ui2
            (snd (render (Some demo_ds) ui1 demo_two_points)))) SecA) = [Demo.demo_p2].
Proof.
  intros ui1 ui2. apply reset_rerun_readds_click; try reflexivity; intros v; reflexivity.
Defined.

Lemma apply_keeps_stale_profile_witness :
  let q1 := {| lat := 41.176; lon := 29.626 |} in
  let q2 := {| lat := 41.174; lon := 29.628 |} in
  fst (render (Some demo_ds) demo_apply_ui demo_profiled) = Reran /\
  sections (snd (render (Some demo_ds) demo_apply_ui demo_profiled)) SecA =
    apply_points (sections demo_profiled SecA) q1 q2 /\
  (bathy_dist (sections demo_profiled SecA) <> [] ->
   bathy_step (Some demo_ds) SecA (snd (render (Some demo_ds) demo_apply_ui demo_profiled)) =
   (Done tt, snd (render (Some demo_ds) demo_apply_ui demo_profiled))).
Proof.
  intros q1 q2. apply apply_keeps_stale_profile.
  - reflexivity.
  - intros v; reflexivity.
  - intros p H; reflexivity.
  - reflexivity.
  - reflexivity.
Defined.

Lemma rerun_loop_terminates_witness :
  exists st', run_until_done 3 (Some demo_ds) (demo_ui (Some Demo.demo_p1) (press (ResetBtn SecA)))
                (demo_runs (Some demo_ds)) = Some (Done tt, st').
Proof. apply rerun_loop_terminates; [apply demo_runs_reachable|apply demo_ui_ok]. Defined.

Lemma compare_completes_witness :
  let ui := demo_ui None (press (CompareBtn SecA)) in
  fst (render (Some demo_ds) ui (demo_runs (Some demo_ds))) = Reran /\
  completed (sections (snd (render (Some demo_ds) ui (demo_runs (Some demo_ds)))) SecA) = true.
Proof.
  intros ui. apply compare_completes;
    [apply demo_runs_reachable|apply demo_ui_ok|vm_compute; reflexivity|intros v; reflexivity
    |reflexivity|reflexivity|reflexivity|vm_compute; reflexivity|vm_compute; discriminate].
Defined.

Lemma prev_next_navigates_witness :
  let ui := demo_ui None (press (NextBtn SecA)) in
  fst (render (Some demo_ds) ui (demo_runs (Some demo_ds))) = Reran /\
  current (snd (render (Some demo_ds) ui (demo_runs (Some demo_ds)))) = ViewSec SecB.
Proof.
  intros ui. apply (proj2 (prev_next_navigates (Some demo_ds) ui (demo_runs (Some demo_ds)) SecA
                             (demo_runs_reachable _) (demo_ui_ok _ _) ltac:(vm_compute; reflexivity)
                             (fun v => eq_refl) eq_refl eq_refl eq_refl
                             ltac:(vm_compute; reflexivity)) SecB);
    [left; reflexivity|reflexivity|reflexivity].
Defined.

Lemma second_click_witness :
  render (Some demo_ds) (demo_ui (Some Demo.demo_p1) idle) demo_one_point = (Done tt, demo_one_point) /\
  points (sections (snd (render (Some demo_ds) (demo_ui (Some Demo.demo_p2) idle) demo_one_point)) SecA)
  = [Demo.demo_p1; Demo.demo_p2].
Proof.
  split.
  - apply (proj1 (second_click (Some demo_ds) (demo_ui (Some Demo.demo_p1) idle) demo_one_point SecA
                    Demo.demo_p1 Demo.demo_p1 eq_refl (fun v => eq_refl) eq_refl eq_refl eq_refl eq_refl));
      vm_compute; reflexivity.
  - apply (proj2 (second_click (Some demo_ds) (demo_ui (Some Demo.demo_p2) idle) demo_one_point SecA
                    Demo.demo_p1 Demo.demo_p2 eq_refl (fun v => eq_refl) eq_refl eq_refl eq_refl eq_refl)).
    left. vm_compute. intros H. discriminate H.
Defined.

Lemma nav_switches_view_witness :
  render (Some demo_ds) (demo_ui None (press (NavBtn ViewAll))) demo_two_points
  = (Reran, mkSession (sections demo_two_points) ViewAll (coord_version demo_two_points)).
Proof.
  apply (nav_switches_view (Some demo_ds) _ _ [ViewSec SecA; ViewSec SecB; ViewSec SecC] ViewAll []);
    [reflexivity|repeat constructor|reflexivity].
Defined.

Lemma all_view_read_only_witness :
  let st := snd (render (Some demo_ds) (demo_ui None (press (NavBtn ViewAll))) (demo_runs (Some demo_ds))) in
  render (Some demo_ds) (demo_ui None idle) st = (Done tt, st).
Proof.
  intros st. apply all_view_read_only.
  - apply reach_run; [apply demo_runs_reachable|apply demo_ui_ok].
  - vm_compute. reflexivity.
  - intros v. reflexivity.
Defined.

End Witnesses.

End Render.
