(* ===== verification/App.v ===== *)
(** * The application script and the Python process

    [src/app.py] is the page router: it keeps [st.session_state.page]
    ([landing] or [project]), sends the user to the project page when the
    landing form is submitted with a non-empty project name, back with the
    "Home" button, and on the project page calls
    [profile.render_profile_section()] (modelled by [Render.render]).

    The state of the section wizard is created by the module-level code of
    [src/profile_module.py] (lines 81-93), which Python executes once per
    process, at the first [import profile_module] (line 2 of [app.py]).
    The model therefore separates the process (has the module been
    imported?) from the browser sessions (their [st.session_state]), and
    runs the script of one session against the shared process.  The
    process also holds the cache of [@st.cache_data] on [load_bathymetry]
    (file [Loader]), filled by the first run of the project page of any
    session: [render_profile_section] calls the loader (line 95) before
    it reads the session state. *)

From Stdlib Require Import ZArith QArith List Lia Bool String.
From S2P Require Import Prelude Haversine Dataset Loader Sections Render.
Import ListNotations.
Import Dataset Loader Sections Render.

Module App.

(** ** State *)

Inductive Page := Landing | Project.

(** The keys of one browser session's [st.session_state]; [None] is a key
    that is not set. *)
Record AppSession := mkApp {
  page : option Page;
  project_name : option string;
  sections_key : option Store;
  current_key : option View;
  version_key : option nat
}.

Definition fresh_session : AppSession := mkApp None None None None None.

(** The Python process: whether [profile_module] is in [sys.modules],
    and the cache of [load_bathymetry]. *)
Record Process := mkProc { imported : bool; cache : Cache }.

Definition fresh_process : Process := mkProc false None.

(** The widgets of one run of [app.py]. *)
Record AppInput := mkInput {
  submitted : bool;       (** [st.form_submit_button("Start Project")] *)
  name_field : string;    (** [st.text_input("Enter Project Name:")] *)
  home : bool;            (** [st.button("Home")] *)
  profile_ui : UI;        (** the widgets of [render_profile_section] *)
  calculate : bool;       (** [st.button("START CALCULATIONS")] *)
  files : FileSystem      (** the file system at the time of the run *)
}.

(** ** The script *)

(** Lines 81-93 of [profile_module.py]: each key is set when it is absent. *)
Definition init_profile_keys (s : AppSession) : AppSession :=
  mkApp (page s) (project_name s)
    (match sections_key s with Some x => Some x | None => Some init_store end)
    (match current_key s with Some x => Some x | None => Some (ViewSec SecA) end)
    (match version_key s with Some x => Some x | None => Some 0%nat end).

(** Line 2 of [app.py]: the module body runs at the first import of the
    process only. *)
Definition import_module (pr : Process) (s : AppSession) : Process * AppSession :=
  if imported pr then (pr, s) else (mkProc true (cache pr), init_profile_keys s).

(** Lines 10-11. *)
Definition init_page (s : AppSession) : AppSession :=
  match page s with
  | Some _ => s
  | None => mkApp (Some Landing) (project_name s) (sections_key s) (current_key s) (version_key s)
  end.

Definition set_page (s : AppSession) (p : Page) : AppSession :=
  mkApp (Some p) (project_name s) (sections_key s) (current_key s) (version_key s).

(** [if project_name:]: a non-empty string. *)
Definition nonempty (n : string) : bool :=
  match n with EmptyString => false | String _ _ => true end.

(** Lines 60-67: the submitted form. *)
Definition landing_step (inp : AppInput) (s : AppSession) : Outcome unit * AppSession :=
  if submitted inp && nonempty (name_field inp) then
    (Reran, set_page (mkApp (page s) (Some (name_field inp)) (sections_key s) (current_key s)
                            (version_key s)) Project)
  else (Done tt, s).

(** Line 83: the title of the project page. *)
Definition project_title (s : AppSession) : string :=
  match project_name s with Some n => n | None => "Untitled Project" end.

(** Lines 150-158: the results shown by "START CALCULATIONS" are constants
    (sand volume in m^3, material cost and total in dollars). *)
Definition calculation_results (inp : AppInput) : option (Z * Z * Z) :=
  if calculate inp then Some (12345%Z, 123000%Z, 123456%Z) else None.

(** Line 107: [render_profile_section] loads the raster through the cache
    (line 95), then reads [current_section] (line 97), [sections] and
    [coord_version]; a missing key is an AttributeError.  The writes of
    the pass go back to the session state, also when it raised. *)
Definition profile_step `{MathLib} (fs : FileSystem) (ui : UI) (pr : Process) (s : AppSession)
  : Outcome unit * Process * AppSession :=
  let (ds, c) := cached_load fs (cache pr) in
  let pr' := mkProc (imported pr) c in
  match current_key s, sections_key s, version_key s with
  | Some cur, Some secs, Some v =>
      let (o, st') := render ds ui (mkSession secs cur v) in
      (o, pr', mkApp (page s) (project_name s) (Some (sections st')) (Some (current st'))
                     (Some (coord_version st')))
  | _, _, _ => (Raised, pr', s)
  end.

(** Lines 74-158: the project page. *)
Definition project_step `{MathLib} (inp : AppInput) (pr : Process) (s : AppSession)
  : Outcome unit * Process * AppSession :=
  if home inp then (Reran, pr, set_page s Landing)
  else profile_step (files inp) (profile_ui inp) pr s.

(** One run of [app.py] for one session. *)
Definition app_run `{MathLib} (inp : AppInput) (pr : Process) (s : AppSession)
  : Outcome unit * Process * AppSession :=
  let (pr1, s1) := import_module pr s in
  let s2 := init_page s1 in
  match page s2 with
  | Some Landing => let (o, s3) := landing_step inp s2 in (o, pr1, s3)
  | Some Project => project_step inp pr1 s2
  | None => (Done tt, pr1, s2)
  end.

(** ** Several browser sessions on one process *)

Definition System := (Process * (nat -> AppSession))%type.

Definition sys_init : System := (fresh_process, fun _ => fresh_session).

Definition upd (f : nat -> AppSession) (i : nat) (s : AppSession) : nat -> AppSession :=
  fun j => if Nat.eqb j i then s else f j.

(** A run of browser session [i]. *)
Definition sys_step `{MathLib} (i : nat) (inp : AppInput) (sy : System)
  : Outcome unit * System :=
  match app_run inp (fst sy) (snd sy i) with
  | (o, pr', s') => (o, (pr', upd (snd sy) i s'))
  end.

(** The states of a process that serves one browser session only. *)
Inductive single_reachable `{MathLib} : Process -> AppSession -> Prop :=
| single_init : single_reachable fresh_process fresh_session
| single_run pr s inp :
    single_reachable pr s -> ui_ok (profile_ui inp) ->
    single_reachable (snd (fst (app_run inp pr s))) (snd (app_run inp pr s)).

(** A run of the script with the given form, Home button and no widget
    of the profile page touched. *)
Definition demo_input (sub : bool) (name : string) (hm : bool) : AppInput :=
  mkInput sub name hm (demo_ui None idle) false demo_fs_present.

(** The same run against another file system. *)
Definition with_files (inp : AppInput) (fs : FileSystem) : AppInput :=
  mkInput (submitted inp) (name_field inp) (home inp) (profile_ui inp) (calculate inp) fs.

(** ** Lemmas *)

(** The profile keys of a session hold a session that [Render] can reach. *)
Definition keys_ok `{MathLib} (ds : option Dataset) (s : AppSession) : Prop :=
  exists secs cur v, sections_key s = Some secs /\ current_key s = Some cur /\
    version_key s = Some v /\ reachable ds (mkSession secs cur v).

(** The datasets a later run may still be given: any while the cache is
    empty, the cached one afterwards. *)
Definition cache_allows (pr : Process) (d : option Dataset) : Prop :=
  cache pr = None \/ cache pr = Some d.

Lemma cached_load_allows fs pr :
  cache_allows pr (fst (cached_load fs (cache pr))).
Proof. unfold cache_allows. destruct (cache pr); [right|left]; reflexivity. Qed.

Lemma cache_allows_filled pr d d' :
  cache pr = Some d -> cache_allows pr d' -> d' = d.
Proof. unfold cache_allows. intros E [H|H]; congruence. Qed.

Lemma profile_step_missing_keys `{MathLib} fs ui pr s :
  current_key s = None -> fst (fst (profile_step fs ui pr s)) = Raised.
Proof.
  intros Hc. unfold profile_step. destruct (cached_load fs (cache pr)). now rewrite Hc.
Qed.

Lemma app_run_missing_keys `{MathLib} inp pr s :
  imported pr = true -> current_key s = None -> page s = Some Project -> home inp = false ->
  fst (fst (app_run inp pr s)) = Raised.
Proof.
  intros Hi Hc Hp Hh. unfold app_run, import_module, init_page, project_step.
  rewrite Hi. cbv iota beta zeta. rewrite Hp. cbv iota beta zeta. rewrite Hp, Hh.
  now apply profile_step_missing_keys.
Qed.

Lemma profile_step_imported `{MathLib} fs ui pr s :
  imported (snd (fst (profile_step fs ui pr s))) = imported pr.
Proof.
  unfold profile_step. destruct (cached_load _ _).
  destruct (current_key s), (sections_key s), (version_key s); try reflexivity.
  now destruct (render _ _ _).
Qed.

Lemma app_run_imported `{MathLib} inp pr s : imported (snd (fst (app_run inp pr s))) = true.
Proof.
  unfold app_run. destruct (import_module pr s) as [pr1 s1] eqn:E.
  assert (Hi : imported pr1 = true)
    by (unfold import_module in E; destruct (imported pr) eqn:Hp; injection E as <- <-; auto).
  cbv zeta. destruct (page (init_page s1)) as [[|]|]; [|unfold project_step|exact Hi].
  - now destruct (landing_step inp (init_page s1)).
  - destruct (home inp); [exact Hi|]. now rewrite profile_step_imported.
Qed.

Lemma init_profile_keys_ok `{MathLib} ds s :
  sections_key s = None -> current_key s = None -> version_key s = None ->
  keys_ok ds (init_profile_keys s).
Proof.
  intros H1 H2 H3. unfold init_profile_keys. rewrite H1, H2, H3.
  exists init_store, (ViewSec SecA), 0%nat. repeat split. apply reach_init.
Qed.

Lemma init_page_keys_ok `{MathLib} ds s : keys_ok ds s -> keys_ok ds (init_page s).
Proof. unfold init_page. destruct (page s); auto. Qed.

Lemma render_keys_ok `{MathLib} ds ui secs cur v :
  reachable ds (mkSession secs cur v) -> ui_ok ui ->
  fst (render ds ui (mkSession secs cur v)) <> Raised /\
  reachable ds (snd (render ds ui (mkSession secs cur v))).
Proof.
  intros Hr Hui. split; [|now apply reach_run].
  exact (proj1 (wf_post ds _ _ (render_wp ds ui _ (reachable_wf ds _ Hr) Hui))).
Qed.

(** The invariant of a process serving one session: the module has been
    imported, and the session's keys are reachable for every dataset the
    cache may still return. *)
Definition single_inv `{MathLib} (pr : Process) (s : AppSession) : Prop :=
  imported pr = true /\ forall d, cache_allows pr d -> keys_ok d s.

Lemma profile_step_inv `{MathLib} fs ui pr s :
  single_inv pr s -> ui_ok ui ->
  fst (fst (profile_step fs ui pr s)) <> Raised /\
  single_inv (snd (fst (profile_step fs ui pr s))) (snd (profile_step fs ui pr s)).
Proof.
  intros [Hi K] Hui. unfold profile_step.
  pose proof (cached_load_allows fs pr) as Ha. pose proof (cached_load_cache fs (cache pr)) as Hc.
  destruct (cached_load fs (cache pr)) as [ds c]. cbn [fst snd] in Ha, Hc. subst c.
  destruct (K ds Ha) as [secs [cur [v [E1 [E2 [E3 Hr]]]]]]. rewrite E1, E2, E3.
  destruct (render_keys_ok ds ui secs cur v Hr Hui) as [Hn Hr'].
  destruct (render ds ui (mkSession secs cur v)) as [o st'].
  split; [exact Hn|]. split; [exact Hi|]. intros d Hd.
  assert (d = ds) as -> by (apply (cache_allows_filled (mkProc (imported pr) (Some ds))); auto).
  exists (sections st'), (current st'), (coord_version st'). repeat split. now destruct st'.
Qed.

(** After the import, a run does not raise and keeps the invariant. *)
Lemma app_run_inv `{MathLib} inp pr s :
  single_inv pr s -> ui_ok (profile_ui inp) ->
  fst (fst (app_run inp pr s)) <> Raised /\
  single_inv (snd (fst (app_run inp pr s))) (snd (app_run inp pr s)).
Proof.
  intros [Hi K] Hui. unfold app_run, import_module. rewrite Hi. cbv beta iota.
  assert (K2 : forall d, cache_allows pr d -> keys_ok d (init_page s)) by auto using init_page_keys_ok.
  set (s2 := init_page s) in *. clearbody s2. clear K.
  destruct (page s2) as [[|]|].
  - unfold landing_step. destruct (submitted inp && nonempty (name_field inp)); cbn;
      (split; [discriminate|split; [exact Hi|]]); intros d Hd;
      destruct (K2 d Hd) as [secs [cur [v [E1 [E2 [E3 Hr]]]]]];
      exists secs, cur, v; cbn; rewrite ?E1, ?E2, ?E3; auto.
  - unfold project_step. destruct (home inp).
    + split; [discriminate|split; [exact Hi|]]. intros d Hd.
      destruct (K2 d Hd) as [secs [cur [v [E1 [E2 [E3 Hr]]]]]].
      exists secs, cur, v. cbn. rewrite ?E1, ?E2, ?E3; auto.
    + now apply profile_step_inv.
  - split; [discriminate|split; [exact Hi|exact K2]].
Qed.

Lemma first_run_inv `{MathLib} :
  single_inv (mkProc true None) (init_profile_keys fresh_session).
Proof. split; [reflexivity|]. intros d _. now apply init_profile_keys_ok. Qed.

Lemma single_reachable_inv `{MathLib} pr s :
  single_reachable pr s -> (pr = fresh_process /\ s = fresh_session) \/ single_inv pr s.
Proof.
  induction 1 as [|pr s inp _ IH Hui]; [now left|right].
  destruct IH as [[-> ->]|Hinv].
  - change (app_run inp fresh_process fresh_session)
      with (app_run inp (mkProc true None) (init_profile_keys fresh_session)).
    apply app_run_inv; auto. now apply first_run_inv.
  - now apply app_run_inv.
Qed.

Lemma sys_step_fst `{MathLib} i inp sy :
  fst (sys_step i inp sy) = fst (fst (app_run inp (fst sy) (snd sy i))).
Proof. unfold sys_step. now destruct (app_run inp (fst sy) (snd sy i)) as [[o pr'] s']. Qed.

Lemma sys_step_snd `{MathLib} i inp sy :
  snd (sys_step i inp sy) =
  (snd (fst (app_run inp (fst sy) (snd sy i))), upd (snd sy) i (snd (app_run inp (fst sy) (snd sy i)))).
Proof. unfold sys_step. now destruct (app_run inp (fst sy) (snd sy i)) as [[o pr'] s']. Qed.

Lemma app_run_fresh_submit `{MathLib} inp pr :
  imported pr = true -> submitted inp = true -> nonempty (name_field inp) = true ->
  app_run inp pr fresh_session =
  (Reran, pr, mkApp (Some Project) (Some (name_field inp)) None None None).
Proof.
  intros Hi Hs Hn. unfold app_run, import_module, landing_step. rewrite Hi. cbn. now rewrite Hs, Hn.
Qed.

(** C2: The wizard state is created per process, not per browser session:
    once a first session has run the script, a second session that
    submits the landing form raises an AttributeError on its next run of
    the project page, whatever the first session did. *)
Theorem second_session_crash `{MathLib} i j inp1 inp2 inp3 :
  i <> j -> submitted inp2 = true -> nonempty (name_field inp2) = true -> home inp3 = false ->
  let sy1 := snd (sys_step i inp1 sys_init) in
  let sy2 := snd (sys_step j inp2 sy1) in
  fst (sys_step j inp3 sy2) = Raised.
Proof.
  intros Hij Hs Hn Hh sy1 sy2.
  assert (Hi1 : imported (fst sy1) = true) by (unfold sy1; rewrite sys_step_snd; apply app_run_imported).
  assert (Hj1 : snd sy1 j = fresh_session).
  { unfold sy1. rewrite sys_step_snd. cbn. unfold upd. now rewrite (proj2 (Nat.eqb_neq j i)) by auto. }
  assert (E2 : sy2 = (fst sy1, upd (snd sy1) j (mkApp (Some Project) (Some (name_field inp2)) None None None))).
  { unfold sy2. rewrite sys_step_snd, Hj1, (app_run_fresh_submit inp2 _ Hi1 Hs Hn). reflexivity. }
  rewrite sys_step_fst, E2. cbn [fst snd]. unfold upd. rewrite Nat.eqb_refl.
  now apply app_run_missing_keys.
Qed.

(** C17: A process that serves a single browser session never raises: the
    first run imports the module and creates the wizard state, and every
    later run keeps it reachable by [Render]. *)
Theorem single_session_never_raises `{MathLib} pr s inp :
  single_reachable pr s -> ui_ok (profile_ui inp) -> fst (fst (app_run inp pr s)) <> Raised.
Proof.
  intros Hr Hui. destruct (single_reachable_inv pr s Hr) as [[-> ->]|Hinv].
  - change (app_run inp fresh_process fresh_session)
      with (app_run inp (mkProc true None) (init_profile_keys fresh_session)).
    apply app_run_inv; auto. apply first_run_inv.
  - now apply app_run_inv.
Qed.

(** C39: The landing page does not move without a project name: with an
    empty name field the run changes nothing, submitted or not. *)
Theorem empty_name_stays `{MathLib} inp pr s :
  imported pr = true -> page s = Some Landing -> nonempty (name_field inp) = false ->
  app_run inp pr s = (Done tt, pr, s).
Proof.
  intros Hi Hp Hn. unfold app_run, import_module, init_page, landing_step.
  rewrite Hi. cbv iota beta zeta. rewrite Hp. cbv iota beta zeta. rewrite Hp, Hn, andb_false_r.
  reflexivity.
Qed.

(** C40: "Home" and a new submission of the landing form bring the user
    back to the project page with the new name and the wizard state
    (sections, current view, widget version) exactly as it was. *)
Theorem home_roundtrip `{MathLib} inp1 inp2 pr s :
  imported pr = true -> page s = Some Project -> home inp1 = true ->
  submitted inp2 = true -> nonempty (name_field inp2) = true ->
  let r1 := app_run inp1 pr s in
  let r2 := app_run inp2 (snd (fst r1)) (snd r1) in
  fst (fst r1) = Reran /\ page (snd r1) = Some Landing /\ fst (fst r2) = Reran /\
  page (snd r2) = Some Project /\ project_name (snd r2) = Some (name_field inp2) /\
  sections_key (snd r2) = sections_key s /\ current_key (snd r2) = current_key s /\
  version_key (snd r2) = version_key s.
Proof.
  intros Hi Hp Hh Hs Hn r1 r2.
  assert (E1 : r1 = (Reran, pr, set_page s Landing)).
  { unfold r1, app_run, import_module, init_page, project_step.
    rewrite Hi. cbv iota beta zeta. rewrite Hp. cbv iota beta zeta. rewrite Hp, Hh. reflexivity. }
  unfold r2. rewrite E1. cbn [fst snd].
  unfold app_run, import_module, init_page, landing_step. rewrite Hi. cbn. rewrite Hs, Hn.
  repeat split; reflexivity.
Qed.

Lemma import_module_cache pr s : cache (fst (import_module pr s)) = cache pr.
Proof. unfold import_module. now destruct (imported pr). Qed.

Lemma import_module_page pr s : page (snd (import_module pr s)) = page s.
Proof. unfold import_module. now destruct (imported pr). Qed.

(** The profile page writes the cache whatever happens after the load. *)
Lemma profile_step_cache `{MathLib} fs ui pr s :
  cache (snd (fst (profile_step fs ui pr s))) = snd (cached_load fs (cache pr)).
Proof.
  unfold profile_step. destruct (cached_load fs (cache pr)) as [ds c].
  destruct (current_key s), (sections_key s), (version_key s); try reflexivity.
  now destruct (render _ _ _).
Qed.

(** C24: [render_profile_section] calls the loader before it reads the
    session state (line 95): the first project-page run of a process
    fills the cache with what the loader returns against the file system
    of that run, also when the run then raises for want of the keys. *)
Theorem project_run_fills_cache `{MathLib} inp pr s :
  cache pr = None -> page s = Some Project -> home inp = false ->
  cache (snd (fst (app_run inp pr s))) = Some (load_bathymetry (files inp)).
Proof.
  intros Hc Hp Hh. unfold app_run.
  pose proof (import_module_cache pr s) as Hc1. pose proof (import_module_page pr s) as Hp1.
  destruct (import_module pr s) as [pr1 s1]. cbn [fst snd] in Hc1, Hp1. cbv zeta.
  unfold init_page. rewrite Hp1, Hp. cbv iota beta. rewrite Hp1, Hp. cbv iota beta.
  unfold project_step. rewrite Hh.
  rewrite profile_step_cache, Hc1, Hc. reflexivity.
Qed.

(** C16: Once the raster has been loaded (or has failed to load) by any
    session, the file system no longer matters: every run of the process
    gives the same result whatever the files are, so a raster added,
    replaced or removed later is never seen. *)
Theorem app_run_ignores_files `{MathLib} inp pr s fs :
  cache pr <> None -> app_run inp pr s = app_run (with_files inp fs) pr s.
Proof.
  intros Hc. unfold app_run. pose proof (import_module_cache pr s) as Hc1.
  destruct (import_module pr s) as [pr1 s1]. cbn [fst] in Hc1. cbv zeta. destruct (page (init_page s1)) as [[|]|]; try reflexivity.
  unfold project_step. cbn [home with_files files profile_ui]. destruct (home inp); [reflexivity|].
  unfold profile_step. rewrite Hc1. destruct (cache pr); [reflexivity|congruence].
Qed.

(** ** Witnesses *)

Module Witnesses.
Import Haversine.QLib.
Open Scope string_scope.

Lemma second_session_crash_witness :
  let sy1 := snd (sys_step 0 (demo_input false EmptyString false) sys_init) in
  let sy2 := snd (sys_step 1 (demo_input true "Beach" false) sy1) in
  fst (sys_step 1 (demo_input false EmptyString false) sy2) = Raised.
Proof. apply second_session_crash; try reflexivity. discriminate. Defined.

Lemma single_session_never_raises_witness :
  let r1 := app_run (demo_input true "Beach" false) fresh_process fresh_session in
  fst (fst (app_run (demo_input false EmptyString false) (snd (fst r1)) (snd r1)))
  <> Raised.
Proof.
  apply single_session_never_raises; [apply single_run; [apply single_init|]|]; apply demo_ui_ok.
Defined.

Lemma empty_name_stays_witness :
  let s := mkApp (Some Landing) None (Some init_store) (Some (ViewSec SecA)) (Some 0%nat) in
  app_run (demo_input true EmptyString false) (mkProc true None) s = (Done tt, mkProc true None, s).
Proof. intros s. apply empty_name_stays; reflexivity. Defined.

Lemma home_roundtrip_witness :
  let s := mkApp (Some Project) (Some "Beach") (Some init_store) (Some (ViewSec SecB)) (Some 3%nat) in
  let r1 := app_run (demo_input false EmptyString true) (mkProc true (Some (Some demo_ds))) s in
  let r2 := app_run (demo_input true "Beach 2" false) (snd (fst r1)) (snd r1) in
  fst (fst r1) = Reran /\ page (snd r1) = Some Landing /\ fst (fst r2) = Reran /\
  page (snd r2) = Some Project /\ project_name (snd r2) = Some "Beach 2" /\
  sections_key (snd r2) = sections_key s /\ current_key (snd r2) = current_key s /\
  version_key (snd r2) = version_key s.
Proof. intros s. apply home_roundtrip; reflexivity. Defined.

Lemma app_run_ignores_files_witness :
  let pr := mkProc true (Some None) in
  let s := mkApp (Some Project) (Some "Beach") (Some init_store) (Some (ViewSec SecA)) (Some 0%nat) in
  app_run (demo_input false EmptyString false) pr s =
  app_run (with_files (demo_input false EmptyString false) demo_fs_missing) pr s.
Proof. intros pr s. apply app_run_ignores_files. discriminate. Defined.

Lemma project_run_fills_cache_witness :
  let s := mkApp (Some Project) (Some "Beach") None None None in
  fst (fst (app_run (demo_input false EmptyString false) (mkProc true None) s)) = Raised /\
  cache (snd (fst (app_run (demo_input false EmptyString false) (mkProc true None) s)))
  = Some (load_bathymetry demo_fs_present).
Proof.
  intros s. split; [reflexivity|].
  apply (project_run_fills_cache (demo_input false EmptyString false)); reflexivity.
Defined.

End Witnesses.

End App.
